(** * fastapi-boilerplates: pagination arithmetic, cursor traversal,
      exception-handling conventions, schema validators and stock adjustment.

    The development embeds the request handlers of the example modules as
    Rocq functions.  Python [int] is [Z]; [str] is [string] (a sequence of
    characters); [float] is idealised as an exact rational [Q] (no rounding,
    no NaN, no infinities); awaited calls are run to completion; log output
    is not modelled.  A handler either returns a value or raises, which is
    the [result] type below. *)

From Stdlib Require Import ZArith QArith Qround String Ascii Lia.
From stdpp Require Import gmap strings list fin_maps sorting pretty.

Local Open Scope Z_scope.

(** ** Python values, exceptions and [try]/[except] *)

Module Py.

(** Exception classes that the examples raise, catch or can receive from a
    library, except [fastapi.HTTPException], which is kept apart in [exn]
    because only the repository's own [raise] statements produce it.  All
    of them are subclasses of [Exception].  The last four are those of
    PyJWT, the library that [import jwt] loads. *)
Inductive exc_class : Set :=
| Exception
| ValueError | ValidationError
| ArithmeticError | ZeroDivisionError | OverflowError
| TypeError | KeyError | RuntimeError | AttributeError
| OSError | ConnectionError | PermissionError | TimeoutError
| ProductNotFoundError | InsufficientStockError | InvalidProductIDError
| httpx_HTTPError | httpx_RequestError | httpx_TransportError
| httpx_TimeoutException | httpx_NetworkError | httpx_HTTPStatusError
| BSONError | InvalidId
| PyJWTError | InvalidTokenError | DecodeError | ExpiredSignatureError.

#[global] Instance exc_class_eq_dec : EqDecision exc_class.
Proof. solve_decision. Defined.

(** The direct base class ([None] for the root [Exception]). *)
Definition base (c : exc_class) : option exc_class :=
  match c with
  | Exception => None
  | ValueError => Some Exception
  | ValidationError => Some ValueError
  | ArithmeticError => Some Exception
  | ZeroDivisionError | OverflowError => Some ArithmeticError
  | TypeError | KeyError | RuntimeError | AttributeError => Some Exception
  | OSError => Some Exception
  | ConnectionError | PermissionError | TimeoutError => Some OSError
  | ProductNotFoundError | InsufficientStockError | InvalidProductIDError =>
      Some Exception
  | httpx_HTTPError => Some Exception
  | httpx_RequestError => Some httpx_HTTPError
  | httpx_TransportError => Some httpx_RequestError
  | httpx_TimeoutException | httpx_NetworkError => Some httpx_TransportError
  | httpx_HTTPStatusError => Some httpx_HTTPError
  | BSONError => Some Exception
  | InvalidId => Some BSONError
  | PyJWTError => Some Exception
  | InvalidTokenError => Some PyJWTError
  | DecodeError | ExpiredSignatureError => Some InvalidTokenError
  end.

Fixpoint issubclass_upto (depth : nat) (c d : exc_class) : bool :=
  if decide (c = d) then true
  else match depth with
       | O => false
       | S depth' =>
           match base c with
           | Some b => issubclass_upto depth' b d
           | None => false
           end
       end.

(** No class above is more than four steps below [Exception]. *)
Definition issubclass : exc_class → exc_class → bool := issubclass_upto 4.

(** The [detail] of an [HTTPException]: a message, or the list [e.errors()]
    of a pydantic [ValidationError] (kept as the text of that error). *)
Inductive detail_t : Set :=
| Text (s : string)
| ErrorList (of_error : string).

(** The exceptions that are no instances of [Exception]: [except
    Exception] does not catch them.  [CancelledError] is raised at an
    [await] of a request that is cancelled. *)
Inductive base_class : Set :=
| CancelledError | KeyboardInterrupt | SystemExit | GeneratorExit.

(** A raised exception.  [str] is what [str(e)] gives; an
    [httpx.HTTPStatusError] also carries [e.response.status_code]. *)
Inductive exn : Set :=
| HTTPException (status_code : Z) (detail : detail_t)
| Error (cls : exc_class) (str : string)
| HTTPStatusError (response_status_code : Z) (str : string)
| BaseError (cls : base_class) (str : string).

Definition str (e : exn) : string :=
  match e with
  | HTTPException sc (Text d) => pretty sc +:+ ": " +:+ d
  | HTTPException sc (ErrorList d) => pretty sc +:+ ": " +:+ d
  | Error _ s => s
  | HTTPStatusError _ s => s
  | BaseError _ s => s
  end.

(** What an [except] clause names. *)
Inductive except_pat : Set :=
| E_HTTPException
| E (c : exc_class).

Definition isinstance (e : exn) (p : except_pat) : bool :=
  match p, e with
  | E_HTTPException, HTTPException _ _ => true
  | E_HTTPException, _ => false
  | E c, HTTPException _ _ => bool_decide (c = Exception)
  | E c, Error c' _ => issubclass c' c
  | E c, HTTPStatusError _ _ => issubclass httpx_HTTPStatusError c
  | E c, BaseError _ _ => false
  end.

(** Outcome of running a block of code. *)
Inductive result (A : Type) : Type :=
| Return (a : A)
| Raise (e : exn).
Arguments Return {A} a.
Arguments Raise {A} e.

Definition bind {A B} (m : result A) (k : A → result B) : result B :=
  match m with
  | Return a => k a
  | Raise e => Raise e
  end.

(** An [except C as e: raise ...] clause: the class it names and the
    exception its body raises for the caught [e].  Every [except] body in
    the modelled handlers ends in [raise]. *)
Definition clause : Set := except_pat * (exn → exn).

(** The bare [raise] statement. *)
Definition reraise : exn → exn := λ e, e.

(** The first clause whose class matches handles the exception; an
    exception no clause matches propagates. *)
Fixpoint handle (clauses : list clause) (e : exn) : exn :=
  match clauses with
  | [] => e
  | (p, body) :: rest => if isinstance e p then body e else handle rest e
  end.

Definition try_except {A} (block : result A) (clauses : list clause)
  : result A :=
  match block with
  | Return a => Return a
  | Raise e => Raise (handle clauses e)
  end.

(** Values of handler responses that are plain dictionaries. *)
#[warnings="-register-all"]
Inductive value : Set :=
| VNone
| VBool (b : bool)
| VInt (i : Z)
| VFloat (x : Q)
| VStr (s : string)
| VList (items : list value)
| VDict (fields : list (string * value)).

(** A route handler with one outermost [try] statement: its request
    (arguments and whatever the environment answers), the [try] block,
    the [except] clauses of that statement, and the clauses of each [try]
    statement that is nested in the block. *)
Record endpoint : Type := Endpoint {
  request : Type;
  response : Type;
  try_block : request → result response;
  except_clauses : list clause;
  nested_clauses : request → list (list clause)
}.

Definition run (ep : endpoint) (r : request ep) : result (response ep) :=
  try_except (try_block ep r) (except_clauses ep).

(** [s in t] on strings. *)
Definition contains (t s : string) : bool :=
  match String.index 0 s t with
  | Some _ => true
  | None => false
  end.

(** Truth value of an optional string: [None] and [""] are false. *)
Definition truthy (s : option string) : option string :=
  match s with
  | Some EmptyString => None
  | other => other
  end.

(** [a / b] on integers (true division) and [math.ceil]. *)
Definition truediv (a b : Z) : result Q :=
  if b =? 0 then Raise (Error ZeroDivisionError "division by zero")
  else Return (inject_Z a / inject_Z b)%Q.

Definition math_ceil (x : Q) : Z := Qceiling x.

(** [len(l)] and [l[:n]] on lists. *)
Definition len {A} (l : list A) : Z := Z.of_nat (length l).

Definition slice_to {A} (l : list A) (n : Z) : list A :=
  if 0 <=? n then take (Z.to_nat n) l
  else take (length l - Z.to_nat (- n))%nat l.

(** [if cond: raise e] *)
Definition raise_if (cond : bool) (e : exn) : result unit :=
  if cond then Raise e else Return tt.

(** [x < y] on floats. *)
Definition Qlt_bool (x y : Q) : bool := negb (Qle_bool y x).

(** What a call into a library or the operating system answers: a value,
    or an exception of that library. *)
Inductive outcome (A : Type) : Type :=
| Gives (a : A)
| Fails (cls : exc_class) (msg : string).
Arguments Gives {A} a.
Arguments Fails {A} cls msg.

Definition await {A} (o : outcome A) : result A :=
  match o with
  | Gives a => Return a
  | Fails c msg => Raise (Error c msg)
  end.

End Py.

(** Sequencing of statements is stdpp's monadic bind, [x ← m; k]. *)
#[global] Instance result_ret : MRet Py.result := @Py.Return.
#[global] Instance result_bind : MBind Py.result := λ A B k m, Py.bind m k.

(** ** [bson.ObjectId] *)

Module Bson.
Import Py.

(** What an [ObjectId] holds: bytes.  The ids that MongoDB gives to the
    documents it stores have twelve. *)
Definition bytes : Set := list N.

(** The white space of [bytes.fromhex]: tab to carriage return, and
    space. *)
Definition isspace (c : ascii) : bool :=
  let n := N_of_ascii c in ((9 <=? n) && (n <=? 13) || (n =? 32))%N.

Definition hex_digit (c : ascii) : option N :=
  let n := N_of_ascii c in
  if ((48 <=? n) && (n <=? 57))%N then Some (n - 48)%N
  else if ((97 <=? n) && (n <=? 102))%N then Some (n - 87)%N
  else if ((65 <=? n) && (n <=? 70))%N then Some (n - 55)%N
  else None.

(** [bytes.fromhex(s)]: two hexadecimal digits for each byte; white space
    before a byte and at the end is skipped, white space between the two
    digits of a byte is not. *)
Fixpoint fromhex (s : string) : option bytes :=
  match s with
  | EmptyString => Some []
  | String c s' =>
      if isspace c then fromhex s'
      else
        match hex_digit c, s' with
        | Some top, String c' s'' =>
            match hex_digit c' with
            | Some bot => cons (16 * top + bot)%N <$> fromhex s''
            | None => None
            end
        | _, _ => None
        end
  end.

Definition not_valid (s : string) : exn :=
  Error InvalidId
    ("'" +:+ s +:+ "' is not a valid ObjectId, it must be a 12-byte input "
     +:+ "or a 24-character hex string").

(** [ObjectId(s)] for a [str] argument: any string of 24 characters that
    [bytes.fromhex] reads.  It holds twelve bytes when the 24 characters
    are hexadecimal digits, and fewer when some of them are white
    space. *)
Definition ObjectId_of_str (s : string) : result bytes :=
  if (String.length s =? 24)%nat then
    match fromhex s with
    | Some b => Return b
    | None => Raise (not_valid s)
    end
  else Raise (not_valid s).

(** The number that bytes spell, the first byte counting most, and the
    number that a string of hexadecimal digits spells after [acc]. *)
Definition number (b : bytes) : N :=
  foldl (λ n byte, 256 * n + byte)%N 0%N b.

Fixpoint hex_value (acc : N) (s : string) : option N :=
  match s with
  | EmptyString => Some acc
  | String c s' =>
      match hex_digit c with
      | Some d => hex_value (16 * acc + d)%N s'
      | None => None
      end
  end.

End Bson.

(** ** search-routes-with-pagination-best-practices/example.py *)

Module Search.
Import Py.
Export Bson.

(** *** The document store

    The [_id] of a stored document is an [ObjectId] of twelve bytes.  The
    model keeps it as the number that the bytes spell, which is how ids
    are ordered, and prints it as 24 hexadecimal digits. *)
Definition ObjectId : Set := N.

Definition ObjectId_of_bytes (b : bytes) : option ObjectId :=
  if (length b =? 12)%nat then Some (number b) else None.

Definition hex_char (d : N) : ascii :=
  if (d <? 10)%N then ascii_of_N (48 + d) else ascii_of_N (87 + d).

Fixpoint to_hex (digits : nat) (n : N) : string :=
  match digits with
  | O => EmptyString
  | S k => to_hex k (n / 16)%N +:+ String (hex_char (n mod 16)%N) EmptyString
  end.

(** [str(oid)]. *)
Definition ObjectId_str (oid : ObjectId) : string := to_hex 24 oid.

(** [class Product(Document)]; [datetime] values are counted in
    milliseconds, which is what the store keeps of them. *)
Record Product : Set := {
  _id : ObjectId;
  name : string;
  description : string;
  category : string;
  price : Q;
  stock : Z;
  tags : list string;
  is_active : bool;
  is_featured : bool;
  created_at : Z;
  updated_at : Z
}.

(** What the interpreter and the database decide and the examples do not:
    MongoDB's regular-expression search (pattern, options, subject), the
    iteration order of a Python [set] of strings, the [$group]/[$sort]
    aggregation by category over the matched documents, and which
    documents the database takes to have an id greater than an [ObjectId]
    of fewer than twelve bytes. *)
Class Env : Type := {
  regex_search : string → string → string → bool;
  set_iteration : list string → list string;
  count_by_category : list Product → list (string * Z);
  short_id_gt : bytes → Product → bool
}.

Inductive text_field : Set := f_name | f_description | f_category.

Definition text_of (f : text_field) (p : Product) : string :=
  match f with
  | f_name => name p
  | f_description => description p
  | f_category => category p
  end.

(** The beanie query expressions the handlers build. *)
#[warnings="-register-all"]
Inductive expr : Set :=
| RegEx (f : text_field) (pattern options : string)
| price_ge (x : Q)                  (* Product.price >= x *)
| price_le (x : Q)                  (* Product.price <= x *)
| stock_gt (n : Z)                  (* Product.stock > n *)
| stock_eq (n : Z)                  (* Product.stock == n *)
| In_tags (values : list string)    (* In(Product.tags, values) *)
| is_active_eq (b : bool)           (* Product.is_active == b *)
| category_eq (s : string)          (* Product.category == s *)
| id_gt (oid : ObjectId)            (* Product.id > oid, twelve bytes *)
| id_gt_short (b : bytes)           (* Product.id > oid, fewer bytes *)
| And (es : list expr)
| Or (es : list expr).

(** [Product.id > oid] for the [ObjectId] that holds the bytes [b]. *)
Definition Product_id_gt (b : bytes) : expr :=
  match ObjectId_of_bytes b with
  | Some oid => id_gt oid
  | None => id_gt_short b
  end.

Section Queries.
Context `{Env}.

Fixpoint matches (e : expr) (p : Product) : bool :=
  match e with
  | RegEx f pattern options => regex_search pattern options (text_of f p)
  | price_ge x => Qle_bool x (price p)
  | price_le x => Qle_bool (price p) x
  | stock_gt n => n <? stock p
  | stock_eq n => stock p =? n
  | In_tags values => existsb (λ t, bool_decide (t ∈ values)) (tags p)
  | is_active_eq b => bool_decide (is_active p = b)
  | category_eq s => bool_decide (category p = s)
  | id_gt oid => (oid <? _id p)%N
  | id_gt_short b => short_id_gt b p
  | And es => forallb (λ e', matches e' p) es
  | Or es => existsb (λ e', matches e' p) es
  end.

(** A [find] query under construction: the filter expressions, the sort
    specification, and the [skip] and [limit] counts ([limit 0] is no
    limit, as in MongoDB). *)
Record FindMany : Set := {
  find_expressions : list expr;
  sort_expression : option string;
  skip_number : Z;
  limit_number : Z
}.

Definition find (es : list expr) : FindMany :=
  {| find_expressions := es; sort_expression := None;
     skip_number := 0; limit_number := 0 |}.

Definition FindMany_sort (spec : string) (q : FindMany) : FindMany :=
  {| find_expressions := find_expressions q; sort_expression := Some spec;
     skip_number := skip_number q; limit_number := limit_number q |}.

Definition FindMany_skip (n : Z) (q : FindMany) : FindMany :=
  {| find_expressions := find_expressions q;
     sort_expression := sort_expression q;
     skip_number := n; limit_number := limit_number q |}.

Definition FindMany_limit (n : Z) (q : FindMany) : FindMany :=
  {| find_expressions := find_expressions q;
     sort_expression := sort_expression q;
     skip_number := skip_number q; limit_number := n |}.

(** The documents a query selects, in stored order. *)
Definition selected (q : FindMany) (docs : list Product) : list Product :=
  filter (λ p, Is_true (forallb (λ e, matches e p) (find_expressions q))) docs.

(** Ascending order of two documents on a field; a field the documents do
    not have orders nothing.  Documents that are equal on the field come
    in the order in which the list holds them: the list stands for the
    order that the database has for them at the time of the request. *)
Definition field_le (field : string) (a b : Product) : bool :=
  if bool_decide (field = "_id") then (_id a <=? _id b)%N
  else if bool_decide (field = "name") then String.leb (name a) (name b)
  else if bool_decide (field = "price") then Qle_bool (price a) (price b)
  else if bool_decide (field = "stock") then stock a <=? stock b
  else if bool_decide (field = "created_at") then created_at a <=? created_at b
  else true.

(** A sort specification is a field name with a [+] (ascending) or [-]
    (descending) prefix. *)
Definition sort_le (spec : string) (a b : Product) : bool :=
  match spec with
  | String "-" field => field_le field b a
  | String "+" field => field_le field a b
  | field => field_le field a b
  end.

Definition sorted_by (spec : option string) (docs : list Product)
  : list Product :=
  match spec with
  | Some s => merge_sort (λ a b, Is_true (sort_le s a b)) docs
  | None => docs
  end.

Definition limited (n : Z) (docs : list Product) : list Product :=
  if n =? 0 then docs else take (Z.to_nat (Z.abs n)) docs.

(** The collection: reachable with its documents, or failing every call
    with a driver error. *)
Inductive Database : Set :=
| Online (docs : list Product)
| Failing (cls : exc_class) (msg : string).

(** [await query.count()]: the number of selected documents. *)
Definition count (q : FindMany) (db : Database) : result Z :=
  match db with
  | Online docs => Return (Z.of_nat (length (selected q docs)))
  | Failing c msg => Raise (Error c msg)
  end.

(** [await query.to_list()]: select, sort, skip, limit.  The driver
    refuses a negative skip. *)
Definition to_list (q : FindMany) (db : Database) : result (list Product) :=
  match db with
  | Online docs =>
      if skip_number q <? 0 then Raise (Error ValueError "skip must be >= 0")
      else
        Return (limited (limit_number q)
                  (drop (Z.to_nat (skip_number q))
                     (sorted_by (sort_expression q) (selected q docs))))
  | Failing c msg => Raise (Error c msg)
  end.

End Queries.

(** *** Response models *)

Record ProductResponse : Set := {
  r_id : string;
  r_name : string;
  r_description : string;
  r_category : string;
  r_price : Q;
  r_stock : Z;
  r_tags : list string;
  r_is_active : bool;
  r_created_at : Z
}.

Definition ProductResponse_from_document (product : Product)
  : ProductResponse :=
  {| r_id := ObjectId_str (_id product);
     r_name := name product;
     r_description := description product;
     r_category := category product;
     r_price := price product;
     r_stock := stock product;
     r_tags := tags product;
     r_is_active := is_active product;
     r_created_at := created_at product |}.

Record ProductListItem : Set := {
  i_id : string;
  i_name : string;
  i_category : string;
  i_price : Q;
  i_stock : Z
}.

Definition ProductListItem_from_document (product : Product)
  : ProductListItem :=
  {| i_id := ObjectId_str (_id product);
     i_name := name product;
     i_category := category product;
     i_price := price product;
     i_stock := stock product |}.

Record PaginatedResponse (T : Type) : Type := {
  total : Z;
  page : Z;
  page_size : Z;
  total_pages : Z;
  has_next : bool;
  has_prev : bool;
  items : list T
}.
Arguments total {T} _.
Arguments page {T} _.
Arguments page_size {T} _.
Arguments total_pages {T} _.
Arguments has_next {T} _.
Arguments has_prev {T} _.
Arguments items {T} _.

(** Construction validates the declared bounds: [page >= 1],
    [1 <= page_size <= 100], [total_pages >= 1]. *)
Definition PaginatedResponse_init {T} (total page page_size total_pages : Z)
    (has_next has_prev : bool) (items : list T)
  : result (PaginatedResponse T) :=
  if (1 <=? page) && (1 <=? page_size) && (page_size <=? 100)
     && (1 <=? total_pages)
  then Return {| total := total; page := page; page_size := page_size;
                 total_pages := total_pages; has_next := has_next;
                 has_prev := has_prev; items := items |}
  else Raise (Error ValidationError "validation error for PaginatedResponse").

Record CursorPaginatedResponse (T : Type) : Type := {
  c_items : list T;
  next_cursor : option string;
  has_more : bool;
  c_count : Z
}.
Arguments c_items {T} _.
Arguments next_cursor {T} _.
Arguments has_more {T} _.
Arguments c_count {T} _.

Inductive SortField : Set := sf_name | sf_price | sf_created_at | sf_stock.

Definition SortField_value (f : SortField) : string :=
  match f with
  | sf_name => "name"
  | sf_price => "price"
  | sf_created_at => "created_at"
  | sf_stock => "stock"
  end.

Inductive SortOrder : Set := asc | desc.

Definition SortOrder_value (o : SortOrder) : string :=
  match o with asc => "asc" | desc => "desc" end.

(** *** Reusable dependencies *)

Record PaginationParams : Set := {
  pp_page : Z;
  pp_page_size : Z;
  pp_skip : Z
}.

Definition PaginationParams_init (page page_size : Z) : PaginationParams :=
  {| pp_page := page; pp_page_size := page_size;
     pp_skip := (page - 1) * page_size |}.

Record ProductFilters : Set := {
  pf_q : option string;
  pf_category : option string;
  pf_min_price : option Q;
  pf_max_price : option Q;
  pf_in_stock : option bool;
  pf_tags : list string;
  pf_is_active : option bool
}.

Definition opt_list {A B} (o : option A) (f : A → list B) : list B :=
  match o with Some a => f a | None => [] end.

Definition build_conditions (self : ProductFilters) : list expr :=
  opt_list (truthy (pf_q self))
    (λ q, [Or [RegEx f_name q "i"; RegEx f_description q "i"]])
  ++ opt_list (truthy (pf_category self)) (λ c, [RegEx f_category c "i"])
  ++ opt_list (pf_min_price self) (λ x, [price_ge x])
  ++ opt_list (pf_max_price self) (λ x, [price_le x])
  ++ opt_list (pf_in_stock self)
       (λ b : bool, if b then [stock_gt 0] else [stock_eq 0])
  ++ (if pf_tags self is [] then [] else [In_tags (pf_tags self)])
  ++ opt_list (pf_is_active self) (λ b, [is_active_eq b]).


(** [math.ceil(total / page_size) if total > 0 else 1] *)
Definition compute_total_pages (total page_size : Z) : result Z :=
  if 0 <? total then x ← truediv total page_size; mret (math_ceil x)
  else mret 1.

(** *** Route handlers *)

Section Handlers.
Context `{Env}.

(** Pattern 1: [GET /api/products/basic] *)
Definition list_products_basic_try (page page_size : Z) (db : Database)
  : result (PaginatedResponse ProductListItem) :=
  let skip := (page - 1) * page_size in
  total ← count (find [is_active_eq true]) db;
  products ← to_list
    (FindMany_limit page_size
       (FindMany_skip skip
          (FindMany_sort "-created_at" (find [is_active_eq true])))) db;
  total_pages ← compute_total_pages total page_size;
  PaginatedResponse_init total page page_size total_pages
    (page <? total_pages) (1 <? page)
    (ProductListItem_from_document <$> products).

Definition list_products_basic_except : list clause :=
  [ (E Exception, λ _, HTTPException 500 (Text "Failed to retrieve products")) ].

Definition list_products_basic (page page_size : Z) (db : Database) :=
  try_except (list_products_basic_try page page_size db)
    list_products_basic_except.

(** Pattern 2: [GET /api/products/filter] *)
Definition filter_products_try (filters : ProductFilters)
    (pagination : PaginationParams) (sort_by : SortField) (order : SortOrder)
    (db : Database) : result (PaginatedResponse ProductResponse) :=
  let conditions := build_conditions filters in
  let query := if conditions is [] then find [] else find [And conditions] in
  total ← count query db;
  let sort_string :=
    (if order is desc then "-" else "+") +:+ SortField_value sort_by in
  let query := FindMany_sort sort_string query in
  products ← to_list
    (FindMany_limit (pp_page_size pagination)
       (FindMany_skip (pp_skip pagination) query)) db;
  total_pages ← compute_total_pages total (pp_page_size pagination);
  PaginatedResponse_init total (pp_page pagination) (pp_page_size pagination)
    total_pages (pp_page pagination <? total_pages) (1 <? pp_page pagination)
    (ProductResponse_from_document <$> products).

Definition filter_products_except : list clause :=
  [ (E Exception, λ _, HTTPException 500 (Text "Failed to filter products")) ].

Definition filter_products filters pagination sort_by order db :=
  try_except (filter_products_try filters pagination sort_by order db)
    filter_products_except.

(** Pattern 3: [GET /api/products/search]; first the [conditions] list
    that the handler fills. *)
Definition search_conditions (q category : option string)
    (min_price max_price : option Q) (in_stock : option bool)
    (tags : list string) : list expr :=
  opt_list (truthy q)
    (λ q, [Or [RegEx f_name q "i"; RegEx f_description q "i";
               RegEx f_category q "i"]])
  ++ opt_list (truthy category) (λ c, [RegEx f_category c "i"])
  ++ opt_list min_price (λ x, [price_ge x])
  ++ opt_list max_price (λ x, [price_le x])
  ++ opt_list in_stock (λ b : bool, if b then [stock_gt 0] else [stock_eq 0])
  ++ (if tags is [] then [] else [In_tags tags])
  ++ [is_active_eq true].

Definition search_products_try (q category : option string)
    (min_price max_price : option Q) (in_stock : option bool)
    (tags : list string) (sort_by order : string) (page page_size : Z)
    (db : Database) : result (PaginatedResponse ProductResponse) :=
  let conditions :=
    search_conditions q category min_price max_price in_stock tags in
  let query :=
    if conditions is [] then find [is_active_eq true]
    else find [And conditions] in
  total ← count query db;
  let skip := (page - 1) * page_size in
  total_pages ← compute_total_pages total page_size;
  let sort_string :=
    (if bool_decide (order = "desc") then "-" else "+") +:+ sort_by in
  let query := FindMany_sort sort_string query in
  products ← to_list (FindMany_limit page_size (FindMany_skip skip query)) db;
  PaginatedResponse_init total page page_size total_pages
    (page <? total_pages) (1 <? page)
    (ProductResponse_from_document <$> products).

Definition search_products_except : list clause :=
  [ (E Exception, λ _, HTTPException 500 (Text "Search operation failed")) ].

Definition search_products q category min_price max_price in_stock tags
    sort_by order page page_size db :=
  try_except
    (search_products_try q category min_price max_price in_stock tags
       sort_by order page page_size db)
    search_products_except.

(** Pattern 4: [GET /api/products/cursor]; first the query that the
    handler builds, up to [query.limit(limit + 1)], then the handler,
    which sends it. *)
Definition list_products_cursor_id_except : list clause :=
  [ (E Exception, λ _, HTTPException 400 (Text "Invalid cursor format")) ].

Definition list_products_cursor_query (cursor : option string) (limit : Z)
    (category : option string) : result FindMany :=
  let conditions :=
    [is_active_eq true] ++ opt_list (truthy category) (λ c, [category_eq c]) in
  let query := find [And conditions] in
  query ← match truthy cursor with
          | Some cursor =>
              try_except
                (cursor_id ← ObjectId_of_str cursor;
                 mret (find [And (conditions ++ [Product_id_gt cursor_id])]))
                list_products_cursor_id_except
          | None => mret query
          end;
  let query := FindMany_sort "+_id" query in
  mret (FindMany_limit (limit + 1) query).

Definition list_products_cursor_try (cursor : option string) (limit : Z)
    (category : option string) (db : Database)
  : result (CursorPaginatedResponse ProductResponse) :=
  query ← list_products_cursor_query cursor limit category;
  products ← to_list query db;
  let has_more := limit <? len products in
  let products := if has_more then slice_to products limit else products in
  let next_cursor :=
    match last products with
    | Some p => if has_more then Some (ObjectId_str (_id p)) else None
    | None => None
    end in
  mret {| c_items := ProductResponse_from_document <$> products;
          next_cursor := next_cursor;
          has_more := has_more;
          c_count := len products |}.

Definition list_products_cursor_except : list clause :=
  [ (E_HTTPException, reraise);
    (E Exception, λ _, HTTPException 500 (Text "Failed to retrieve products")) ].

Definition list_products_cursor cursor limit category db :=
  try_except (list_products_cursor_try cursor limit category db)
    list_products_cursor_except.

(** Pattern 5: [GET /api/products/autocomplete] *)
Record AutocompleteResponse : Set := { suggestions : list string }.

Definition autocomplete_products_try (q : string) (limit : Z) (db : Database)
  : result AutocompleteResponse :=
  products ← to_list
    (FindMany_limit limit
       (find [And [RegEx f_name ("^" +:+ q) "i"; is_active_eq true]])) db;
  let suggestions := slice_to (set_iteration (name <$> products)) limit in
  mret {| suggestions := suggestions |}.

Definition autocomplete_products_except : list clause :=
  [ (E Exception, λ _, HTTPException 500 (Text "Autocomplete failed")) ].

Definition autocomplete_products q limit db :=
  try_except (autocomplete_products_try q limit db)
    autocomplete_products_except.

(** Pattern 6: [GET /api/products/infinite] *)
Record InfiniteScrollResponse : Set := {
  s_items : list ProductResponse;
  s_last_id : option string;
  s_has_more : bool
}.

Definition infinite_scroll_id_except : list clause :=
  [ (E Exception, λ _, HTTPException 400 (Text "Invalid last_id")) ].

Definition infinite_scroll_try (last_id : option string) (limit : Z)
    (db : Database) : result InfiniteScrollResponse :=
  query ← match truthy last_id with
          | Some last_id =>
              try_except
                (last_obj_id ← ObjectId_of_str last_id;
                 mret (find [And [Product_id_gt last_obj_id;
                                  is_active_eq true]]))
                infinite_scroll_id_except
          | None => mret (find [is_active_eq true])
          end;
  products ← to_list (FindMany_limit limit (FindMany_sort "+_id" query)) db;
  mret {| s_items := ProductResponse_from_document <$> products;
          s_last_id := (λ p, ObjectId_str (_id p)) <$> last products;
          s_has_more := bool_decide (len products = limit) |}.

Definition infinite_scroll_except : list clause :=
  [ (E_HTTPException, reraise);
    (E Exception, λ _, HTTPException 500 (Text "Failed to load more items")) ].

Definition infinite_scroll last_id limit db :=
  try_except (infinite_scroll_try last_id limit db) infinite_scroll_except.

(** Pattern 7: [GET /api/products/facets] *)
Record FacetsResponse : Set := {
  f_products : list ProductResponse;
  f_total : Z;
  f_facets : value
}.

(** [await Product.aggregate(pipeline).to_list()] for the pipeline that
    matches, groups by category and sorts by count. *)
Definition aggregate_categories (query_filter : expr) (db : Database)
  : result (list (string * Z)) :=
  match db with
  | Online docs => Return (count_by_category (selected (find [query_filter]) docs))
  | Failing c msg => Raise (Error c msg)
  end.

(** [query_filter.to_dict()]: the operators of beanie and the comparisons
    of its fields have no such method. *)
Definition class_name (e : expr) : string :=
  match e with
  | RegEx _ _ _ => "RegEx"
  | price_ge _ => "GTE"
  | price_le _ => "LTE"
  | stock_gt _ | id_gt _ | id_gt_short _ => "GT"
  | stock_eq _ | is_active_eq _ | category_eq _ => "Eq"
  | In_tags _ => "In"
  | And _ => "And"
  | Or _ => "Or"
  end.

Definition to_dict (e : expr) : result expr :=
  Raise (Error AttributeError
           ("'" +:+ class_name e +:+ "' object has no attribute 'to_dict'")).

Definition faceted_search_try (q category : option string)
    (page page_size : Z) (db : Database) : result FacetsResponse :=
  let conditions :=
    [is_active_eq true]
    ++ opt_list (truthy q)
         (λ q, [Or [RegEx f_name q "i"; RegEx f_description q "i"]])
    ++ opt_list (truthy category) (λ c, [category_eq c]) in
  let query_filter :=
    match conditions with
    | [single] => single
    | _ => And conditions
    end in
  let skip := (page - 1) * page_size in
  products ← to_list
    (FindMany_limit page_size (FindMany_skip skip (find [query_filter]))) db;
  total ← count (find [query_filter]) db;
  match_stage ← to_dict query_filter;
  category_facets ← aggregate_categories match_stage db;
  let facets :=
    VDict [("categories",
            VList ((λ f : string * Z,
                      VDict [("value", VStr f.1); ("count", VInt f.2)])
                   <$> category_facets))] in
  mret {| f_products := ProductResponse_from_document <$> products;
          f_total := total;
          f_facets := facets |}.

Definition faceted_search_except : list clause :=
  [ (E Exception, λ _, HTTPException 500 (Text "Faceted search failed")) ].

Definition faceted_search q category page page_size db :=
  try_except (faceted_search_try q category page page_size db)
    faceted_search_except.

(** The route handlers of this module as endpoints. *)
Definition list_products_basic_ep : endpoint :=
  Endpoint (Z * Z * Database) _
    (λ '(page, page_size, db), list_products_basic_try page page_size db)
    list_products_basic_except (λ _, []).

Definition filter_products_ep : endpoint :=
  Endpoint (ProductFilters * PaginationParams * SortField * SortOrder * Database) _
    (λ '(filters, pagination, sort_by, order, db),
       filter_products_try filters pagination sort_by order db)
    filter_products_except (λ _, []).

Definition search_products_ep : endpoint :=
  Endpoint (option string * option string * option Q * option Q * option bool
            * list string * string * string * Z * Z * Database) _
    (λ '(q, category, min_price, max_price, in_stock, tags, sort_by, order,
         page, page_size, db),
       search_products_try q category min_price max_price in_stock tags
         sort_by order page page_size db)
    search_products_except (λ _, []).

Definition list_products_cursor_ep : endpoint :=
  Endpoint (option string * Z * option string * Database) _
    (λ '(cursor, limit, category, db),
       list_products_cursor_try cursor limit category db)
    list_products_cursor_except (λ _, [list_products_cursor_id_except]).

Definition autocomplete_products_ep : endpoint :=
  Endpoint (string * Z * Database) _
    (λ '(q, limit, db), autocomplete_products_try q limit db)
    autocomplete_products_except (λ _, []).

Definition infinite_scroll_ep : endpoint :=
  Endpoint (option string * Z * Database) _
    (λ '(last_id, limit, db), infinite_scroll_try last_id limit db)
    infinite_scroll_except (λ _, [infinite_scroll_id_except]).

Definition faceted_search_ep : endpoint :=
  Endpoint (option string * option string * Z * Z * Database) _
    (λ '(q, category, page, page_size, db),
       faceted_search_try q category page page_size db)
    faceted_search_except (λ _, []).

Definition endpoints : list endpoint :=
  [ list_products_basic_ep; filter_products_ep; search_products_ep;
    list_products_cursor_ep; autocomplete_products_ep; infinite_scroll_ep;
    faceted_search_ep ].

End Handlers.

End Search.

(** ** try-except-block-best-practices/example.py *)

Module TryExcept.
Import Py.

Record Product : Set := {
  p_id : string;
  p_name : string;
  p_price : Q;
  p_stock : Z
}.

Record ProductResponse : Set := {
  r_id : string;
  r_name : string;
  r_price : Q;
  r_stock : Z;
  r_in_stock : bool
}.

Record OrderCreate : Set := {
  user_id : string;
  product_id : string;
  quantity : Z
}.

(** [not product_id or len(product_id) < 3] *)
Definition bad_product_id (product_id : string) : bool :=
  (if product_id is EmptyString then true else false)
  || (String.length product_id <? 3)%nat.

(** Pattern 1: [GET /api/products/{product_id}] *)
Definition get_product_by_id_try (product_id : string)
  : result ProductResponse :=
  raise_if (bad_product_id product_id)
    (HTTPException 400 (Text "Invalid product ID format"));;
  let product : option Product := None in
  product ← match product with
            | None =>
                Raise (HTTPException 404
                         (Text ("Product " +:+ product_id +:+ " not found")))
            | Some product => mret product
            end;
  mret {| r_id := p_id product;
          r_name := p_name product;
          r_price := p_price product;
          r_stock := p_stock product;
          r_in_stock := 0 <? p_stock product |}.

Definition get_product_by_id_except : list clause :=
  [ (E_HTTPException, reraise);
    (E Exception, λ _, HTTPException 500 (Text "Internal server error")) ].

Definition get_product_by_id (product_id : string) :=
  try_except (get_product_by_id_try product_id) get_product_by_id_except.

(** Pattern 2: [POST /api/orders]; first the clauses of the three [try]
    statements in its [try] block. *)
Definition create_order_user_except : list clause :=
  [ (E_HTTPException, reraise);
    (E Exception, λ _, HTTPException 500 (Text "User validation failed")) ].

Definition create_order_product_except : list clause :=
  [ (E_HTTPException, reraise);
    (E Exception, λ _, HTTPException 500 (Text "Product validation failed")) ].

Definition create_order_insert_except : list clause :=
  [ (E Exception, λ _, HTTPException 500 (Text "Failed to create order")) ].

Definition create_order_try (order_data : OrderCreate) : result value :=
  try_except
    (let user : option unit := None in
     raise_if (if user is None then true else false)
       (HTTPException 404 (Text "User not found")))
    create_order_user_except;;
  try_except
    (let product : option Product :=
       Some {| p_id := "1"; p_name := "Test"; p_price := 10; p_stock := 5 |} in
     product ← match product with
               | None => Raise (HTTPException 404 (Text "Product not found"))
               | Some product => mret product
               end;
     raise_if (p_stock product <? quantity order_data)
       (HTTPException 400
          (Text ("Insufficient stock. Available: "
                 +:+ pretty (p_stock product)))))
    create_order_product_except;;
  try_except
    (let order_id := "ORDER123" in
     mret (VDict [("order_id", VStr order_id);
                  ("status", VStr "created");
                  ("message", VStr "Order created successfully")]))
    create_order_insert_except.

Definition create_order_except : list clause :=
  [ (E_HTTPException, reraise);
    (E Exception, λ _, HTTPException 500 (Text "Internal server error")) ].

Definition create_order (order_data : OrderCreate) :=
  try_except (create_order_try order_data) create_order_except.

(** Pattern 3: custom exceptions for business logic *)
Definition get_product_or_fail (product_id : string) : result Product :=
  raise_if (bad_product_id product_id)
    (Error InvalidProductIDError ("Invalid product ID: " +:+ product_id));;
  let product : option Product := None in
  match product with
  | None =>
      Raise (Error ProductNotFoundError
               ("Product " +:+ product_id +:+ " not found"))
  | Some product => mret product
  end.

Definition get_product_details_try (product_id : string) : result Product :=
  product ← get_product_or_fail product_id;
  mret product.

Definition get_product_details_except : list clause :=
  [ (E InvalidProductIDError, λ e, HTTPException 400 (Text (str e)));
    (E ProductNotFoundError, λ e, HTTPException 404 (Text (str e)));
    (E Exception, λ _, HTTPException 500 (Text "Internal server error")) ].

Definition get_product_details (product_id : string) :=
  try_except (get_product_details_try product_id) get_product_details_except.

(** Pattern 4: [GET /api/weather/{city}].  The weather service answers a
    JSON body, an error status ([raise_for_status] raises), or the call
    fails otherwise. *)
Inductive weather_service : Set :=
| Json (body : value)
| ErrorStatus (response_status_code : Z) (msg : string)
| Unreachable (cls : exc_class) (msg : string).

Definition client_get (api : weather_service) : result value :=
  match api with
  | Json body => Return body
  | ErrorStatus sc msg => Raise (HTTPStatusError sc msg)
  | Unreachable c msg => Raise (Error c msg)
  end.

Definition get_weather_client_except (city : string) : list clause :=
  [ (E httpx_TimeoutException,
     λ _, HTTPException 504
            (Text "Weather service is taking too long to respond"));
    (E httpx_HTTPStatusError,
     λ e, match e with
          | HTTPStatusError 404 _ =>
              HTTPException 404 (Text ("Weather data not found for " +:+ city))
          | _ => HTTPException 502 (Text "Weather service error")
          end);
    (E httpx_NetworkError,
     λ _, HTTPException 503 (Text "Weather service temporarily unavailable")) ].

Definition get_weather_try (city : string) (api : weather_service)
  : result value :=
  try_except (client_get api) (get_weather_client_except city).

Definition get_weather_except : list clause :=
  [ (E_HTTPException, reraise);
    (E Exception, λ _, HTTPException 500 (Text "Internal server error")) ].

Definition get_weather (city : string) (api : weather_service) :=
  try_except (get_weather_try city api) get_weather_except.

(** Pattern 5: [POST /api/upload].  The uploaded file, and what reading it,
    creating the directory and writing the file answer. *)
Record UploadFile : Set := {
  filename : option string;
  read : outcome string;
  mkdir : outcome unit;
  write : outcome unit
}.

(** [str(Path(s))] for a relative path, with the slash as separator:
    the parts between slashes, without the empty ones and without ["."],
    joined by single slashes. *)
Fixpoint split (sep : ascii) (s : string) : list string :=
  match s with
  | EmptyString => [EmptyString]
  | String c s' =>
      if Ascii.eqb c sep then EmptyString :: split sep s'
      else match split sep s' with
           | part :: parts => String c part :: parts
           | [] => [String c EmptyString]
           end
  end.

Definition str_Path (s : string) : string :=
  String.concat "/"
    (filter (λ part, part ≠ EmptyString ∧ part ≠ ".") (split "/" s)).

Definition upload_file_write_except : list clause :=
  [ (E PermissionError,
     λ _, HTTPException 500
            (Text "File save failed - insufficient permissions"));
    (E OSError, λ _, HTTPException 500 (Text "File save failed")) ].

Definition upload_file_try (file : UploadFile) : result value :=
  name ← match truthy (filename file) with
         | None => Raise (HTTPException 400 (Text "No file provided"))
         | Some name => mret name
         end;
  let max_size := 10000000 in
  content ← await (read file);
  raise_if (max_size <? Z.of_nat (String.length content))
    (HTTPException 400
       (Text ("File too large. Max size: " +:+ pretty max_size +:+ " bytes")));;
  let file_path := str_Path ("uploads/" +:+ name) in
  await (mkdir file);;
  try_except (await (write file)) upload_file_write_except;;
  mret (VDict [("filename", VStr name);
               ("size", VInt (Z.of_nat (String.length content)));
               ("path", VStr file_path)]).

Definition upload_file_except : list clause :=
  [ (E_HTTPException, reraise);
    (E Exception, λ _, HTTPException 500 (Text "Internal server error")) ].

Definition upload_file (file : UploadFile) :=
  try_except (upload_file_try file) upload_file_except.

(** Pattern 6: [POST /api/products].  The dictionary is taken with its
    three fields present and of the declared types. *)
Record ProductCreate : Set := {
  c_name : string;
  c_price : Q;
  c_stock : Z
}.

Definition ProductCreate_init (name : string) (price : Q) (stock : Z)
  : result ProductCreate :=
  if (1 <=? String.length name)%nat && (String.length name <=? 100)%nat
     && Qlt_bool 0 price && (0 <=? stock)
  then Return {| c_name := name; c_price := price; c_stock := stock |}
  else Raise (Error ValidationError "validation error for ProductCreate").

Definition create_product_validation_except : list clause :=
  [ (E ValidationError, λ e, HTTPException 400 (ErrorList (str e))) ].

Definition create_product_try (data : ProductCreate) : result value :=
  product_data ←
    try_except
      (ProductCreate_init (c_name data) (c_price data) (c_stock data))
      create_product_validation_except;
  raise_if (Qlt_bool (c_price product_data) (1 # 100))
    (HTTPException 400 (Text "Price must be at least $0.01"));;
  mret (VDict [("id", VStr "PROD123");
               ("name", VStr (c_name product_data));
               ("price", VFloat (c_price product_data));
               ("stock", VInt (c_stock product_data))]).

Definition create_product_except : list clause :=
  [ (E_HTTPException, reraise);
    (E Exception, λ _, HTTPException 500 (Text "Internal server error")) ].

Definition create_product (data : ProductCreate) :=
  try_except (create_product_try data) create_product_except.

(** The route handlers of this module as endpoints. *)
Definition get_product_by_id_ep : endpoint :=
  Endpoint _ _ get_product_by_id_try get_product_by_id_except (λ _, []).
Definition create_order_ep : endpoint :=
  Endpoint _ _ create_order_try create_order_except
    (λ _, [ create_order_user_except; create_order_product_except;
            create_order_insert_except ]).
Definition get_product_details_ep : endpoint :=
  Endpoint _ _ get_product_details_try get_product_details_except (λ _, []).
Definition get_weather_ep : endpoint :=
  Endpoint (string * weather_service) _
    (λ '(city, api), get_weather_try city api) get_weather_except
    (λ '(city, api), [get_weather_client_except city]).
Definition upload_file_ep : endpoint :=
  Endpoint _ _ upload_file_try upload_file_except
    (λ _, [upload_file_write_except]).
Definition create_product_ep : endpoint :=
  Endpoint _ _ create_product_try create_product_except
    (λ _, [create_product_validation_except]).

Definition endpoints : list endpoint :=
  [ get_product_by_id_ep; create_order_ep; get_product_details_ep;
    get_weather_ep; upload_file_ep; create_product_ep ].

End TryExcept.

(** ** error-handling/error_handlers.py *)

Module ErrorHandlers.
Import Py.

(** Pattern 1: [POST /examples/users] *)
Definition create_user_try (email password : string) : result value :=
  raise_if (negb (contains email "@"))
    (HTTPException 400 (Text "Invalid email format"));;
  raise_if (String.length password <? 8)%nat
    (HTTPException 400 (Text "Password must be at least 8 characters"));;
  mret (VDict [("email", VStr email); ("status", VStr "created")]).

Definition create_user_except : list clause :=
  [ (E_HTTPException, reraise);
    (E Exception,
     λ _, HTTPException 500 (Text "An error occurred while creating the user")) ].

Definition create_user (email password : string) :=
  try_except (create_user_try email password) create_user_except.

(** Pattern 2: [GET /examples/products/{product_id}] *)
Definition get_product_try (product_id : Z) : result value :=
  raise_if (product_id =? 999)
    (Error ConnectionError "Database connection timeout");;
  mret (VDict [("id", VInt product_id);
               ("name", VStr ("Product " +:+ pretty product_id))]).

Definition get_product_except : list clause :=
  [ (E ConnectionError,
     λ _, HTTPException 503
            (Text "Service temporarily unavailable. Please try again later."));
    (E Exception,
     λ _, HTTPException 500
            (Text "An error occurred while retrieving the product")) ].

Definition get_product (product_id : Z) :=
  try_except (get_product_try product_id) get_product_except.

(** Pattern 3: [GET /examples/orders/{order_id}] *)
Definition get_order_try (order_id : Z) : result value :=
  let order_exists := negb (order_id =? 404) in
  raise_if (negb order_exists)
    (HTTPException 404 (Text ("Order " +:+ pretty order_id +:+ " not found")));;
  mret (VDict [("id", VInt order_id); ("status", VStr "delivered")]).

Definition get_order_except : list clause :=
  [ (E_HTTPException, reraise);
    (E Exception,
     λ _, HTTPException 500
            (Text "An error occurred while retrieving the order")) ].

Definition get_order (order_id : Z) :=
  try_except (get_order_try order_id) get_order_except.

(** Pattern 4: [POST /examples/payments] *)
Definition process_payment_try (amount : Q) (card_number : string)
  : result value :=
  raise_if (Qlt_bool 10000 amount)
    (Error ValueError "Payment gateway rejected transaction");;
  mret (VDict [("status", VStr "success"); ("amount", VFloat amount)]).

Definition process_payment_except : list clause :=
  [ (E ValueError,
     λ _, HTTPException 402
            (Text "Payment could not be processed. Please try a different card."));
    (E Exception,
     λ _, HTTPException 500
            (Text "Payment processing failed. Please try again later.")) ].

Definition process_payment (amount : Q) (card_number : string) :=
  try_except (process_payment_try amount card_number) process_payment_except.

(** Anti-pattern: [POST /examples/bad-example] *)
Definition bad_error_handling_try (data : value) : result value :=
  result ← truediv 1 0;
  mret (VFloat result).

Definition bad_error_handling_except : list clause :=
  [ (E Exception, λ e, HTTPException 500 (Text ("Error: " +:+ str e))) ].


(** Best practice: [POST /examples/best-practice] *)
Definition good_error_handling_try (data : value) : result value :=
  let result := VDict [("status", VStr "success")] in
  mret result.

Definition good_error_handling_except : list clause :=
  [ (E ValueError, λ _, HTTPException 400 (Text "Invalid data provided"));
    (E ConnectionError,
     λ _, HTTPException 503 (Text "Service temporarily unavailable"));
    (E Exception,
     λ _, HTTPException 500 (Text "An error occurred processing your request")) ].

Definition good_error_handling (data : value) :=
  try_except (good_error_handling_try data) good_error_handling_except.

(** The route handlers of this module that have a [try] statement. *)
Definition create_user_ep : endpoint :=
  Endpoint (string * string) _
    (λ '(email, password), create_user_try email password) create_user_except
    (λ _, []).
Definition get_product_ep : endpoint :=
  Endpoint _ _ get_product_try get_product_except (λ _, []).
Definition get_order_ep : endpoint :=
  Endpoint _ _ get_order_try get_order_except (λ _, []).
Definition process_payment_ep : endpoint :=
  Endpoint (Q * string) _
    (λ '(amount, card_number), process_payment_try amount card_number)
    process_payment_except (λ _, []).
Definition bad_error_handling_ep : endpoint :=
  Endpoint _ _ bad_error_handling_try bad_error_handling_except (λ _, []).
Definition good_error_handling_ep : endpoint :=
  Endpoint _ _ good_error_handling_try good_error_handling_except (λ _, []).

Definition endpoints : list endpoint :=
  [ create_user_ep; get_product_ep; get_order_ep; process_payment_ep;
    bad_error_handling_ep; good_error_handling_ep ].

End ErrorHandlers.

(** ** error-handling/example_integration.py *)

Module ErrorIntegration.
Import Py.

(** [POST /users/] *)
Definition create_user_try (email password : string) (age : Z)
  : result value :=
  raise_if (negb (contains email "@"))
    (HTTPException 400 (Text "Invalid email format"));;
  raise_if (String.length password <? 8)%nat
    (HTTPException 400 (Text "Password must be at least 8 characters"));;
  raise_if (age <? 18)
    (HTTPException 400 (Text "Must be 18 or older to register"));;
  let user_id := 123 in
  mret (VDict [("id", VInt user_id); ("email", VStr email);
               ("message", VStr "User created successfully")]).

Definition create_user_except : list clause :=
  [ (E_HTTPException, reraise);
    (E Exception,
     λ _, HTTPException 500 (Text "An error occurred while creating the user")) ].

Definition create_user (email password : string) (age : Z) :=
  try_except (create_user_try email password age) create_user_except.

(** [GET /users/{user_id}] *)
Definition get_user_try (user_id : Z) : result value :=
  let user_exists := negb (user_id =? 999) in
  raise_if (negb user_exists)
    (HTTPException 404 (Text ("User " +:+ pretty user_id +:+ " not found")));;
  mret (VDict [("id", VInt user_id);
               ("email", VStr ("user" +:+ pretty user_id +:+ "@example.com"))]).

Definition get_user_except : list clause :=
  [ (E_HTTPException, reraise);
    (E Exception, λ _, HTTPException 500 (Text "Failed to retrieve user")) ].

Definition get_user (user_id : Z) :=
  try_except (get_user_try user_id) get_user_except.

(** [GET /products/{product_id}] *)
Definition get_product_try (product_id : Z) : result value :=
  raise_if (product_id =? 500)
    (Error ConnectionError "Database connection timeout");;
  mret (VDict [("id", VInt product_id);
               ("name", VStr ("Product " +:+ pretty product_id));
               ("price", VFloat (9999 # 100))]).

Definition get_product_except : list clause :=
  [ (E ConnectionError,
     λ _, HTTPException 503
            (Text "Service temporarily unavailable. Please try again later."));
    (E_HTTPException, reraise);
    (E Exception,
     λ _, HTTPException 500
            (Text "An error occurred while retrieving the product")) ].

Definition get_product (product_id : Z) :=
  try_except (get_product_try product_id) get_product_except.

(** [POST /payments/] *)
Definition process_payment_try (amount : Q) (card_last4 : string)
  : result value :=
  raise_if (Qlt_bool 10000 amount)
    (Error ValueError "Payment gateway rejected: amount too large");;
  raise_if (Qeq_bool amount 404)
    (Error TimeoutError "Payment gateway timeout");;
  mret (VDict [("status", VStr "success"); ("amount", VFloat amount);
               ("transaction_id", VStr "txn_123456")]).

Definition process_payment_except : list clause :=
  [ (E ValueError,
     λ _, HTTPException 402
            (Text "Payment could not be processed. Please try a different card."));
    (E TimeoutError,
     λ _, HTTPException 504
            (Text "Payment processor is not responding. Please try again."));
    (E_HTTPException, reraise);
    (E Exception, λ _, HTTPException 500 (Text "Payment processing failed")) ].

Definition process_payment (amount : Q) (card_last4 : string) :=
  try_except (process_payment_try amount card_last4) process_payment_except.

(** [POST /orders/] *)
Definition create_order_try (user_id product_id quantity : Z) : result value :=
  let stock := 10 in
  raise_if (stock <? quantity)
    (HTTPException 409 (Text ("Only " +:+ pretty stock +:+ " items available")));;
  let user_exists := negb (user_id =? 999) in
  raise_if (negb user_exists) (HTTPException 404 (Text "User not found"));;
  let order_id := 456 in
  mret (VDict [("order_id", VInt order_id); ("status", VStr "confirmed");
               ("total", VFloat (inject_Z quantity * (9999 # 100)))]).

Definition create_order_except : list clause :=
  [ (E_HTTPException, reraise);
    (E Exception, λ _, HTTPException 500 (Text "Failed to create order")) ].

Definition create_order (user_id product_id quantity : Z) :=
  try_except (create_order_try user_id product_id quantity) create_order_except.

Definition create_user_ep : endpoint :=
  Endpoint (string * string * Z) _
    (λ '(email, password, age), create_user_try email password age)
    create_user_except (λ _, []).
Definition get_user_ep : endpoint :=
  Endpoint _ _ get_user_try get_user_except (λ _, []).
Definition get_product_ep : endpoint :=
  Endpoint _ _ get_product_try get_product_except (λ _, []).
Definition process_payment_ep : endpoint :=
  Endpoint (Q * string) _
    (λ '(amount, card_last4), process_payment_try amount card_last4)
    process_payment_except (λ _, []).
Definition create_order_ep : endpoint :=
  Endpoint (Z * Z * Z) _
    (λ '(user_id, product_id, quantity),
       create_order_try user_id product_id quantity)
    create_order_except (λ _, []).

Definition endpoints : list endpoint :=
  [ create_user_ep; get_user_ep; get_product_ep; process_payment_ep;
    create_order_ep ].

End ErrorIntegration.

(** ** logger/example.py and logger/example_integration.py *)

Module Logger.
Import Py.

(** [GET /example/process/{item_id}] *)
Definition process_item_try (item_id : Z) : result value :=
  raise_if (item_id <? 0) (Error ValueError "Item ID must be positive");;
  mret (VDict [("item_id", VInt item_id); ("status", VStr "processed");
               ("message", VStr "Check logs to see the processing flow")]).

Definition process_item_except : list clause :=
  [ (E ValueError, λ e, HTTPException 400 (Text (str e)));
    (E Exception, λ _, HTTPException 500 (Text "Internal server error")) ].

Definition process_item (item_id : Z) :=
  try_except (process_item_try item_id) process_item_except.

(** [GET /api/items/{item_id}] *)
Definition get_item_try (item_id : Z) : result value :=
  raise_if (item_id <? 0) (Error ValueError "Item ID must be positive");;
  mret (VDict [("item_id", VInt item_id); ("status", VStr "found")]).

Definition get_item_except : list clause :=
  [ (E ValueError, λ e, HTTPException 400 (Text (str e)));
    (E Exception, λ _, HTTPException 500 (Text "Internal server error")) ].

Definition get_item (item_id : Z) :=
  try_except (get_item_try item_id) get_item_except.

(** [POST /api/process] *)
Definition process_data_try (data : value) : result value :=
  let result := VDict [("processed", VBool true); ("data", data)] in
  mret result.

Definition process_data_except : list clause :=
  [ (E Exception, λ _, HTTPException 500 (Text "Processing failed")) ].

Definition process_data (data : value) :=
  try_except (process_data_try data) process_data_except.

Definition process_item_ep : endpoint :=
  Endpoint _ _ process_item_try process_item_except (λ _, []).
Definition get_item_ep : endpoint :=
  Endpoint _ _ get_item_try get_item_except (λ _, []).
Definition process_data_ep : endpoint :=
  Endpoint _ _ process_data_try process_data_except (λ _, []).

Definition endpoints : list endpoint :=
  [ process_item_ep; get_item_ep; process_data_ep ].

End Logger.

(** ** path-query-body-best-practices/example.py (pagination parameters) *)

Module PathQueryBody.
Import Py.

Record PaginationParams : Set := {
  page : Z;
  limit : Z
}.

(** Construction validates [page >= 1] and [1 <= limit <= 100]. *)
Definition PaginationParams_init (page limit : Z) : result PaginationParams :=
  if (1 <=? page) && (1 <=? limit) && (limit <=? 100)
  then Return {| page := page; limit := limit |}
  else Raise (Error ValidationError "validation error for PaginationParams").

Definition get_skip (self : PaginationParams) : Z :=
  (page self - 1) * limit self.

Definition pagination_params (page limit : Z) : result PaginationParams :=
  PaginationParams_init page limit.

(** [GET /api/items/paginated] *)
Definition list_items_paginated (pagination : PaginationParams) : value :=
  VDict [("page", VInt (page pagination));
         ("limit", VInt (limit pagination));
         ("skip", VInt (get_skip pagination));
         ("items", VList [])].

End PathQueryBody.

(** ** computed-field-best-practices/example.py *)

Module ComputedField.
Import Py.

(** [round(x, 2)] on exact rationals: the nearest hundredth, ties to even. *)
Definition round_half_even (x : Q) : Z :=
  let f := Qfloor x in
  match (x - inject_Z f ?= 1 # 2)%Q with
  | Lt => f
  | Gt => f + 1
  | Eq => if Z.even f then f else f + 1
  end.

Definition round2 (x : Q) : Q :=
  (inject_Z (round_half_even (x * 100)) / 100)%Q.

(** [str.strip] and [str.title] are the interpreter's. *)
Class StrMethods : Type := {
  strip : string → string;
  title : string → string
}.

Record Product : Set := {
  name : string;
  category : string;
  price : Q;
  quantity : Z;
  cost : Q;
  low_stock_threshold : Z;
  last_updated : Z
}.

(** The declared bounds of the stored fields. *)
Definition field_bounds (name category : string) (price : Q) (quantity : Z)
    (cost : Q) (low_stock_threshold : Z) : bool :=
  (1 <=? String.length name)%nat && (String.length name <=? 150)%nat
  && (1 <=? String.length category)%nat && (String.length category <=? 150)%nat
  && Qlt_bool 0 price && (0 <=? quantity) && Qlt_bool 0 cost
  && (0 <=? low_stock_threshold).

Definition normalize_text `{StrMethods} (v : string) : string := title (strip v).

Definition round_money (v : Q) : Q := round2 v.

Definition update_timestamp (now : Z) (self : Product) : Product :=
  {| name := name self; category := category self; price := price self;
     quantity := quantity self; cost := cost self;
     low_stock_threshold := low_stock_threshold self; last_updated := now |}.

(** The message of the source also prints the two amounts. *)
Definition validate_profit_margin (self : Product) : result Product :=
  raise_if (Qlt_bool (price self) (cost self))
    (Error ValueError "Price cannot be less than cost");;
  mret self.

(** [Product(...)] at time [now]: the field bounds, the field validators,
    then the model validators in the order they are declared.  A
    [ValueError] of a validator surfaces as a [ValidationError]. *)
Definition Product_init `{StrMethods} (name category : string) (price : Q)
    (quantity : Z) (cost : Q) (low_stock_threshold : Z) (now : Z)
  : result Product :=
  if field_bounds name category price quantity cost low_stock_threshold then
    let self :=
      {| name := normalize_text name; category := normalize_text category;
         price := round_money price; quantity := quantity;
         cost := round_money cost;
         low_stock_threshold := low_stock_threshold; last_updated := now |} in
    try_except (validate_profit_margin (update_timestamp now self))
      [ (E ValueError, λ e, Error ValidationError (str e)) ]
  else Raise (Error ValidationError "validation error for Product").

(** Computed fields *)
Definition in_stock (self : Product) : bool := 0 <? quantity self.

Definition stock_status (self : Product) : string :=
  if quantity self =? 0 then "out_of_stock"
  else if quantity self <=? low_stock_threshold self then "low_stock"
  else "in_stock".

Definition total_value (self : Product) : Q :=
  round2 (cost self * inject_Z (quantity self)).

Definition profit_margin (self : Product) : Q :=
  if Qeq_bool (price self) 0 then 0
  else round2 ((price self - cost self) / price self * 100).

Definition needs_restock (self : Product) : bool :=
  quantity self <? low_stock_threshold self.

Record StockAdjustment : Set := {
  adjustment : Z;
  reason : option string
}.

(** *** The collection

    MongoDB keeps the stored fields of each product under its [_id]; the
    model keys them by the bytes of the id, and an object of the class is
    its id with its fields.  Times are counted in microseconds, of which
    the store keeps the milliseconds; the integers of a stored document
    have eight bytes. *)
Definition collection : Type := gmap Bson.bytes Product.

Definition document : Type := Bson.bytes * Product.

Definition stored_time (t : Z) : Z := t / 1000 * 1000.

Definition int64 (n : Z) : bool := (- 2 ^ 63 <=? n) && (n <? 2 ^ 63).

(** What the driver writes for the fields of a product; it refuses an
    integer that does not fit eight bytes. *)
Definition to_db (self : Product) : result Product :=
  if int64 (quantity self) && int64 (low_stock_threshold self) then
    Return {| name := name self; category := category self;
              price := price self; quantity := quantity self;
              cost := cost self;
              low_stock_threshold := low_stock_threshold self;
              last_updated := stored_time (last_updated self) |}
  else Raise (Error OverflowError "MongoDB can only handle up to 8-byte ints").

(** What beanie makes of stored fields that it reads at time [now]: the
    validation of the model, with its field and model validators, so that
    [last_updated] becomes [now]. *)
Definition parse_obj `{StrMethods} (fields : Product) (now : Z)
  : result Product :=
  Product_init (name fields) (category fields) (price fields)
    (quantity fields) (cost fields) (low_stock_threshold fields) now.

(** Code that runs against the collection: it is given the collection,
    and gives back its result and the collection after it. *)
Definition M (A : Type) : Type := collection → result A * collection.

#[global] Instance M_ret : MRet M := λ A a db, (Return a, db).
#[global] Instance M_bind : MBind M := λ A B k m db,
  match m db with
  | (Return a, db') => k a db'
  | (Raise e, db') => (Raise e, db')
  end.

Definition raise {A} (e : exn) : M A := λ db, (Raise e, db).
Definition lift {A} (r : result A) : M A := λ db, (r, db).
Definition raise_when (cond : bool) (e : exn) : M unit :=
  if cond then raise e else mret tt.

Section Handlers.
Context `{StrMethods}.

(** [await Product.get(document_id)] at time [now]: the id is validated
    as a [PydanticObjectId], which takes what [ObjectId] takes, and the
    document that is found is validated. *)
Definition Product_get (document_id : string) (now : Z)
  : M (option document) := λ db,
  (match Bson.ObjectId_of_str document_id with
   | Raise _ =>
       Raise (Error ValidationError "Id must be of type PydanticObjectId")
   | Return oid =>
       match db !! oid with
       | None => mret None
       | Some fields =>
           product ← parse_obj fields now; mret (Some (oid, product))
       end
   end, db).

(** [await product.save()]: the fields are written under the id of the
    object; the document that the database then holds is read at time
    [later], validated as every document that is read, and the object
    takes over its fields. *)
Definition save (product : document) (later : Z) : M document := λ db,
  match to_db product.2 with
  | Raise e => (Raise e, db)
  | Return fields =>
      (product' ← parse_obj fields later; mret (product.1, product'),
       <[product.1 := fields]> db)
  end.

(** [await product.insert()]: the fields are written under a new id,
    which the driver makes and which no stored document has. *)
Definition insert (new_id : Bson.bytes) (product : Product) : M document :=
  λ db,
  match to_db product with
  | Raise e => (Raise e, db)
  | Return fields => (Return (new_id, product), <[new_id := fields]> db)
  end.

(** [await product.delete()] *)
Definition delete (product : document) : M unit := λ db,
  (Return tt, base.delete product.1 db).

(** [product.quantity = new_quantity]; an assignment is not validated. *)
Definition set_quantity (product : Product) (new_quantity : Z) : Product :=
  {| name := name product; category := category product;
     price := price product; quantity := new_quantity; cost := cost product;
     low_stock_threshold := low_stock_threshold product;
     last_updated := last_updated product |}.

(** [GET /products/{product_id}]; here and below a handler gives what the
    function returns, before FastAPI makes the response of it. *)
Definition get_product (product_id : string) (now : Z) : M document :=
  product ← Product_get product_id now;
  match product with
  | None => raise (HTTPException 404 (Text "Product not found"))
  | Some product => mret product
  end.

(** [DELETE /products/{product_id}] *)
Definition delete_product (product_id : string) (now : Z) : M unit :=
  product ← Product_get product_id now;
  match product with
  | None => raise (HTTPException 404 (Text "Product not found"))
  | Some product => delete product
  end.

(** [POST /products/{product_id}/adjust-stock]; [now] and [later] are the
    times at which the product is read and read again after it is
    saved. *)
Definition adjust_stock (product_id : string) (adj : StockAdjustment)
    (now later : Z) : M document :=
  product ← Product_get product_id now;
  product ← match product with
            | None => raise (HTTPException 404 (Text "Product not found"))
            | Some product => mret product
            end;
  let new_quantity := quantity product.2 + adjustment adj in
  raise_when (new_quantity <? 0)
    (HTTPException 400
       (Text ("Cannot remove " +:+ pretty (Z.abs (adjustment adj))
              +:+ " items. Only " +:+ pretty (quantity product.2)
              +:+ " in stock.")));;
  let product := (product.1, set_quantity product.2 new_quantity) in
  save product later.

End Handlers.

End ComputedField.

(** ** fastapi-schemas-best-practices/example.py (cross-field validators) *)

Module Schemas.
Import Py.

(** Character classes; strings are taken to be ASCII. *)
Definition isupper (c : ascii) : bool :=
  let n := nat_of_ascii c in ((65 <=? n) && (n <=? 90))%nat.
Definition islower (c : ascii) : bool :=
  let n := nat_of_ascii c in ((97 <=? n) && (n <=? 122))%nat.
Definition isdigit (c : ascii) : bool :=
  let n := nat_of_ascii c in ((48 <=? n) && (n <=? 57))%nat.


(** [Field(..., min_length=lo, max_length=hi)] on a string. *)
Definition check_length (lo hi : nat) (v : string) : result string :=
  if ((lo <=? String.length v) && (String.length v <=? hi))%nat then Return v
  else Raise (Error ValidationError "string length out of bounds").

(** A validator's [ValueError] surfaces as a [ValidationError]. *)
Definition validated {A} (m : result A) : result A :=
  try_except m [ (E ValueError, λ e, Error ValidationError (str e)) ].












(** [Field(..., gt=0)] on a float. *)
Definition check_gt0 (v : Q) : result Q :=
  if Qlt_bool 0 v then Return v
  else Raise (Error ValidationError "input should be greater than 0").





(** *** [PaymentCreate] *)

(** A field that may be [None]: the checks apply to a value only. *)
Definition optional {A} (check : A → result A) (v : option A)
  : result (option A) :=
  match v with
  | Some x => x' ← check x; mret (Some x')
  | None => mret None
  end.














(** *** [PaginatedResponse] of this module and [GET /products] *)
Record PaginatedResponse (T : Type) : Type := {
  total : Z;
  page : Z;
  page_size : Z;
  total_pages : Z;
  items : list T
}.
Arguments total {T} _.
Arguments page {T} _.
Arguments page_size {T} _.
Arguments total_pages {T} _.
Arguments items {T} _.

Definition PaginatedResponse_init {T} (total page page_size total_pages : Z)
    (items : list T) : result (PaginatedResponse T) :=
  if (1 <=? page) && (1 <=? page_size) && (page_size <=? 100)
     && (1 <=? total_pages)
  then Return {| total := total; page := page; page_size := page_size;
                 total_pages := total_pages; items := items |}
  else Raise (Error ValidationError "validation error for PaginatedResponse").

Definition list_products (page page_size : Z)
  : result (PaginatedResponse value) :=
  let products : list value := [] in
  PaginatedResponse_init 0 page page_size 0 products.

End Schemas.

(** ** header-cookie-depends-best-practices/example.py *)

Module HeaderCookie.
Import Py.

Definition SECRET_KEY : string := "your-secret-key-change-in-production".
Definition ALGORITHM : string := "HS256".
Definition ACCESS_TOKEN_EXPIRE_MINUTES : Z := 30.

Inductive UserRole : Set := admin | moderator | user.

#[global] Instance UserRole_eq_dec : EqDecision UserRole.
Proof. solve_decision. Defined.

Definition UserRole_value (r : UserRole) : string :=
  match r with
  | admin => "admin"
  | moderator => "moderator"
  | user => "user"
  end.

Record User : Set := {
  id : string;
  username : string;
  email : string;
  role : UserRole;
  is_active : bool
}.

(** A dictionary of [MOCK_USERS]. *)
Record UserData : Set := {
  ud_id : string;
  ud_username : string;
  ud_email : string;
  ud_password : string;
  ud_role : UserRole;
  ud_is_active : bool
}.

Record LoginRequest : Set := {
  lr_username : string;
  lr_password : string
}.

Record TokenResponse : Set := {
  access_token : string;
  token_type : string;
  expires_in : Z
}.

Record Settings : Set := {
  app_name : string;
  environment : string;
  debug : bool;
  api_version : string
}.

(** [Settings()] *)
Definition Settings_init : Settings :=
  {| app_name := "FastAPI Boilerplate"; environment := "production";
     debug := false; api_version := "1.0.0" |}.

(** The claims of a token; times are counted in seconds. *)
Record Payload : Set := {
  user_id : option string;
  exp : Z;
  iat : Z
}.

(** What the libraries and the interpreter decide: the JWT codec (payload
    or token, key, algorithms), [str.lower], [str.replace], the printed
    timestamp of a time, and the e-mail check of [EmailStr]. *)
Class Runtime : Type := {
  jwt_encode : Payload → string → string → string;
  jwt_decode : string → string → list string → outcome Payload;
  lower : string → string;
  replace : string → string → string → string;
  timestamp : Z → string;
  is_email : string → bool
}.

(** *** Module-level data

    [MOCK_USERS] is a dictionary in insertion order; [get_settings_cache]
    is the cache that [@lru_cache()] attaches to [get_settings]. *)
Record Globals : Type := {
  MOCK_USERS : list (string * UserData);
  MOCK_SESSIONS : gmap string string;
  VALID_API_KEYS : gset string;
  get_settings_cache : option Settings
}.

(** The module as it is after import. *)
Definition initial : Globals :=
  {| MOCK_USERS :=
       [ ("john_doe",
          {| ud_id := "user-123"; ud_username := "john_doe";
             ud_email := "john@example.com";
             ud_password := "hashed_password_here";
             ud_role := admin; ud_is_active := true |});
         ("jane_smith",
          {| ud_id := "user-456"; ud_username := "jane_smith";
             ud_email := "jane@example.com";
             ud_password := "hashed_password_here";
             ud_role := user; ud_is_active := true |}) ];
     MOCK_SESSIONS := ∅;
     VALID_API_KEYS := {[ "sk_live_1234567890"; "sk_test_0987654321" ]};
     get_settings_cache := None |}.

(** Code that runs against the module-level data: it is given the data,
    and gives back its result and the data after it. *)
Definition M (A : Type) : Type := Globals → result A * Globals.

#[global] Instance M_ret : MRet M := λ A a g, (Return a, g).
#[global] Instance M_bind : MBind M := λ A B k m g,
  match m g with
  | (Return a, g') => k a g'
  | (Raise e, g') => (Raise e, g')
  end.

Definition raise {A} (e : exn) : M A := λ g, (Raise e, g).
Definition lift {A} (r : result A) : M A := λ g, (r, g).
(** Reading a module-level name. *)
Definition load {A} (name : Globals → A) : M A := λ g, (Return (name g), g).
Definition raise_when (cond : bool) (e : exn) : M unit :=
  if cond then raise e else mret tt.

(** [d.get(key)] *)
Fixpoint dict_get {V} (key : string) (d : list (string * V)) : option V :=
  match d with
  | [] => None
  | (k, v) :: rest => if bool_decide (k = key) then Some v else dict_get key rest
  end.

(** What a handler asks of the [Response]. *)
Inductive cookie : Set :=
| set_cookie (key value : string) (max_age : Z) (httponly secure : bool)
    (samesite : string)
| delete_cookie (key : string).

Definition opt_str (o : option string) : value :=
  match o with Some s => VStr s | None => VNone end.

Definition User_value (u : User) : value :=
  VDict [("id", VStr (id u)); ("username", VStr (username u));
         ("email", VStr (email u)); ("role", VStr (UserRole_value (role u)));
         ("is_active", VBool (is_active u))].

Section Handlers.
Context `{Runtime}.

(** *** Pattern 1: headers *)
Definition read_user_agent (user_agent : string) : M value :=
  mret (VDict [("user_agent", VStr user_agent);
               ("is_mobile", VBool (contains user_agent "Mobile"));
               ("is_bot", VBool (contains (lower user_agent) "bot"))]).

Definition read_optional_headers (user_agent referer x_request_id : option string)
  : M value :=
  mret (VDict [("user_agent", VStr (default "Unknown" (truthy user_agent)));
               ("referer", opt_str referer);
               ("request_id", opt_str x_request_id)]).

(** The route [GET /api/headers/api-key]; the name [verify_api_key] is
    bound again further down, to the dependency. *)
Definition verify_api_key_route (x_api_key : string) : M value :=
  keys ← load VALID_API_KEYS;
  raise_when (bool_decide (x_api_key ∉ keys))
    (HTTPException 403 (Text "Invalid API key"));;
  mret (VDict [("message", VStr "API key valid");
               ("key", VStr (String.substring 0 10 x_api_key +:+ "..."))]).

Definition custom_header_name (tenant_id : string) : M value :=
  mret (VDict [("tenant_id", VStr tenant_id)]).

(** *** Pattern 2: cookies *)
Definition get_theme (theme : string) : M value :=
  mret (VDict [("theme", VStr theme);
               ("is_dark_mode", VBool (bool_decide (theme = "dark")))]).

Definition set_theme (theme : string) : M (value * list cookie) :=
  mret (VDict [("message", VStr ("Theme set to " +:+ theme))],
        [set_cookie "theme" theme 31536000 false false "lax"]).

Definition get_preferences (theme language timezone : string) : M value :=
  mret (VDict [("theme", VStr theme); ("language", VStr language);
               ("timezone", VStr timezone)]).

Definition get_cart (cart_id : option string) (now : Z) : M value :=
  let cart_id :=
    match truthy cart_id with
    | Some cart_id => cart_id
    | None => "cart-" +:+ timestamp now
    end in
  mret (VDict [("cart_id", VStr cart_id); ("items", VList [])]).

(** *** Pattern 3: authentication *)
Definition create_access_token (user_id : string) (now : Z) : string :=
  let expires_delta := ACCESS_TOKEN_EXPIRE_MINUTES * 60 in
  let expire := now + expires_delta in
  let payload := {| user_id := Some user_id; exp := expire; iat := now |} in
  jwt_encode payload SECRET_KEY ALGORITHM.

Definition login (credentials : LoginRequest) (now : Z)
  : M (TokenResponse * list cookie) :=
  users ← load MOCK_USERS;
  user_data ←
    match dict_get (lr_username credentials) users with
    | Some user_data =>
        if bool_decide (ud_password user_data ≠ lr_password credentials)
        then raise (HTTPException 401 (Text "Incorrect username or password"))
        else mret user_data
    | None => raise (HTTPException 401 (Text "Incorrect username or password"))
    end;
  raise_when (negb (ud_is_active user_data))
    (HTTPException 403 (Text "Account is inactive"));;
  let access_token := create_access_token (ud_id user_data) now in
  mret ({| access_token := access_token; token_type := "bearer";
           expires_in := ACCESS_TOKEN_EXPIRE_MINUTES * 60 |},
        [set_cookie "access_token" access_token
           (ACCESS_TOKEN_EXPIRE_MINUTES * 60) true true "lax"]).

Definition logout : M (value * list cookie) :=
  mret (VDict [("message", VStr "Logged out successfully")],
        [delete_cookie "access_token"]).

(** *** Pattern 4: dependencies *)
Definition get_token (authorization access_token : option string) : M string :=
  token ←
    match truthy authorization with
    | Some authorization =>
        raise_when (negb (String.prefix "Bearer " authorization))
          (HTTPException 401
             (Text "Invalid authorization header format. Use: Bearer <token>"));;
        mret (Some (replace authorization "Bearer " ""))
    | None => mret (truthy access_token)
    end;
  match truthy token with
  | None =>
      raise (HTTPException 401
               (Text "Not authenticated. Provide token in header or cookie."))
  | Some token => mret token
  end.

(** [User] built from a dictionary of [MOCK_USERS]: the e-mail address is
    validated; the [password] entry is not a field of [User]. *)
Definition User_init (d : UserData) : result User :=
  if is_email (ud_email d)
  then Return {| id := ud_id d; username := ud_username d;
                 email := ud_email d; role := ud_role d;
                 is_active := ud_is_active d |}
  else Raise (Error ValidationError "validation error for User").

Definition get_current_user_try (token : string) : M User :=
  payload ← lift (await (jwt_decode token SECRET_KEY [ALGORITHM]));
  user_id ← match truthy (user_id payload) with
            | None => raise (HTTPException 401 (Text "Invalid token payload"))
            | Some user_id => mret user_id
            end;
  users ← load MOCK_USERS;
  user_data ←
    match list_find (λ item, ud_id item.2 = user_id) users with
    | None => raise (HTTPException 401 (Text "User not found"))
    | Some (_, (_, data)) => mret data
    end;
  raise_when (negb (ud_is_active user_data))
    (HTTPException 403 (Text "Account is inactive"));;
  lift (User_init user_data).

(** The clauses of the [try] statement are [except
    jwt.ExpiredSignatureError] and [except jwt.JWTError].  [jwt] is PyJWT,
    which has no [JWTError]: for an exception of the block that the first
    clause does not catch, looking up the class of the second clause
    raises an [AttributeError], which takes the place of the exception. *)
Definition get_current_user (token : string) : M User := λ g,
  let '(r, g') := get_current_user_try token g in
  (match r with
   | Return current_user => Return current_user
   | Raise e =>
       if isinstance e (E ExpiredSignatureError)
       then Raise (HTTPException 401 (Text "Token has expired"))
       else Raise (Error AttributeError
                     "module 'jwt' has no attribute 'JWTError'")
   end, g').

Definition verify_api_key (x_api_key : string) : M string :=
  keys ← load VALID_API_KEYS;
  raise_when (bool_decide (x_api_key ∉ keys))
    (HTTPException 403 (Text "Invalid API key"));;
  mret x_api_key.

(** [Depends(get_current_user)], itself depending on [get_token]. *)
Definition current_user_dep (authorization access_token : option string)
  : M User :=
  token ← get_token authorization access_token;
  get_current_user token.

Definition get_profile (authorization access_token : option string) : M value :=
  current_user ← current_user_dep authorization access_token;
  mret (VDict [("user", User_value current_user);
               ("message", VStr "This is your protected profile")]).

Definition admin_only (authorization access_token : option string) : M value :=
  current_user ← current_user_dep authorization access_token;
  raise_when (bool_decide (role current_user ≠ admin))
    (HTTPException 403 (Text "Admin access required"));;
  mret (VDict [("message", VStr "Welcome, admin!");
               ("admin", VStr (username current_user))]).

Definition api_key_route (x_api_key : string) : M value :=
  api_key ← verify_api_key x_api_key;
  mret (VDict [("message", VStr "API key verified");
               ("key_prefix", VStr (String.substring 0 10 api_key))]).

(** *** Pattern 5: advanced dependencies *)
Record PaginationParams : Set := {
  page : Z;
  limit : Z;
  skip : Z
}.

Definition PaginationParams_init (page limit : Z) : PaginationParams :=
  {| page := page; limit := limit; skip := (page - 1) * limit |}.

Definition to_dict (self : PaginationParams) : value :=
  VDict [("page", VInt (page self)); ("limit", VInt (limit self));
         ("skip", VInt (skip self))].

Definition list_items (page limit : Z) (authorization access_token : option string)
  : M value :=
  let pagination := PaginationParams_init page limit in
  current_user ← current_user_dep authorization access_token;
  mret (VDict [("user", VStr (username current_user));
               ("pagination", to_dict pagination);
               ("items", VList [])]).

(** [repr] of a list of strings. *)
Definition repr_list (l : list string) : string :=
  "[" +:+ String.concat ", " ((λ s, "'" +:+ s +:+ "'") <$> l) +:+ "]".

(** [RoleChecker(allowed_roles).__call__] *)
Definition RoleChecker (allowed_roles : list UserRole)
    (authorization access_token : option string) : M User :=
  current_user ← current_user_dep authorization access_token;
  raise_when (bool_decide (role current_user ∉ allowed_roles))
    (HTTPException 403
       (Text ("Access denied. Required roles: "
              +:+ repr_list (UserRole_value <$> allowed_roles))));;
  mret current_user.

Definition require_admin := RoleChecker [admin].
Definition require_moderator := RoleChecker [admin; moderator].

Definition delete_post (post_id : string)
    (authorization access_token : option string) : M value :=
  current_user ← require_admin authorization access_token;
  mret (VDict [("message", VStr ("Post " +:+ post_id +:+ " deleted"));
               ("deleted_by", VStr (username current_user))]).

Definition approve_post (post_id : string)
    (authorization access_token : option string) : M value :=
  current_user ← require_moderator authorization access_token;
  mret (VDict [("message", VStr ("Post " +:+ post_id +:+ " approved"));
               ("approved_by", VStr (username current_user));
               ("role", VStr (UserRole_value (role current_user)))]).

(** *** Pattern 6: database session; the session is made for the request
    and closed after it. *)
Definition FakeDatabase_query (sql : string) : string := "Executing: " +:+ sql.

Definition query_database (authorization access_token : option string)
  : M value :=
  current_user ← current_user_dep authorization access_token;
  let result :=
    FakeDatabase_query
      ("SELECT * FROM users WHERE id = '" +:+ id current_user +:+ "'") in
  mret (VDict [("result", VStr result)]).

(** *** Pattern 7: cached settings.  The first call stores the settings in
    the cache, later calls return what is stored. *)
Definition get_settings : M Settings := λ g,
  match get_settings_cache g with
  | Some settings => (Return settings, g)
  | None =>
      let settings := Settings_init in
      (Return settings,
       {| MOCK_USERS := MOCK_USERS g; MOCK_SESSIONS := MOCK_SESSIONS g;
          VALID_API_KEYS := VALID_API_KEYS g;
          get_settings_cache := Some settings |})
  end.

Definition get_config : M Settings :=
  settings ← get_settings;
  mret settings.

(** *** Pattern 8: several dependencies *)
Definition get_tenant_id (x_tenant_id : string) : M string :=
  raise_when (negb (String.prefix "tenant-" x_tenant_id))
    (HTTPException 400 (Text "Invalid tenant ID format"));;
  mret x_tenant_id.

Definition get_tenant_data (x_tenant_id : string)
    (authorization access_token : option string) (page limit : Z)
    (x_api_key : string) : M value :=
  tenant_id ← get_tenant_id x_tenant_id;
  current_user ← current_user_dep authorization access_token;
  let pagination := PaginationParams_init page limit in
  api_key ← verify_api_key x_api_key;
  mret (VDict [("tenant_id", VStr tenant_id);
               ("user", VStr (username current_user));
               ("pagination", to_dict pagination);
               ("api_key_valid", VBool true);
               ("data", VList [])]).

(** [GET /] *)
Definition root : M value :=
  mret (VDict
    [("message", VStr "Header, Cookie & Depends Best Practices API");
     ("docs", VStr "/docs");
     ("examples", VDict
        [("headers", VDict
            [("user_agent", VStr "GET /api/headers/user-agent");
             ("api_key", VStr "GET /api/headers/api-key (X-API-Key header)")]);
         ("cookies", VDict
            [("theme", VStr "GET /api/cookies/theme");
             ("set_theme", VStr "POST /api/cookies/set-theme?theme=dark")]);
         ("auth", VDict
            [("login", VStr "POST /api/auth/login");
             ("profile", VStr "GET /api/protected/profile (requires token)");
             ("admin",
              VStr "GET /api/protected/admin-only (requires admin role)")]);
         ("dependencies", VDict
            [("pagination", VStr "GET /api/items?page=1&limit=20");
             ("permissions", VStr "DELETE /api/posts/{id} (admin only)");
             ("multi_tenant", VStr "GET /api/multi-tenant/data")])]);
     ("test_credentials", VDict
        [("admin", VDict [("username", VStr "john_doe");
                          ("password", VStr "hashed_password_here")]);
         ("user", VDict [("username", VStr "jane_smith");
                         ("password", VStr "hashed_password_here")])])]).

End Handlers.

(** A route with its arguments, for statements about every route. *)
Inductive request : Set :=
| Read_user_agent (user_agent : string)
| Read_optional_headers (user_agent referer x_request_id : option string)
| Verify_api_key (x_api_key : string)
| Custom_header_name (tenant_id : string)
| Get_theme (theme : string)
| Set_theme (theme : string)
| Get_preferences (theme language timezone : string)
| Get_cart (cart_id : option string) (now : Z)
| Login (credentials : LoginRequest) (now : Z)
| Logout
| Get_profile (authorization access_token : option string)
| Admin_only (authorization access_token : option string)
| Api_key_route (x_api_key : string)
| List_items (page limit : Z) (authorization access_token : option string)
| Delete_post (post_id : string) (authorization access_token : option string)
| Approve_post (post_id : string) (authorization access_token : option string)
| Query_database (authorization access_token : option string)
| Get_config
| Get_tenant_data (x_tenant_id : string)
    (authorization access_token : option string) (page limit : Z)
    (x_api_key : string)
| Root.

(** What a route answers, whatever its type: the outcome with the answer
    forgotten is enough to tell two answers apart by their exceptions. *)
Inductive answer : Type :=
| Answer {A : Type} (a : A)
| Failure (e : exn).

Definition answer_of {A} (r : result A) : answer :=
  match r with
  | Return a => Answer a
  | Raise e => Failure e
  end.

Definition serve `{Runtime} (r : request) (g : Globals) : answer * Globals :=
  let run {A} (m : M A) := let '(a, g') := m g in (answer_of a, g') in
  match r with
  | Read_user_agent ua => run (read_user_agent ua)
  | Read_optional_headers ua referer rid => run (read_optional_headers ua referer rid)
  | Verify_api_key k => run (verify_api_key_route k)
  | Custom_header_name t => run (custom_header_name t)
  | Get_theme t => run (get_theme t)
  | Set_theme t => run (set_theme t)
  | Get_preferences t l z => run (get_preferences t l z)
  | Get_cart c now => run (get_cart c now)
  | Login c now => run (login c now)
  | Logout => run logout
  | Get_profile a c => run (get_profile a c)
  | Admin_only a c => run (admin_only a c)
  | Api_key_route k => run (api_key_route k)
  | List_items p l a c => run (list_items p l a c)
  | Delete_post i a c => run (delete_post i a c)
  | Approve_post i a c => run (approve_post i a c)
  | Query_database a c => run (query_database a c)
  | Get_config => run get_config
  | Get_tenant_data t a c p l k => run (get_tenant_data t a c p l k)
  | Root => run root
  end.

End HeaderCookie.

(** ** Sample environments and data for the examples *)

(** ** String methods of the interpreter, on ASCII text *)

Module Text.

(** [c.isspace()]: tab to carriage return, the four separators, space. *)
Definition isspace (c : ascii) : bool :=
  let n := nat_of_ascii c in
  ((9 <=? n) && (n <=? 13) || (28 <=? n) && (n <=? 32))%nat.

Definition isupper (c : ascii) : bool :=
  let n := nat_of_ascii c in ((65 <=? n) && (n <=? 90))%nat.

Definition islower (c : ascii) : bool :=
  let n := nat_of_ascii c in ((97 <=? n) && (n <=? 122))%nat.

Definition isalpha (c : ascii) : bool := isupper c || islower c.

Definition isdigit (c : ascii) : bool :=
  let n := nat_of_ascii c in ((48 <=? n) && (n <=? 57))%nat.

Definition lower_char (c : ascii) : ascii :=
  if isupper c then ascii_of_nat (nat_of_ascii c + 32) else c.

Definition upper_char (c : ascii) : ascii :=
  if islower c then ascii_of_nat (nat_of_ascii c - 32) else c.

(** [s.lower()] *)
Fixpoint lower (s : string) : string :=
  match s with
  | EmptyString => EmptyString
  | String c s' => String (lower_char c) (lower s')
  end.

(** [s.lstrip(chars)], [s.rstrip(chars)] and [s.strip(chars)] for the
    characters that [drop] holds of. *)
Fixpoint lstrip_of (drop : ascii → bool) (s : string) : string :=
  match s with
  | EmptyString => EmptyString
  | String c s' => if drop c then lstrip_of drop s' else s
  end.

Fixpoint rstrip_of (drop : ascii → bool) (s : string) : string :=
  match s with
  | EmptyString => EmptyString
  | String c s' =>
      match rstrip_of drop s' with
      | EmptyString => if drop c then EmptyString else String c EmptyString
      | rest => String c rest
      end
  end.

Definition strip_of (drop : ascii → bool) (s : string) : string :=
  rstrip_of drop (lstrip_of drop s).

(** [s.strip()] *)
Definition strip (s : string) : string := strip_of isspace s.

(** [s.title()]: a letter is in upper case after what is not a letter and
    in lower case after a letter. *)
Fixpoint title_after (letter_before : bool) (s : string) : string :=
  match s with
  | EmptyString => EmptyString
  | String c s' =>
      if isalpha c then
        String (if letter_before then lower_char c else upper_char c)
          (title_after true s')
      else String c (title_after false s')
  end.

Definition title (s : string) : string := title_after false s.

(** The characters of a string with those that [drop] holds of left out:
    [re.sub] of a character class by the empty string. *)
Fixpoint without (drop : ascii → bool) (s : string) : string :=
  match s with
  | EmptyString => EmptyString
  | String c s' => if drop c then without drop s' else String c (without drop s')
  end.

Definition first_char (s : string) : option ascii :=
  match s with
  | EmptyString => None
  | String c _ => Some c
  end.

Fixpoint last_char (s : string) : option ascii :=
  match s with
  | EmptyString => None
  | String c EmptyString => Some c
  | String _ s' => last_char s'
  end.

(** Every character of the string satisfies the test. *)
Fixpoint all (f : ascii → bool) (s : string) : bool :=
  match s with
  | EmptyString => true
  | String c s' => f c && all f s'
  end.

#[export] Instance str_methods : ComputedField.StrMethods :=
  {| ComputedField.strip := strip; ComputedField.title := title |}.

End Text.

Module Samples.
Import Py.

(** Stand-ins for what the libraries decide.  For the search module: a
    pattern matches where it occurs literally, a set is iterated in the
    order of first insertion, and the categories are counted and put in
    descending order of their counts. *)
Definition count_categories (docs : list Search.Product) : list (string * Z) :=
  let categories := Search.category <$> docs in
  merge_sort (λ a b : string * Z, Is_true (b.2 <=? a.2))
    ((λ c, (c, len (filter (λ c', c' = c) categories)))
     <$> remove_dups categories).

#[export] Instance search_env : Search.Env :=
  {| Search.regex_search := λ pattern options subject, contains subject pattern;
     Search.set_iteration := remove_dups;
     Search.count_by_category := count_categories;
     Search.short_id_gt := λ b p, false |}.

(** For the header and cookie module: a token spells the user id after a
    fixed prefix, and the string methods work on ASCII letters. *)
Definition lower_char (c : ascii) : ascii :=
  let n := nat_of_ascii c in
  if ((65 <=? n) && (n <=? 90))%nat then ascii_of_nat (n + 32) else c.

Fixpoint lower (s : string) : string :=
  match s with
  | EmptyString => EmptyString
  | String c s' => String (lower_char c) (lower s')
  end.

Fixpoint replace_upto (fuel : nat) (s old new : string) : string :=
  match fuel, s with
  | S fuel', String c s' =>
      if String.prefix old s
      then new +:+ replace_upto fuel'
                     (String.substring (String.length old)
                        (String.length s - String.length old) s) old new
      else String c (replace_upto fuel' s' old new)
  | _, _ => s
  end.

Definition replace (s old new : string) : string :=
  if old is EmptyString then s else replace_upto (String.length s) s old new.

Definition decode_token (token : string) : outcome HeaderCookie.Payload :=
  if String.prefix "token-for-" token
  then Gives {| HeaderCookie.user_id :=
                  Some (String.substring 10 (String.length token - 10) token);
                HeaderCookie.exp := 0; HeaderCookie.iat := 0 |}
  else Fails DecodeError "Not enough segments".

#[export] Instance runtime : HeaderCookie.Runtime :=
  {| HeaderCookie.jwt_encode := λ payload key algorithm,
       "token-for-" +:+ default "" (HeaderCookie.user_id payload);
     HeaderCookie.jwt_decode := λ token key algorithms, decode_token token;
     HeaderCookie.lower := lower;
     HeaderCookie.replace := replace;
     HeaderCookie.timestamp := pretty;
     HeaderCookie.is_email := λ s, contains s "@" |}.

Definition doc (oid : N) (category : string) (active : bool) : Search.Product :=
  {| Search._id := oid; Search.name := "item"; Search.description := "";
     Search.category := category; Search.price := 10; Search.stock := 1;
     Search.tags := []; Search.is_active := active;
     Search.is_featured := false; Search.created_at := Z.of_N oid;
     Search.updated_at := Z.of_N oid |}.

Definition three_docs : list Search.Product :=
  [ doc 3 "tools" true; doc 1 "tools" true; doc 2 "toys" true ].

Definition widget (quantity : Z) : ComputedField.Product :=
  {| ComputedField.name := "Widget"; ComputedField.category := "Tools";
     ComputedField.price := 3; ComputedField.quantity := quantity;
     ComputedField.cost := 2; ComputedField.low_stock_threshold := 5;
     ComputedField.last_updated := 0 |}.

(** A product as validation leaves it: amounts in hundredths, names in
    title case. *)
Definition gadget (quantity : Z) : ComputedField.Product :=
  {| ComputedField.name := "Gadget"; ComputedField.category := "Tools";
     ComputedField.price := 300 # 100; ComputedField.quantity := quantity;
     ComputedField.cost := 200 # 100; ComputedField.low_stock_threshold := 5;
     ComputedField.last_updated := 0 |}.

Definition gadget_id : string := "507f1f77bcf86cd799439011".

Definition gadget_key : Bson.bytes :=
  [80; 127; 31; 119; 188; 248; 108; 215; 153; 67; 144; 17]%N.

End Samples.

(** ** Vocabulary of the statements *)

Module Spec.
Import Py.

(** [n] is the ceiling of [total / page_size]. *)
Definition is_ceiling (total page_size n : Z) : Prop :=
  (n - 1) * page_size < total ≤ n * page_size.

(** The page count the handlers compute: the ceiling for a non-empty
    result, one page for an empty one. *)
Definition page_count (total page_size n : Z) : Prop :=
  if decide (total = 0) then n = 1 else is_ceiling total page_size n.

(** The route handlers that have a [try] statement, module by module. *)
Definition all_endpoints `{Search.Env} : list endpoint :=
  TryExcept.endpoints ++ ErrorHandlers.endpoints ++ ErrorIntegration.endpoints
  ++ Logger.endpoints ++ Search.endpoints.


(** The block does not raise an [HTTPException]. *)
Definition no_http {A} (block : result A) : Prop :=
  ∀ sc d, block ≠ Raise (HTTPException sc d).

(** A handler passes on the [HTTPException]s of its [try] block. *)
Definition passes_on (ep : endpoint) : Prop :=
  ∀ r sc d,
    try_block ep r = Raise (HTTPException sc d) →
    run ep r = Raise (HTTPException sc d).



(** The module-level data of the header and cookie examples with the
    session table, or the settings cache, replaced. *)
Definition with_sessions (g : HeaderCookie.Globals)
    (sessions : gmap string string) : HeaderCookie.Globals :=
  {| HeaderCookie.MOCK_USERS := HeaderCookie.MOCK_USERS g;
     HeaderCookie.MOCK_SESSIONS := sessions;
     HeaderCookie.VALID_API_KEYS := HeaderCookie.VALID_API_KEYS g;
     HeaderCookie.get_settings_cache := HeaderCookie.get_settings_cache g |}.

Definition with_cache (g : HeaderCookie.Globals)
    (cache : option HeaderCookie.Settings) : HeaderCookie.Globals :=
  {| HeaderCookie.MOCK_USERS := HeaderCookie.MOCK_USERS g;
     HeaderCookie.MOCK_SESSIONS := HeaderCookie.MOCK_SESSIONS g;
     HeaderCookie.VALID_API_KEYS := HeaderCookie.VALID_API_KEYS g;
     HeaderCookie.get_settings_cache := cache |}.

(** Code that leaves the module-level data as it finds it. *)
Definition writes_nothing {A} (m : HeaderCookie.M A) : Prop :=
  ∀ g, (m g).2 = g.

(** Code on which the session table has no effect: with another table it
    gives the same result and makes the same changes. *)
Definition ignores_sessions {A} (m : HeaderCookie.M A) : Prop :=
  ∀ g sessions,
    m (with_sessions g sessions)
    = ((m g).1, with_sessions (m g).2 sessions).

(** Code that reads at most [MOCK_USERS] and [VALID_API_KEYS]. *)
Definition only_reads {A} (m : HeaderCookie.M A) : Prop :=
  writes_nothing m ∧ ignores_sessions m.

Section Search.
Import Search.
Context `{Env}.

(** The documents a list of conditions selects. *)
Definition matching (conditions : list expr) (docs : list Product)
  : list Product :=
  filter (λ p, Is_true (forallb (λ e, matches e p) conditions)) docs.

(** The selection in the order of a sort specification. *)
Definition ordered (spec : string) (l : list Product) : list Product :=
  merge_sort (λ a b, Is_true (sort_le spec a b)) l.

(** The page of [page_size] documents after the first [skip] ones. *)
Definition page_of (skip page_size : Z) (l : list Product) : list Product :=
  take (Z.to_nat page_size) (drop (Z.to_nat skip) l).

(** The conditions of a cursor request: active documents, of the category
    if one is given, with an id greater than the cursor if there is one. *)
Definition cursor_conditions (category : option string)
    (after : option ObjectId) : list expr :=
  ([is_active_eq true] ++ opt_list (truthy category) (λ c, [category_eq c]))
  ++ opt_list after (λ oid, [id_gt oid]).

(** What a cursor argument stands for: nothing when it is absent or
    empty, the id it spells otherwise, which it does when it is 24
    hexadecimal digits. *)
Inductive cursor_reads : option string → option ObjectId → Prop :=
| cursor_absent (c : option string) :
    truthy c = None → cursor_reads c None
| cursor_at (c : option string) (s : string) (b : bytes) (oid : ObjectId) :
    truthy c = Some s → ObjectId_of_str s = Return b →
    ObjectId_of_bytes b = Some oid →
    cursor_reads c (Some oid).

(** A cursor argument that the handlers take: it is absent or empty, or
    [ObjectId] takes it, with twelve bytes or with fewer. *)
Definition cursor_accepted (c : option string) : Prop :=
  ∀ s, truthy c = Some s → ∃ b, ObjectId_of_str s = Return b.

(** Ascending ids. *)
Definition by_id (a b : Product) : Prop := (_id a ≤ _id b)%N.

End Search.

Definition digit (c : ascii) : Prop := (48 ≤ nat_of_ascii c ≤ 57)%nat.


Definition length_within (lo hi : nat) (v : string) : Prop :=
  (lo ≤ String.length v ≤ hi)%nat.

Definition digits (lo hi : nat) (v : string) : Prop :=
  length_within lo hi v ∧ ∀ c, c ∈ list_ascii_of_string v → digit c.



(** A stored product that validation leaves as it is: read at any time,
    it gives its own fields, with that time as [last_updated]. *)
Definition as_validated `{ComputedField.StrMethods}
    (fields : ComputedField.Product) : Prop :=
  ∀ now, ComputedField.parse_obj fields now
         = Return (ComputedField.update_timestamp now fields).

End Spec.

(** ** computed-field-best-practices/example.py (creation, listing, reports) *)

Module ComputedFieldRoutes.
Import Py ComputedField.

(** The MongoDB filter documents that the handlers build: an equality
    test on [category], bounds on [price], and a test on [quantity]. *)
Inductive quantity_test : Set :=
| quantity_gt (n : Z)                  (* {"quantity": {"$gt": n}} *)
| quantity_eq (n : Z).                 (* {"quantity": n} *)

Record query : Set := {
  q_category : option string;
  q_price_gte : option Q;
  q_price_lte : option Q;
  q_quantity : option quantity_test;
  q_within_threshold : bool  (* {"$expr": {"$lte": ["$quantity", "$low_stock_threshold"]}} *)
}.

Definition satisfies (q : query) (p : Product) : bool :=
  (if q_category q is Some c then bool_decide (category p = c) else true)
  && (if q_price_gte q is Some x then Qle_bool x (price p) else true)
  && (if q_price_lte q is Some x then Qle_bool (price p) x else true)
  && match q_quantity q with
     | Some (quantity_gt n) => n <? quantity p
     | Some (quantity_eq n) => quantity p =? n
     | None => true
     end
  && (if q_within_threshold q then quantity p <=? low_stock_threshold p
      else true).

(** [Product.find(query)]: the stored documents that the filter selects,
    in the order in which the database gives them. *)
Definition find (q : query) (db : collection) : list document :=
  filter (λ d : document, Is_true (satisfies q d.2)) (map_to_list db).

(** [await ....to_list()]: every document is validated as it is read;
    [clock i] is the time at which the document at index [i] is read. *)
Fixpoint to_list_from `{StrMethods} (clock : nat → Z) (i : nat)
    (docs : list document) : result (list document) :=
  match docs with
  | [] => mret []
  | d :: docs =>
      product ← parse_obj d.2 (clock i);
      rest ← to_list_from clock (S i) docs;
      mret ((d.1, product) :: rest)
  end.

Definition to_list `{StrMethods} (clock : nat → Z) (docs : list document)
  : result (list document) :=
  to_list_from clock 0 docs.

(** [POST /products]: [Product(...)] at time [now], inserted under the
    id the driver makes for it, which no stored document has. *)
Definition create_product `{StrMethods} (name category : string) (price : Q)
    (quantity : Z) (cost : Q) (low_stock_threshold : Z) (now : Z)
    (new_id : Bson.bytes) : M document :=
  product ← lift (Product_init name category price quantity cost
                    low_stock_threshold now);
  insert new_id product.

(** The response models of the module. *)
Record ProductResponse : Set := {
  r_id : string;
  r_name : string;
  r_category : string;
  r_price : Q;
  r_quantity : Z;
  r_cost : Q;
  r_low_stock_threshold : Z;
  r_in_stock : bool;
  r_stock_status : string;
  r_total_value : Q;
  r_profit_margin : Q;
  r_last_updated : Z
}.

Record ProductListResponse : Set := {
  total : Z;
  page : Z;
  page_size : Z;
  products : list ProductResponse
}.

(** [ProductListResponse(...)] as the handler calls it, with documents of
    the collection for [products]: an item of that field is to be a
    [ProductResponse] or a dictionary, and an object of another model
    class is neither. *)
Definition ProductListResponse_init (total page page_size : Z)
    (products : list document) : result ProductListResponse :=
  if products is [] then
    Return {| total := total; page := page; page_size := page_size;
              products := [] |}
  else
    Raise (Error ValidationError
             "Input should be a valid dictionary or instance of ProductResponse").

(** The filter of [GET /products]. *)
Definition list_products_query (category : option string)
    (min_price max_price : option Q) (in_stock_only : option bool) : query :=
  {| q_category := truthy category;
     q_price_gte := min_price;
     q_price_lte := max_price;
     q_quantity :=
       match in_stock_only with
       | Some true => Some (quantity_gt 0)
       | Some false => Some (quantity_eq 0)
       | None => None
       end;
     q_within_threshold := false |}.

(** [GET /products], for [page >= 1] and [1 <= page_size <= 100], which
    the declared bounds of the two parameters guarantee. *)
Definition list_products `{StrMethods} (category : option string)
    (min_price max_price : option Q) (in_stock_only : option bool)
    (page page_size : Z) (clock : nat → Z) (db : collection)
  : result ProductListResponse :=
  let query :=
    list_products_query category min_price max_price in_stock_only in
  let total := len (find query db) in
  let skip := (page - 1) * page_size in
  products ← to_list clock
               (take (Z.to_nat page_size)
                  (drop (Z.to_nat skip) (find query db)));
  ProductListResponse_init total page page_size products.

(** The filters of the two reports. *)
Definition low_stock_query : query :=
  {| q_category := None; q_price_gte := None; q_price_lte := None;
     q_quantity := Some (quantity_gt 0); q_within_threshold := true |}.

Definition out_of_stock_query : query :=
  {| q_category := None; q_price_gte := None; q_price_lte := None;
     q_quantity := Some (quantity_eq 0); q_within_threshold := false |}.

(** [GET /products/reports/low-stock] *)
Definition get_low_stock_products `{StrMethods} (clock : nat → Z)
    (db : collection) : result (list document) :=
  to_list clock (find low_stock_query db).

(** [GET /products/reports/out-of-stock] *)
Definition get_out_of_stock_products `{StrMethods} (clock : nat → Z)
    (db : collection) : result (list document) :=
  to_list clock (find out_of_stock_query db).

End ComputedFieldRoutes.

(** ** fastapi-schemas-best-practices/example.py (field validators) *)

Module SchemaModels.
Import Py Schemas.

(** [if not v] on a string. *)
Definition empty (v : string) : bool :=
  if v is EmptyString then true else false.

(** [Field(..., ge=0)] on an integer. *)
Definition check_ge0 (v : Z) : result Z :=
  if 0 <=? v then Return v
  else Raise (Error ValidationError "input should be greater than or equal to 0").

(** *** [ProductCreate] and [ProductUpdate] *)
Record ProductCreate : Set := {
  name : string;
  description : string;
  price : Q;
  stock : Z;
  category : string
}.

Definition strip_whitespace (v : string) : result string :=
  let v := Text.strip v in
  raise_if (empty v)
    (Error ValueError "Field cannot be empty or whitespace only");;
  mret v.

(** A text field: the declared length bounds, then the validator. *)
Definition text_field (lo hi : nat) (v : string) : result string :=
  validated (v ← check_length lo hi v; strip_whitespace v).

Definition ProductCreate_init (name description : string) (price : Q)
    (stock : Z) (category : string) : result ProductCreate :=
  n ← text_field 1 200 name;
  d ← text_field 1 1000 description;
  p ← check_gt0 price;
  s ← check_ge0 stock;
  c ← text_field 1 100 category;
  mret {| name := n; description := d; price := p; stock := s;
          category := c |}.

Record ProductUpdate : Set := {
  u_name : option string;
  u_description : option string;
  u_price : option Q;
  u_stock : option Z;
  u_category : option string
}.

Definition ProductUpdate_init (name description : option string)
    (price : option Q) (stock : option Z) (category : option string)
  : result ProductUpdate :=
  n ← optional (text_field 1 200) name;
  d ← optional (text_field 1 1000) description;
  p ← optional check_gt0 price;
  s ← optional check_ge0 stock;
  c ← optional (text_field 1 100) category;
  mret {| u_name := n; u_description := d; u_price := p; u_stock := s;
          u_category := c |}.

Record ProductResponse : Set := {
  r_id : string;
  r_name : string;
  r_description : string;
  r_price : Q;
  r_stock : Z;
  r_category : string;
  r_created_at : Z;
  r_updated_at : Z
}.

Definition in_stock (self : ProductResponse) : bool := 0 <? r_stock self.

(** [PATCH /products/{product_id}]; [created] and [updated] are the two
    readings of the clock. *)
Definition update_product (product_id : string) (product : ProductUpdate)
    (created updated : Z) : result ProductResponse :=
  let nothing :=
    match u_name product, u_description product, u_price product,
          u_stock product, u_category product with
    | None, None, None, None, None => true
    | _, _, _, _, _ => false
    end in
  raise_if nothing
    (HTTPException 400
       (Text "At least one field must be provided for update"));;
  mret {| r_id := product_id;
          r_name := default "Gaming Laptop" (u_name product);
          r_description :=
            default "High-performance laptop" (u_description product);
          r_price := default (129999 # 100) (u_price product);
          r_stock := default 50 (u_stock product);
          r_category := default "Electronics" (u_category product);
          r_created_at := created;
          r_updated_at := updated |}.

(** *** [UserBase.username] *)

(** The class [[a-zA-Z0-9_-]]. *)
Definition username_char (c : ascii) : bool :=
  Text.isalpha c || Text.isdigit c
  || bool_decide (c = "_"%char) || bool_decide (c = "-"%char).

(** [re.match(r"^[a-zA-Z0-9_-]+$", v)]: one or more characters of the
    class, up to the end of the string or to a newline that ends it. *)
Definition newline : string := String "010"%char EmptyString.

Fixpoint match_username (v : string) : bool :=
  match v with
  | EmptyString => false
  | String c rest =>
      username_char c
      && (bool_decide (rest = EmptyString) || bool_decide (rest = newline)
          || match_username rest)
  end.

Definition validate_username (v : string) : result string :=
  raise_if (negb (match_username v))
    (Error ValueError
       "Username can only contain letters, numbers, underscores, and hyphens");;
  mret (Text.lower v).

Definition username_field (v : string) : result string :=
  validated (v ← check_length 3 50 v; validate_username v).

(** *** [FileUpload] *)

(** The class of [re.sub] in [validate_filename]: slash, backslash, colon,
    asterisk, question mark, double quote, the angle brackets and the
    bar. *)
Definition unsafe (c : ascii) : bool :=
  bool_decide (nat_of_ascii c ∈ [47; 92; 58; 42; 63; 34; 60; 62; 124]%nat).

(** The characters of [v.strip('. ')]. *)
Definition dot_or_space (c : ascii) : bool :=
  bool_decide (c = "."%char) || bool_decide (c = " "%char).

Definition validate_filename (v : string) : result string :=
  let v := Text.without unsafe v in
  let v := Text.strip_of dot_or_space v in
  raise_if (empty v) (Error ValueError "Invalid filename");;
  mret v.

Definition filename_field (v : string) : result string :=
  validated (v ← check_length 0 255 v; validate_filename v).

Definition allowed_types : list string :=
  [ "image/jpeg"; "image/png"; "image/gif"; "application/pdf";
    "application/zip" ].

Definition validate_content_type (v : string) : result string :=
  raise_if (bool_decide (v ∉ allowed_types))
    (Error ValueError "File type not allowed");;
  mret v.

Record FileUpload : Set := {
  filename : string;
  content_type : string;
  size_bytes : Z
}.

Definition FileUpload_init (filename content_type : string) (size_bytes : Z)
  : result FileUpload :=
  f ← filename_field filename;
  t ← validated (validate_content_type content_type);
  s ← (if (0 <=? size_bytes) && (size_bytes <=? 10485760)
       then Return size_bytes
       else Raise (Error ValidationError "size_bytes out of bounds"));
  mret {| filename := f; content_type := t; size_bytes := s |}.

(** *** [BlogPostCreate.tags] *)

(** [[tag.strip().lower() for tag in v if tag.strip()]] *)
Definition cleaned (v : list string) : list string :=
  (λ tag, Text.lower (Text.strip tag))
  <$> filter (λ tag, Text.strip tag ≠ EmptyString) v.

(** The loop over [cleaned], with the [seen] set it keeps. *)
Fixpoint unique_tags (seen : gset string) (tags : list string)
  : list string :=
  match tags with
  | [] => []
  | tag :: rest =>
      if bool_decide (tag ∉ seen) && (String.length tag <=? 50)%nat
      then tag :: unique_tags ({[ tag ]} ∪ seen) rest
      else unique_tags seen rest
  end.

Definition validate_tags (v : list string) : list string :=
  unique_tags ∅ (cleaned v).

(** [Field(default_factory=list, max_length=10)], then the validator. *)
Definition tags_field (v : list string) : result (list string) :=
  if (length v <=? 10)%nat then Return (validate_tags v)
  else Raise (Error ValidationError "list should have at most 10 items").

(** *** [OrderItem] and [OrderResponse] *)
Record OrderItem : Set := {
  product_id : string;
  product_name : string;
  quantity : Z;
  unit_price : Q
}.

Definition OrderItem_init (product_id product_name : string) (quantity : Z)
    (unit_price : Q) : result OrderItem :=
  q ← (if 1 <=? quantity then Return quantity
       else Raise (Error ValidationError
                     "input should be greater than or equal to 1"));
  u ← check_gt0 unit_price;
  mret {| product_id := product_id; product_name := product_name;
          quantity := q; unit_price := u |}.

Definition total_price (self : OrderItem) : Q :=
  (inject_Z (quantity self) * unit_price self)%Q.

Inductive OrderStatus : Set :=
| pending | processing | shipped | delivered | cancelled.

Record OrderResponse : Set := {
  o_id : string;
  o_user_id : string;
  o_items : list OrderItem;
  o_status : OrderStatus;
  o_created_at : Z
}.

(** [items] holds the arguments of each item; [min_length=1]. *)
Definition OrderResponse_init (id user_id : string)
    (items : list (string * string * Z * Q)) (status : OrderStatus)
    (created_at : Z) : result OrderResponse :=
  items ← mapM (λ '(pid, pname, q, u), OrderItem_init pid pname q u) items;
  (if (1 <=? length items)%nat then Return tt
   else Raise (Error ValidationError "list should have at least 1 item"));;
  mret {| o_id := id; o_user_id := user_id; o_items := items;
          o_status := status; o_created_at := created_at |}.

(** [sum(...)] starts from the integer zero. *)
Definition total_amount (self : OrderResponse) : Q :=
  foldl Qplus 0%Q (total_price <$> o_items self).

Definition item_count (self : OrderResponse) : Z :=
  foldl Z.add 0 (quantity <$> o_items self).

End SchemaModels.

(** ** Vocabulary of the further properties *)

Module Terms.
Import Py.

(** An exception that is an [HTTPException], and a handler outcome that
    is a value or an [HTTPException]: what FastAPI turns into the response
    the handler chose. *)
Definition is_http (e : exn) : Prop :=
  if e is HTTPException _ _ then True else False.

Definition answered {A} (outcome : result A) : Prop :=
  match outcome with
  | Return _ => True
  | Raise e => is_http e
  end.

(** The status code of an outcome that is an [HTTPException]. *)
Definition status_of {A} (outcome : result A) : option Z :=
  match outcome with
  | Raise (HTTPException sc _) => Some sc
  | _ => None
  end.

Section Search.
Import Search Spec.
Context `{Env}.

(** The answer of an offset handler for the selection [found], sorted by
    [spec] and shown through [f]. *)
Definition offset_page {T} (f : Product → T) (page page_size : Z)
    (spec : string) (found : list Product) (r : PaginatedResponse T) : Prop :=
  ∃ n, 1 ≤ n ∧ page_count (len found) page_size n
       ∧ r = {| total := len found; page := page; page_size := page_size;
                total_pages := n; has_next := page <? n; has_prev := 1 <? page;
                items := f <$> page_of ((page - 1) * page_size) page_size
                                 (ordered spec found) |}.

(** The navigation flags say what they name: there is a next page exactly
    when documents remain after this one, and a previous page exactly when
    this is not the first. *)
Definition navigation_ok {T} (r : PaginatedResponse T) : Prop :=
  (has_next r = true ↔ page r * page_size r < total r)
  ∧ (has_next r = true ↔ page r < total_pages r)
  ∧ (has_prev r = true ↔ 1 < page r).

(** The number of items on a page: a full page while enough documents
    remain, the rest on the last page, nothing beyond it. *)
Definition page_length_ok {T} (r : PaginatedResponse T) : Prop :=
  len (items r)
  = Z.min (page_size r) (Z.max 0 (total r - (page r - 1) * page_size r)).

(** Pages [1] to [n], one after the other. *)
Definition pages (page_size n : Z) (l : list Product) : list (list Product) :=
  (λ page, page_of ((page - 1) * page_size) page_size l) <$> seqZ 1 n.

(** A document with its [is_active] flag replaced. *)
Definition with_active (b : bool) (p : Product) : Product :=
  {| _id := _id p; name := name p; description := description p;
     category := category p; price := price p; stock := stock p;
     tags := tags p; is_active := b; is_featured := is_featured p;
     created_at := created_at p; updated_at := updated_at p |}.

(** The conditions of an infinite-scroll request after the id [after]. *)
Definition scroll_conditions (after : option ObjectId) : list expr :=
  opt_list after (λ oid, [id_gt oid]) ++ [is_active_eq true].

(** No two documents of a list are equal on the sort field. *)
Definition no_ties (spec : string) (l : list Product) : Prop :=
  ∀ a b, a ∈ l → b ∈ l →
         sort_le spec a b = true → sort_le spec b a = true → a = b.

(** Ids are twelve bytes. *)
Definition valid_id (oid : ObjectId) : Prop := (oid < 16 ^ 24)%N.

End Search.

(** No stored product has a negative quantity. *)
Definition stock_not_negative (db : ComputedField.collection) : Prop :=
  ∀ k p, db !! k = Some p → 0 ≤ ComputedField.quantity p.

(** Every stored product is as validation leaves it. *)
Definition all_validated `{ComputedField.StrMethods}
    (db : ComputedField.collection) : Prop :=
  ∀ k p, db !! k = Some p → Spec.as_validated p.

(** The documents as they are read one after the other, the document at
    index [i] at the time [clock i], when validation leaves them as they
    are. *)
Definition read_at (clock : nat → Z) (docs : list ComputedField.document)
  : list ComputedField.document :=
  imap (λ i d, (d.1, ComputedField.update_timestamp (clock i) d.2)) docs.

(** The filter of a listing request without its stock test. *)
Definition listing_query (category : option string)
    (min_price max_price : option Q) : ComputedFieldRoutes.query :=
  {| ComputedFieldRoutes.q_category := truthy category;
     ComputedFieldRoutes.q_price_gte := min_price;
     ComputedFieldRoutes.q_price_lte := max_price;
     ComputedFieldRoutes.q_quantity := None;
     ComputedFieldRoutes.q_within_threshold := false |}.

Section Accounts.
Import HeaderCookie.

(** The [User] that a dictionary of [MOCK_USERS] stands for. *)
Definition User_of (d : UserData) : User :=
  {| id := ud_id d; username := ud_username d; email := ud_email d;
     role := ud_role d; is_active := ud_is_active d |}.

(** A user that the module data holds and that is active. *)
Definition active_user (g : Globals) (d : UserData) : Prop :=
  (∃ k, (k, d) ∈ MOCK_USERS g) ∧ ud_is_active d = true.

(** The answer for a request that carries no token, and for one whose
    [Authorization] header is not of the form [Bearer <token>]. *)
Definition not_authenticated : exn :=
  HTTPException 401
    (Text "Not authenticated. Provide token in header or cookie.").

Definition bad_authorization : exn :=
  HTTPException 401
    (Text "Invalid authorization header format. Use: Bearer <token>").

(** The credentials of a request for a route that depends on the current
    user and on nothing that is checked before it. *)
Definition credentials_of (r : request)
  : option (option string * option string) :=
  match r with
  | Get_profile a c | Admin_only a c | List_items _ _ a c
  | Delete_post _ a c | Approve_post _ a c | Query_database a c => Some (a, c)
  | _ => None
  end.

(** The cache of [get_settings] is empty or holds the settings. *)
Definition cache_ok (g : Globals) : Prop :=
  get_settings_cache g = None ∨ get_settings_cache g = Some Settings_init.

(** The module data after a sequence of requests. *)
Definition serve_all `{Runtime} (rs : list request) (g : Globals) : Globals :=
  foldl (λ g r, (serve r g).2) g rs.

End Accounts.

End Terms.

(** * Properties *)

(** ** Running blocks *)

Section Blocks.
Import Py.

Lemma bind_Return {A B} (a : A) (k : A → result B) : (Return a ≫= k) = k a.
Proof. reflexivity. Qed.

Lemma bind_Raise {A B} (e : exn) (k : A → result B) :
  (Raise e ≫= k) = Raise e.
Proof. reflexivity. Qed.

Lemma try_except_Return {A} (a : A) (clauses : list clause) :
  try_except (Return a) clauses = Return a.
Proof. reflexivity. Qed.

Lemma try_except_Raise {A} (e : exn) (clauses : list clause) :
  try_except (A:=A) (Raise e) clauses = Raise (handle clauses e).
Proof. reflexivity. Qed.

Lemma issubclass_Exception (c : exc_class) : issubclass c Exception = true.
Proof. by destruct c. Qed.

(** [except Exception] catches everything but the exceptions that are no
    instances of [Exception]. *)
Lemma isinstance_Exception (e : exn) :
  isinstance e (E Exception) = if e is BaseError _ _ then false else true.
Proof. destruct e; simpl; auto using issubclass_Exception. Qed.

Lemma isinstance_BaseError (c : base_class) (msg : string) (p : except_pat) :
  isinstance (BaseError c msg) p = false.
Proof. by destruct p. Qed.

(** No clause names such an exception: it leaves every chain as it is. *)
Lemma handle_BaseError (clauses : list clause) (c : base_class)
    (msg : string) :
  handle clauses (BaseError c msg) = BaseError c msg.
Proof.
  induction clauses as [| [p body] rest IH]; [done |].
  cbn [handle]. by rewrite isinstance_BaseError.
Qed.

(** [except HTTPException] catches nothing a library raises. *)
Lemma isinstance_HTTPException (e : exn) :
  isinstance e E_HTTPException = true ↔ ∃ sc d, e = HTTPException sc d.
Proof.
  destruct e; simpl; split; try done; try (intros (? & ? & ?); done).
  eauto.
Qed.

Lemma no_http_Return {A} (a : A) : Spec.no_http (Return a).
Proof. intros sc d. done. Qed.

Lemma no_http_Error {A} (c : exc_class) (msg : string) :
  Spec.no_http (A:=A) (Raise (Error c msg)).
Proof. intros sc d. done. Qed.

Lemma no_http_bind {A B} (m : result A) (k : A → result B) :
  Spec.no_http m → (∀ a, Spec.no_http (k a)) → Spec.no_http (m ≫= k).
Proof.
  intros Hm Hk sc d. destruct m as [a | e]; [apply Hk |].
  rewrite bind_Raise. intros [= ->]. by eapply Hm.
Qed.

Lemma no_http_raise_if_Error (cond : bool) (c : exc_class) (msg : string) :
  Spec.no_http (raise_if cond (Error c msg)).
Proof. destruct cond; [apply no_http_Error | apply no_http_Return]. Qed.

Lemma no_http_await {A} (o : outcome A) : Spec.no_http (await o).
Proof. destruct o; [apply no_http_Return | apply no_http_Error]. Qed.

Lemma no_http_truediv (a b : Z) : Spec.no_http (truediv a b).
Proof.
  unfold truediv. destruct (b =? 0); [apply no_http_Error | apply no_http_Return].
Qed.

End Blocks.

Create HintDb no_http discriminated.
#[export] Hint Resolve no_http_Return no_http_Error no_http_raise_if_Error
  no_http_await no_http_truediv : no_http.

(** One step through a block that raises no [HTTPException]. *)
Ltac no_http_step :=
  lazymatch goal with
  | |- Spec.no_http (mbind _ _) => apply no_http_bind; [| intros ?]
  | |- Spec.no_http (if ?b then _ else _) => destruct b
  | |- Spec.no_http (match ?x with _ => _ end) => destruct x
  | |- _ => solve [auto with no_http]
  end.

(** ** Arithmetic of [math.ceil(total / page_size)] *)

Section Ceiling.
Import Py.

(** The ceiling of a quotient of integers, without rationals. *)
Lemma math_ceil_truediv (a b : Z) :
  0 < b →
  truediv a b = Return (inject_Z a / inject_Z b)%Q
  ∧ (math_ceil (inject_Z a / inject_Z b) - 1) * b < a
      ≤ math_ceil (inject_Z a / inject_Z b) * b.
Proof.
  intros Hb. split.
  { unfold truediv. destruct (Z.eqb_spec b 0); [lia | reflexivity]. }
  unfold math_ceil.
  set (x := (inject_Z a / inject_Z b)%Q).
  assert (Hbq : (0 < inject_Z b)%Q) 
    by (change (inject_Z 0 < inject_Z b)%Q; rewrite <- Zlt_Qlt; exact Hb).
  assert (Hx : (x * inject_Z b == inject_Z a)%Q).
  { unfold x. rewrite Qmult_comm. apply Qmult_div_r.
    intros E. rewrite E in Hbq. exact (Qlt_irrefl _ Hbq). }
  pose proof (Qle_ceiling x) as Hle.
  pose proof (Qceiling_lt x) as Hlt.
  split.
  - apply (Qmult_lt_r _ _ (inject_Z b) Hbq) in Hlt.
    rewrite Hx, <- inject_Z_mult, <- Zlt_Qlt in Hlt. exact Hlt.
  - apply (Qmult_le_r _ _ (inject_Z b) Hbq) in Hle.
    rewrite Hx, <- inject_Z_mult, <- Zle_Qle in Hle. exact Hle.
Qed.

End Ceiling.

(** ** Offset pagination *)

Section Offset.
Import Py Search Spec.
Context `{Env}.

Lemma compute_total_pages_spec (total page_size : Z) :
  0 ≤ total → 1 ≤ page_size →
  ∃ n, compute_total_pages total page_size = Return n
       ∧ 1 ≤ n ∧ page_count total page_size n.
Proof.
  intros Ht Hp. unfold compute_total_pages, page_count.
  destruct (Z.ltb_spec 0 total) as [Hpos | Hzero].
  - destruct (math_ceil_truediv total page_size) as [-> [Hlo Hhi]]; [lia |].
    eexists. split; [reflexivity |].
    rewrite decide_False by lia. unfold is_ceiling. split; [nia | lia].
  - exists 1. rewrite decide_True by lia. done.
Qed.

Lemma selected_find (es : list expr) (docs : list Product) :
  selected (find es) docs = matching es docs.
Proof. reflexivity. Qed.

Lemma selected_And (es : list expr) (docs : list Product) :
  selected (find [And es]) docs = matching es docs.
Proof.
  unfold selected, matching. simpl. apply list_filter_iff. intros p.
  simpl. by rewrite andb_true_r.
Qed.

Lemma count_Online (q : FindMany) (docs : list Product) :
  count q (Online docs) = Return (len (selected q docs)).
Proof. reflexivity. Qed.

Lemma to_list_page (q : FindMany) (spec : string) (skip page_size : Z)
    (docs : list Product) :
  0 ≤ skip → 1 ≤ page_size →
  to_list (FindMany_limit page_size (FindMany_skip skip (FindMany_sort spec q)))
    (Online docs)
  = Return (page_of skip page_size (ordered spec (selected q docs))).
Proof.
  intros Hs Hp. unfold to_list. simpl.
  destruct (Z.ltb_spec skip 0); [lia |].
  unfold limited. destruct (Z.eqb_spec page_size 0); [lia |].
  by rewrite Z.abs_eq by lia.
Qed.

Lemma PaginatedResponse_init_ok {T} (total page page_size total_pages : Z)
    (has_next has_prev : bool) (items : list T) :
  1 ≤ page → 1 ≤ page_size ≤ 100 → 1 ≤ total_pages →
  PaginatedResponse_init total page page_size total_pages has_next has_prev
    items
  = Return {| total := total; page := page; page_size := page_size;
              total_pages := total_pages; has_next := has_next;
              has_prev := has_prev; items := items |}.
Proof.
  intros Hp Hs Ht. unfold PaginatedResponse_init.
  rewrite !(proj2 (Z.leb_le _ _)) by lia. reflexivity.
Qed.

(** What the three offset handlers answer for a valid request while the
    database is reachable. *)
Lemma list_products_basic_returns (page page_size : Z) (docs : list Product) :
  1 ≤ page → 1 ≤ page_size ≤ 100 →
  let found := matching [is_active_eq true] docs in
  ∃ n, 1 ≤ n ∧ page_count (len found) page_size n
       ∧ list_products_basic page page_size (Online docs)
         = Return {| total := len found; page := page; page_size := page_size;
                     total_pages := n; has_next := page <? n;
                     has_prev := 1 <? page;
                     items := ProductListItem_from_document
                              <$> page_of ((page - 1) * page_size) page_size
                                    (ordered "-created_at" found) |}.
Proof.
  intros Hp Hs found.
  destruct (compute_total_pages_spec (len found) page_size)
    as (n & Hn & Hn1 & Hpc); [unfold len; lia | lia |].
  exists n. split; [done |]. split; [done |]. subst found.
  unfold list_products_basic, list_products_basic_try.
  rewrite count_Online, selected_find, bind_Return.
  rewrite to_list_page, selected_find, bind_Return by nia.
  rewrite Hn, bind_Return, PaginatedResponse_init_ok by lia. reflexivity.
Qed.

Lemma selected_conditions (cs : list expr) (docs : list Product) :
  selected (if cs is [] then find [] else find [And cs]) docs
  = matching cs docs.
Proof. destruct cs; [reflexivity | apply selected_And]. Qed.

Lemma filter_products_returns (filters : ProductFilters) (sort_by : SortField)
    (order : SortOrder) (page page_size : Z) (docs : list Product) :
  1 ≤ page → 1 ≤ page_size ≤ 100 →
  let found := matching (build_conditions filters) docs in
  let spec := (if order is desc then "-" else "+") +:+ SortField_value sort_by in
  ∃ n, 1 ≤ n ∧ page_count (len found) page_size n
       ∧ filter_products filters (PaginationParams_init page page_size)
           sort_by order (Online docs)
         = Return {| total := len found; page := page; page_size := page_size;
                     total_pages := n; has_next := page <? n;
                     has_prev := 1 <? page;
                     items := ProductResponse_from_document
                              <$> page_of ((page - 1) * page_size) page_size
                                    (ordered spec found) |}.
Proof.
  intros Hp Hs found spec.
  destruct (compute_total_pages_spec (len found) page_size)
    as (n & Hn & Hn1 & Hpc); [unfold len; lia | lia |].
  exists n. split; [done |]. split; [done |]. subst found spec.
  unfold filter_products, filter_products_try. cbn [pp_page pp_page_size
    pp_skip PaginationParams_init].
  rewrite count_Online, selected_conditions, bind_Return.
  rewrite to_list_page, selected_conditions, bind_Return by nia.
  rewrite Hn, bind_Return, PaginatedResponse_init_ok by lia. reflexivity.
Qed.

Lemma search_conditions_selected (q category : option string)
    (min_price max_price : option Q) (in_stock : option bool)
    (tags : list string) (docs : list Product) :
  let cs := search_conditions q category min_price max_price in_stock tags in
  selected (if cs is [] then find [is_active_eq true] else find [And cs]) docs
  = matching cs docs.
Proof.
  intros cs. destruct cs as [| c cs'] eqn:E; [| apply selected_And].
  exfalso. unfold cs, search_conditions in E.
  rewrite !app_assoc in E. by apply app_eq_nil in E as [_ ?].
Qed.

Lemma search_products_returns (q category : option string)
    (min_price max_price : option Q) (in_stock : option bool)
    (tags : list string) (sort_by order : string) (page page_size : Z)
    (docs : list Product) :
  1 ≤ page → 1 ≤ page_size ≤ 100 →
  let found :=
    matching (search_conditions q category min_price max_price in_stock tags)
      docs in
  let spec := (if bool_decide (order = "desc") then "-" else "+") +:+ sort_by in
  ∃ n, 1 ≤ n ∧ page_count (len found) page_size n
       ∧ search_products q category min_price max_price in_stock tags sort_by
           order page page_size (Online docs)
         = Return {| total := len found; page := page; page_size := page_size;
                     total_pages := n; has_next := page <? n;
                     has_prev := 1 <? page;
                     items := ProductResponse_from_document
                              <$> page_of ((page - 1) * page_size) page_size
                                    (ordered spec found) |}.
Proof.
  intros Hp Hs found spec.
  destruct (compute_total_pages_spec (len found) page_size)
    as (n & Hn & Hn1 & Hpc); [unfold len; lia | lia |].
  exists n. split; [done |]. split; [done |]. subst found spec.
  unfold search_products, search_products_try.
  rewrite count_Online, search_conditions_selected, bind_Return.
  rewrite Hn, bind_Return.
  rewrite to_list_page, search_conditions_selected, bind_Return by nia.
  rewrite PaginatedResponse_init_ok by lia. reflexivity.
Qed.

(** C1, as the code has it: for a valid request ([page >= 1],
    [1 <= page_size <= 100]) and a reachable database, each of the list,
    filter and search handlers answers a page whose [total] is the number
    of matching documents and whose [total_pages] is the ceiling of
    [total / page_size] when [total > 0], and [1] when [total = 0]. *)
Theorem total_pages_is_ceiling_or_one (page page_size : Z)
    (docs : list Product) :
  1 ≤ page → 1 ≤ page_size ≤ 100 →
  (∃ r, list_products_basic page page_size (Online docs) = Return r
        ∧ total r = len (matching [is_active_eq true] docs)
        ∧ Search.page_size r = page_size
        ∧ page_count (total r) page_size (total_pages r))
  ∧ (∀ filters sort_by order,
       ∃ r, filter_products filters (PaginationParams_init page page_size)
              sort_by order (Online docs) = Return r
            ∧ total r = len (matching (build_conditions filters) docs)
            ∧ Search.page_size r = page_size
            ∧ page_count (total r) page_size (total_pages r))
  ∧ (∀ q category min_price max_price in_stock tags sort_by order,
       ∃ r, search_products q category min_price max_price in_stock tags
              sort_by order page page_size (Online docs) = Return r
            ∧ total r
              = len (matching (search_conditions q category min_price
                                 max_price in_stock tags) docs)
            ∧ Search.page_size r = page_size
            ∧ page_count (total r) page_size (total_pages r)).
Proof.
  intros Hp Hs. split; [| split].
  - destruct (list_products_basic_returns page page_size docs Hp Hs)
      as (n & _ & Hpc & ->). eexists. split; [reflexivity |]. done.
  - intros filters sort_by order.
    destruct (filter_products_returns filters sort_by order page page_size
                docs Hp Hs) as (n & _ & Hpc & ->).
    eexists. split; [reflexivity |]. done.
  - intros q category min_price max_price in_stock tags sort_by order.
    destruct (search_products_returns q category min_price max_price in_stock
                tags sort_by order page page_size docs Hp Hs)
      as (n & _ & Hpc & ->).
    eexists. split; [reflexivity |]. done.
Qed.

End Offset.

Section OffsetExamples.
Import Py Search Spec Samples.

(** C1 as stated fails on an empty result: no document matches, the page
    size is 20, and the handler answers [total_pages = 1], which is not the
    ceiling of [0 / 20]. *)
Lemma total_pages_of_empty_result :
  ∃ r, list_products_basic 1 20 (Online []) = Return r
       ∧ total r = 0 ∧ page_size r = 20 ∧ total_pages r = 1
       ∧ total_pages r ≠ math_ceil (inject_Z (total r) / inject_Z (page_size r))
       ∧ ¬ is_ceiling (total r) (page_size r) (total_pages r).
Proof.
  eexists. split; [vm_compute; reflexivity |].
  cbn [total page_size total_pages].
  split; [done |]. split; [done |]. split; [done |]. split.
  - by vm_compute.
  - unfold is_ceiling. lia.
Qed.

Lemma total_pages_is_ceiling_or_one_witness :
  (1 ≤ 1 ∧ 1 ≤ 2 ≤ 100)
  ∧ ∃ r, list_products_basic 1 2 (Online three_docs) = Return r
         ∧ total r = len (matching [is_active_eq true] three_docs)
         ∧ page_size r = 2
         ∧ page_count (total r) 2 (total_pages r).
Proof.
  split; [lia |].
  apply (total_pages_is_ceiling_or_one 1 2 three_docs); lia.
Defined.

(** The listing of the schema examples passes [total_pages = 0] for its
    empty result, which its own response model refuses: that handler
    answers no page at all. *)
Lemma schemas_list_products_answers_nothing (page page_size : Z) :
  Schemas.list_products page page_size
  = Raise (Error ValidationError "validation error for PaginatedResponse").
Proof.
  unfold Schemas.list_products, Schemas.PaginatedResponse_init.
  by rewrite andb_false_r.
Qed.

End OffsetExamples.

(** ** The skip of a page *)

Section Skip.
Import Py Search Spec.
Context `{Env}.

(** A page lies behind exactly [skip] documents whenever it is not empty. *)
Lemma page_of_split (skip page_size : Z) (l : list Product) :
  0 ≤ skip →
  ∃ before after,
    l = before ++ page_of skip page_size l ++ after
    ∧ (page_of skip page_size l ≠ [] → len before = skip).
Proof.
  intros Hs. exists (take (Z.to_nat skip) l).
  exists (drop (Z.to_nat page_size) (drop (Z.to_nat skip) l)).
  unfold page_of. rewrite take_drop, take_drop. split; [done |].
  intros Hne. unfold len.
  destruct (decide (Z.to_nat skip < length l)%nat) as [Hlt | Hge].
  - rewrite length_take_le by lia. lia.
  - rewrite drop_ge in Hne by lia. by rewrite take_nil in Hne.
Qed.

(** C2: for [page >= 1] and [page_size >= 1] every pagination helper
    computes [skip = (page - 1) * page_size], and the list, filter and
    search handlers answer the [page_size] documents that come after
    exactly that many in the sorted selection. *)
Theorem skip_is_pages_before (page page_size : Z) (docs : list Product) :
  1 ≤ page → 1 ≤ page_size →
  let skip := (page - 1) * page_size in
  0 ≤ skip
  ∧ pp_skip (PaginationParams_init page page_size) = skip
  ∧ HeaderCookie.skip (HeaderCookie.PaginationParams_init page page_size) = skip
  ∧ (page_size ≤ 100 →
     (∃ p, PathQueryBody.pagination_params page page_size = Return p
           ∧ PathQueryBody.get_skip p = skip)
     ∧ (∃ r, list_products_basic page page_size (Online docs) = Return r
             ∧ items r
               = ProductListItem_from_document
                 <$> page_of skip page_size
                       (ordered "-created_at"
                          (matching [is_active_eq true] docs)))
     ∧ (∀ filters sort_by order,
          ∃ r, filter_products filters (PaginationParams_init page page_size)
                 sort_by order (Online docs) = Return r
               ∧ items r
                 = ProductResponse_from_document
                   <$> page_of skip page_size
                         (ordered ((if order is desc then "-" else "+")
                                   +:+ SortField_value sort_by)
                            (matching (build_conditions filters) docs)))
     ∧ (∀ q category min_price max_price in_stock tags sort_by order,
          ∃ r, search_products q category min_price max_price in_stock tags
                 sort_by order page page_size (Online docs) = Return r
               ∧ items r
                 = ProductResponse_from_document
                   <$> page_of skip page_size
                         (ordered ((if bool_decide (order = "desc")
                                    then "-" else "+") +:+ sort_by)
                            (matching (search_conditions q category min_price
                                         max_price in_stock tags) docs))))
  ∧ (∀ l : list Product,
       ∃ before after,
         l = before ++ page_of skip page_size l ++ after
         ∧ (page_of skip page_size l ≠ [] → len before = skip)).
Proof.
  intros Hp Hs skip.
  assert (Hskip : 0 ≤ skip) by (unfold skip; nia).
  split; [done |]. split; [done |]. split; [done |]. split.
  - intros Hmax.
    split; [| split; [| split]].
    + unfold PathQueryBody.pagination_params, PathQueryBody.PaginationParams_init.
      rewrite !(proj2 (Z.leb_le _ _)) by lia.
      eexists. split; reflexivity.
    + destruct (list_products_basic_returns page page_size docs)
        as (n & _ & _ & ->); [lia | lia |].
      eexists. split; reflexivity.
    + intros filters sort_by order.
      destruct (filter_products_returns filters sort_by order page page_size
                  docs) as (n & _ & _ & ->); [lia | lia |].
      eexists. split; reflexivity.
    + intros q category min_price max_price in_stock tags sort_by order.
      destruct (search_products_returns q category min_price max_price
                  in_stock tags sort_by order page page_size docs)
        as (n & _ & _ & ->); [lia | lia |].
      eexists. split; reflexivity.
  - intros l. by apply page_of_split.
Qed.

End Skip.

Section SkipExamples.
Import Py Search Spec Samples.

Lemma skip_is_pages_before_witness :
  (1 ≤ 2 ∧ 1 ≤ 2)
  ∧ pp_skip (PaginationParams_init 2 2) = 2
  ∧ ∃ r, list_products_basic 2 2 (Online three_docs) = Return r
         ∧ i_id <$> items r = [ObjectId_str 1%N].
Proof.
  split; [lia |].
  destruct (skip_is_pages_before 2 2 three_docs) as (_ & Hs & _ & Hh & _);
    [lia | lia |].
  split; [exact Hs |].
  destruct Hh as (_ & (r & Hr & Hi) & _); [lia |].
  exists r. split; [exact Hr |]. rewrite Hi. reflexivity.
Defined.

End SkipExamples.

(** ** Cursor pagination *)

Section Cursor.
Import Py Search Spec.
Context `{Env}.

Lemma to_list_first (es : list expr) (spec : string) (n : Z)
    (docs : list Product) :
  1 ≤ n →
  to_list (FindMany_limit n (FindMany_sort spec (find es))) (Online docs)
  = Return (take (Z.to_nat n) (ordered spec (matching es docs))).
Proof.
  intros Hn. unfold to_list, limited. simpl.
  destruct (Z.eqb_spec n 0); [lia |]. by rewrite Z.abs_eq by lia.
Qed.

Lemma sort_le_by_id (a b : Product) :
  Is_true (sort_le "+_id" a b) ↔ by_id a b.
Proof.
  unfold by_id. change (sort_le "+_id" a b) with (_id a <=? _id b)%N.
  rewrite Is_true_true. apply N.leb_le.
Qed.

Lemma ordered_by_id (l : list Product) :
  StronglySorted by_id (ordered "+_id" l).
Proof.
  unfold ordered.
  assert (Hs : StronglySorted (λ a b, Is_true (sort_le "+_id" a b))
                 (merge_sort (λ a b, Is_true (sort_le "+_id" a b)) l)).
  { apply StronglySorted_merge_sort.
    - intros a b c. rewrite !sort_le_by_id. unfold by_id. lia.
    - intros a b. rewrite !sort_le_by_id. unfold by_id. lia. }
  induction Hs as [| x l' _ IH Hx]; constructor; [done |].
  eapply Forall_impl; [exact Hx |]. intros y. apply sort_le_by_id.
Qed.

Lemma take_sorted (n : nat) (l : list Product) :
  StronglySorted by_id l → StronglySorted by_id (take n l).
Proof.
  intros Hs. rewrite <- (take_drop n l) in Hs.
  by apply StronglySorted_app_1_l in Hs.
Qed.

(** Every document of the sorted selection is one of the selection. *)
Lemma ordered_matching (spec : string) (es : list expr) (docs : list Product)
    (p : Product) :
  p ∈ ordered spec (matching es docs) →
  p ∈ docs ∧ Forall (λ e, matches e p = true) es.
Proof.
  unfold ordered. rewrite merge_sort_Permutation. unfold matching.
  rewrite list_elem_of_filter. intros [Hm Hp]. split; [done |].
  apply Is_true_true in Hm. rewrite forallb_forall in Hm.
  apply Forall_forall. intros e He. apply Hm. by apply list_elem_of_In.
Qed.

(** What [ObjectId] refuses is refused with an [InvalidId]. *)
Lemma ObjectId_of_str_Raise (s : string) (e : exn) :
  ObjectId_of_str s = Raise e → e = not_valid s.
Proof.
  unfold ObjectId_of_str. destruct (_ =? _)%nat; [| by intros [= <-]].
  destruct (fromhex s); [done | by intros [= <-]].
Qed.

(** The query of the cursor handler for a cursor that it takes: the
    conditions on the documents, the order, and the limit. *)
Lemma list_products_cursor_query_accepted (cursor : option string)
    (limit : Z) (category : option string) :
  cursor_accepted cursor →
  ∃ conditions,
    list_products_cursor_query cursor limit category
    = Return {| find_expressions := [And conditions];
                sort_expression := Some "+_id";
                skip_number := 0; limit_number := limit + 1 |}
    ∧ ∀ after, cursor_reads cursor after →
               conditions = cursor_conditions category after.
Proof.
  intros Hacc. unfold list_products_cursor_query, cursor_accepted in *.
  destruct (truthy cursor) as [s |] eqn:Hc.
  - destruct (Hacc s eq_refl) as [b Hb]. rewrite Hb.
    eexists. split; [reflexivity |].
    intros after Hr. destruct Hr as [c Hnone | c s' b' oid Hs Hb' Hoid];
      [congruence |].
    assert (s' = s) as -> by congruence.
    assert (b' = b) as -> by congruence.
    unfold cursor_conditions, Product_id_gt. by rewrite Hoid.
  - eexists. split; [reflexivity |].
    intros after Hr. destruct Hr as [c Hnone | c s' b' oid Hs Hb' Hoid];
      [| congruence].
    unfold cursor_conditions. simpl. by rewrite app_nil_r.
Qed.


(** A cursor that [ObjectId] refuses is answered 400, and a database that
    fails is answered 500 with the handler's message. *)
Lemma invalid_cursor_is_400 (cursor : option string) (s : string) (e : exn)
    (limit : Z) (category : option string) (db : Database) :
  truthy cursor = Some s → ObjectId_of_str s = Raise e →
  list_products_cursor cursor limit category db
  = Raise (HTTPException 400 (Text "Invalid cursor format")).
Proof.
  intros Hc He. pose proof (ObjectId_of_str_Raise _ _ He) as ->.
  unfold list_products_cursor, list_products_cursor_try,
    list_products_cursor_query.
  rewrite Hc, He. reflexivity.
Qed.

Lemma failing_database_is_500 (cursor : option string) (limit : Z)
    (category : option string) (c : exc_class) (msg : string) :
  cursor_accepted cursor →
  list_products_cursor cursor limit category (Failing c msg)
  = Raise (HTTPException 500 (Text "Failed to retrieve products")).
Proof.
  intros Hacc.
  destruct (list_products_cursor_query_accepted cursor limit category Hacc)
    as (conditions & Hq & _).
  unfold list_products_cursor, list_products_cursor_try.
  rewrite Hq. simpl. by rewrite issubclass_Exception.
Qed.

End Cursor.

Section CursorExamples.
Import Py Search Spec Samples.


End CursorExamples.

(** ** Exception handling *)

Section Exceptions.
Import Py Spec.
Context `{Search.Env}.

Lemma no_http_count (q : Search.FindMany) (db : Search.Database) :
  no_http (Search.count q db).
Proof. destruct db; [apply no_http_Return | apply no_http_Error]. Qed.

Lemma no_http_to_list (q : Search.FindMany) (db : Search.Database) :
  no_http (Search.to_list q db).
Proof.
  destruct db; simpl; [| apply no_http_Error].
  destruct (_ <? 0); [apply no_http_Error | apply no_http_Return].
Qed.

Lemma no_http_aggregate_categories (e : Search.expr) (db : Search.Database) :
  no_http (Search.aggregate_categories e db).
Proof. destruct db; [apply no_http_Return | apply no_http_Error]. Qed.

Lemma no_http_compute_total_pages (total page_size : Z) :
  no_http (Search.compute_total_pages total page_size).
Proof. unfold Search.compute_total_pages. repeat no_http_step. Qed.

Lemma no_http_PaginatedResponse_init {T} (total page page_size total_pages : Z)
    (has_next has_prev : bool) (items : list T) :
  no_http (Search.PaginatedResponse_init total page page_size total_pages
             has_next has_prev items).
Proof. unfold Search.PaginatedResponse_init. repeat no_http_step. Qed.

#[local] Hint Resolve no_http_count no_http_to_list
  no_http_aggregate_categories no_http_compute_total_pages
  no_http_PaginatedResponse_init : no_http.

(** The [try] blocks of the handlers that have no
    [except HTTPException: raise] clause raise no [HTTPException]. *)
Lemma no_http_list_products_basic page page_size db :
  no_http (Search.list_products_basic_try page page_size db).
Proof. unfold Search.list_products_basic_try. repeat no_http_step. Qed.

Lemma no_http_filter_products filters pagination sort_by order db :
  no_http (Search.filter_products_try filters pagination sort_by order db).
Proof. unfold Search.filter_products_try. repeat no_http_step. Qed.

Lemma no_http_search_products q category min_price max_price in_stock tags
    sort_by order page page_size db :
  no_http (Search.search_products_try q category min_price max_price in_stock
             tags sort_by order page page_size db).
Proof. unfold Search.search_products_try. repeat no_http_step. Qed.

Lemma no_http_autocomplete_products q limit db :
  no_http (Search.autocomplete_products_try q limit db).
Proof. unfold Search.autocomplete_products_try. repeat no_http_step. Qed.

Lemma no_http_faceted_search q category page page_size db :
  no_http (Search.faceted_search_try q category page page_size db).
Proof.
  unfold Search.faceted_search_try, Search.to_dict. repeat no_http_step.
Qed.

Lemma no_http_get_product_details product_id :
  no_http (TryExcept.get_product_details_try product_id).
Proof.
  unfold TryExcept.get_product_details_try, TryExcept.get_product_or_fail.
  repeat no_http_step.
Qed.

Lemma no_http_get_product product_id :
  no_http (ErrorHandlers.get_product_try product_id).
Proof. unfold ErrorHandlers.get_product_try. repeat no_http_step. Qed.

Lemma no_http_process_payment amount card_number :
  no_http (ErrorHandlers.process_payment_try amount card_number).
Proof. unfold ErrorHandlers.process_payment_try. repeat no_http_step. Qed.

Lemma no_http_bad_error_handling data :
  no_http (ErrorHandlers.bad_error_handling_try data).
Proof. unfold ErrorHandlers.bad_error_handling_try. repeat no_http_step. Qed.

Lemma no_http_good_error_handling data :
  no_http (ErrorHandlers.good_error_handling_try data).
Proof. unfold ErrorHandlers.good_error_handling_try. repeat no_http_step. Qed.

Lemma no_http_process_item item_id :
  no_http (Logger.process_item_try item_id).
Proof. unfold Logger.process_item_try. repeat no_http_step. Qed.

Lemma no_http_get_item item_id : no_http (Logger.get_item_try item_id).
Proof. unfold Logger.get_item_try. repeat no_http_step. Qed.

Lemma no_http_process_data data : no_http (Logger.process_data_try data).
Proof. unfold Logger.process_data_try. repeat no_http_step. Qed.

(** Either the clauses re-raise it ... *)
Lemma passes_on_reraise (ep : endpoint) :
  (∀ sc d, handle (except_clauses ep) (HTTPException sc d) = HTTPException sc d) →
  passes_on ep.
Proof.
  intros Hh r sc d Hb. unfold run. rewrite Hb, try_except_Raise. by rewrite Hh.
Qed.

(** ... or the block never raises one. *)
Lemma passes_on_no_http (ep : endpoint) :
  (∀ r, no_http (try_block ep r)) → passes_on ep.
Proof. intros Hn r sc d Hb. by destruct (Hn r sc d). Qed.

#[local] Hint Resolve no_http_list_products_basic no_http_filter_products
  no_http_search_products no_http_autocomplete_products
  no_http_faceted_search no_http_get_product_details no_http_get_product
  no_http_process_payment no_http_bad_error_handling
  no_http_good_error_handling no_http_process_item no_http_get_item
  no_http_process_data : no_http.

Ltac passes_on_tac :=
  first
    [ apply passes_on_reraise; intros; reflexivity
    | apply passes_on_no_http; intros r; simpl in r;
      repeat match goal with x : (_ * _)%type |- _ => destruct x end;
      simpl; auto with no_http ].

(** C4: in every route handler that has a [try] statement, an
    [HTTPException] raised in the [try] block leaves the handler as it is,
    with its status code and its detail. *)
Theorem http_exception_propagates_unchanged (ep : endpoint) :
  ep ∈ all_endpoints →
  ∀ r sc d,
    try_block ep r = Raise (HTTPException sc d) →
    run ep r = Raise (HTTPException sc d).
Proof.
  revert ep. apply (proj1 (Forall_forall passes_on all_endpoints)).
  unfold all_endpoints, TryExcept.endpoints, ErrorHandlers.endpoints,
    ErrorIntegration.endpoints, Logger.endpoints, Search.endpoints.
  cbn [app]. repeat apply Forall_cons_2; try apply Forall_nil_2;
    passes_on_tac.
Qed.

(** Which handlers re-raise by a clause of their own: the others rely on
    their [try] block raising no [HTTPException], and their catch-all
    would answer 500 for one. *)
Lemma reraise_clause_present :
  Forall (λ ep, ∀ sc d,
            handle (except_clauses ep) (HTTPException sc d) = HTTPException sc d)
    [ TryExcept.get_product_by_id_ep; TryExcept.create_order_ep;
      TryExcept.get_weather_ep; TryExcept.upload_file_ep;
      TryExcept.create_product_ep; ErrorHandlers.create_user_ep;
      ErrorHandlers.get_order_ep; ErrorIntegration.create_user_ep;
      ErrorIntegration.get_user_ep; ErrorIntegration.get_product_ep;
      ErrorIntegration.process_payment_ep; ErrorIntegration.create_order_ep;
      Search.list_products_cursor_ep; Search.infinite_scroll_ep ].
Proof. repeat apply Forall_cons_2; try apply Forall_nil_2; done. Qed.

Lemma reraise_clause_absent :
  Forall (λ ep, ∀ sc d, ∃ message,
            handle (except_clauses ep) (HTTPException sc d)
            = HTTPException 500 (Text message))
    [ TryExcept.get_product_details_ep; ErrorHandlers.get_product_ep;
      ErrorHandlers.process_payment_ep; ErrorHandlers.bad_error_handling_ep;
      ErrorHandlers.good_error_handling_ep; Logger.process_item_ep;
      Logger.get_item_ep; Logger.process_data_ep;
      Search.list_products_basic_ep; Search.filter_products_ep;
      Search.search_products_ep; Search.autocomplete_products_ep;
      Search.faceted_search_ep ].
Proof.
  repeat apply Forall_cons_2; try apply Forall_nil_2; intros sc d;
    eexists; reflexivity.
Qed.







(** C7: the product-details handler answers an [InvalidProductIDError] of
    the lookup with status 400 and a [ProductNotFoundError] with status
    404, each with the text of the error; and for every product id the
    lookup raises one of the two, so the handler answers 400 for an id
    that is empty or shorter than three characters and 404 otherwise. *)
Theorem domain_errors_have_their_status :
  (∀ msg, handle TryExcept.get_product_details_except
            (Error InvalidProductIDError msg)
          = HTTPException 400 (Text msg))
  ∧ (∀ msg, handle TryExcept.get_product_details_except
              (Error ProductNotFoundError msg)
            = HTTPException 404 (Text msg))
  ∧ ∀ product_id,
      TryExcept.get_product_or_fail product_id
      = (if TryExcept.bad_product_id product_id
         then Raise (Error InvalidProductIDError
                       ("Invalid product ID: " +:+ product_id))
         else Raise (Error ProductNotFoundError
                       ("Product " +:+ product_id +:+ " not found")))
      ∧ TryExcept.get_product_details product_id
        = (if TryExcept.bad_product_id product_id
           then Raise (HTTPException 400
                         (Text ("Invalid product ID: " +:+ product_id)))
           else Raise (HTTPException 404
                         (Text ("Product " +:+ product_id +:+ " not found")))).
Proof.
  split; [done |]. split; [done |]. intros product_id.
  unfold TryExcept.get_product_details, TryExcept.get_product_details_try,
    TryExcept.get_product_or_fail.
  by destruct (TryExcept.bad_product_id product_id).
Qed.

End Exceptions.

Section ExceptionExamples.
Import Py Spec Samples.

Lemma http_exception_propagates_unchanged_witness :
  (TryExcept.get_product_by_id_ep ∈ all_endpoints
   ∧ TryExcept.get_product_by_id_try "ab"
     = Raise (HTTPException 400 (Text "Invalid product ID format")))
  ∧ TryExcept.get_product_by_id "ab"
    = Raise (HTTPException 400 (Text "Invalid product ID format")).
Proof.
  assert (Hin : TryExcept.get_product_by_id_ep ∈ all_endpoints)
    by apply list_elem_of_here.
  split; [split; [exact Hin | reflexivity] |].
  exact (http_exception_propagates_unchanged TryExcept.get_product_by_id_ep
           Hin "ab" 400 (Text "Invalid product ID format") eq_refl).
Defined.



End ExceptionExamples.

(** ** Stock adjustment and computed fields *)

Section Stock.
Import Py ComputedField Spec.

Lemma Qlt_bool_true (x y : Q) : Qlt_bool x y = true ↔ (x < y)%Q.
Proof.
  unfold Qlt_bool. rewrite negb_true_iff. split.
  - intros Hf. apply Qnot_le_lt. intros Hle. apply Qle_bool_iff in Hle.
    congruence.
  - intros Hlt. destruct (Qle_bool y x) eqn:Hle; [| done].
    apply Qle_bool_iff in Hle. by apply Qlt_not_le in Hlt.
Qed.

Lemma Qlt_bool_false (x y : Q) : Qlt_bool x y = false ↔ (y <= x)%Q.
Proof.
  unfold Qlt_bool. rewrite negb_false_iff. apply Qle_bool_iff.
Qed.

(** Construction leaves a product within the bounds of its integer
    fields. *)
Lemma Product_init_bounds `{StrMethods} name category price quantity cost
    low_stock_threshold now (p : Product) :
  Product_init name category price quantity cost low_stock_threshold now
  = Return p →
  0 ≤ ComputedField.quantity p ∧ 0 ≤ ComputedField.low_stock_threshold p.
Proof.
  unfold Product_init, field_bounds.
  destruct (0 <=? quantity) eqn:Hq; [| by rewrite !andb_false_r, ?andb_false_l].
  destruct (0 <=? low_stock_threshold) eqn:Ht; [| by rewrite !andb_false_r].
  destruct (_ && _); [| done].
  unfold validate_profit_margin, update_timestamp. simpl.
  destruct (Qlt_bool _ _); simpl; [done |].
  intros [= <-]. simpl. lia.
Qed.

(** Construction succeeds exactly within the field bounds and with a
    rounded price that is not below the rounded cost, and gives the
    normalised fields. *)
Lemma Product_init_Return `{StrMethods} (n c : string) (pr : Q) (q : Z)
    (co : Q) (thr now : Z) (p : Product) :
  Product_init n c pr q co thr now = Return p ↔
  field_bounds n c pr q co thr = true
  ∧ (round2 co <= round2 pr)%Q
  ∧ p = {| name := normalize_text n; category := normalize_text c;
           price := round2 pr; quantity := q; cost := round2 co;
           low_stock_threshold := thr; last_updated := now |}.
Proof.
  unfold Product_init. destruct (field_bounds n c pr q co thr);
    [| split; [done | by intros (? & _)]].
  unfold validate_profit_margin, update_timestamp, round_money.
  cbn [price cost name category quantity low_stock_threshold last_updated].
  destruct (Qlt_bool (round2 pr) (round2 co)) eqn:Hlt; simpl.
  - apply Qlt_bool_true in Hlt. split; [done |].
    intros (_ & Hle & _). by apply Qlt_not_le in Hlt.
  - apply Qlt_bool_false in Hlt. split.
    + by intros [= <-].
    + by intros (_ & _ & ->).
Qed.

(** The bounds do not depend on a quantity that is not negative. *)
Lemma field_bounds_quantity name category price quantity quantity' cost
    low_stock_threshold :
  field_bounds name category price quantity cost low_stock_threshold = true →
  0 ≤ quantity' →
  field_bounds name category price quantity' cost low_stock_threshold = true.
Proof.
  unfold field_bounds. intros Hb Hq.
  repeat (apply andb_prop in Hb as [Hb ?]).
  repeat (apply andb_true_intro; split); try done.
  by apply Z.leb_le.
Qed.

Section Collection.
Context `{StrMethods}.

Lemma collection_bind_run {A B} (m : M A) (k : A → M B) (db : collection) :
  (m ≫= k) db = match m db with
                | (Return a, db') => k a db'
                | (Raise e, db') => (Raise e, db')
                end.
Proof. reflexivity. Qed.

(** A product that validation leaves as it is has a quantity that is not
    negative, and is left as it is with any other such quantity. *)
Lemma as_validated_quantity (stored : Product) :
  as_validated stored → 0 ≤ quantity stored.
Proof.
  intros Hv. specialize (Hv 0). unfold parse_obj in Hv.
  by apply Product_init_bounds in Hv as [? _].
Qed.

Lemma as_validated_adjusted (stored : Product) (new_quantity t later : Z) :
  as_validated stored → 0 ≤ new_quantity →
  parse_obj
    {| name := name stored; category := category stored;
       price := price stored; quantity := new_quantity; cost := cost stored;
       low_stock_threshold := low_stock_threshold stored;
       last_updated := t |} later
  = Return (set_quantity (update_timestamp later stored) new_quantity).
Proof.
  intros Hv Hq. specialize (Hv later). unfold parse_obj in *.
  apply Product_init_Return in Hv as (Hb & Hm & Heq).
  apply Product_init_Return. simpl.
  split; [by eapply field_bounds_quantity |]. split; [done |].
  unfold update_timestamp in Heq. injection Heq as Hn Hc Hp Hco.
  unfold set_quantity, update_timestamp. simpl. congruence.
Qed.

(** Reading a stored product by an id that reads as [oid]. *)
Lemma Product_get_stored (product_id : string) (oid : Bson.bytes)
    (stored : Product) (now : Z) (db : collection) :
  Bson.ObjectId_of_str product_id = Return oid →
  db !! oid = Some stored →
  Product_get product_id now db
  = (product ← parse_obj stored now; mret (Some (oid, product)), db).
Proof. intros Hid Hget. unfold Product_get. by rewrite Hid, Hget. Qed.


End Collection.


(** C9: for a product whose quantity is within its declared bound
    ([quantity >= 0]), [stock_status] is one of the three names,
    [in_stock] holds exactly when [quantity > 0], and exactly when
    [stock_status] is not ["out_of_stock"]. *)
Theorem computed_fields_agree (p : Product) :
  0 ≤ quantity p →
  (stock_status p = "out_of_stock" ∨ stock_status p = "low_stock"
   ∨ stock_status p = "in_stock")
  ∧ (in_stock p = true ↔ 0 < quantity p)
  ∧ (in_stock p = true ↔ stock_status p ≠ "out_of_stock").
Proof.
  intros Hq. unfold stock_status, in_stock.
  destruct (Z.eqb_spec (quantity p) 0) as [Hz | Hnz].
  - split; [by left |]. rewrite Z.ltb_lt. split; [lia |].
    split; [lia | done].
  - split.
    { destruct (_ <=? _); [right; by left | right; by right]. }
    rewrite Z.ltb_lt. split; [lia |].
    split; [| lia]. intros _. by destruct (_ <=? _).
Qed.

End Stock.

Section StockExamples.
Import Py ComputedField Spec Samples Text.

(** The sample product is stored as validation leaves it, under the
    bytes that its id spells. *)
Lemma gadget_as_validated (quantity : Z) :
  0 ≤ quantity → as_validated (gadget quantity).
Proof.
  intros Hq now. unfold parse_obj. apply Product_init_Return.
  split; [| split; [by vm_compute | reflexivity]].
  apply (field_bounds_quantity _ _ _ 0); [by vm_compute | exact Hq].
Qed.

Lemma gadget_id_reads : Bson.ObjectId_of_str gadget_id = Return gadget_key.
Proof. by vm_compute. Qed.



Lemma computed_fields_agree_witness :
  0 ≤ quantity (widget 3)
  ∧ stock_status (widget 3) = "low_stock" ∧ in_stock (widget 3) = true.
Proof.
  assert (Hq : 0 ≤ quantity (widget 3)) by (simpl; lia).
  split; [exact Hq |].
  destruct (computed_fields_agree (widget 3) Hq) as (_ & Hin & _).
  split; [reflexivity |]. apply Hin. simpl. lia.
Defined.

End StockExamples.

(** ** Schema validation *)

Section SchemaValidation.
Import Py Schemas Spec.







Lemma validated_Return {A} (m : result A) (a : A) :
  validated m = Return a ↔ m = Return a.
Proof. unfold validated. destruct m; simpl; split; congruence. Qed.





Lemma check_gt0_Return (v w : Q) :
  check_gt0 v = Return w ↔ (0 < v)%Q ∧ w = v.
Proof.
  unfold check_gt0. destruct (Qlt_bool 0 v) eqn:Hv.
  - apply Qlt_bool_true in Hv. split; [by intros [= <-] | by intros [_ ->]].
  - apply Qlt_bool_false in Hv. split; [done |].
    intros [Hlt _]. by apply Qlt_not_le in Hlt.
Qed.

Lemma optional_Return {A} (check : A → result A) (v w : option A) :
  optional check v = Return w ↔
  match v with
  | Some x => ∃ x', check x = Return x' ∧ w = Some x'
  | None => w = None
  end.
Proof.
  destruct v as [x |]; simpl.
  - destruct (check x) as [x' | e]; simpl.
    + split; [intros [= <-]; eauto | by intros (? & [= <-] & ->)].
    + split; [done | by intros (? & ? & _)].
  - split; [by intros [= <-] | by intros ->].
Qed.





















End SchemaValidation.

(** ** Module-level data of the header and cookie examples *)

Section ModuleData.
Import Py HeaderCookie Spec.

Lemma bind_run {A B} (m : M A) (k : A → M B) (g : Globals) :
  (m ≫= k) g
  = match m g with
    | (Return a, g') => k a g'
    | (Raise e, g') => (Raise e, g')
    end.
Proof. reflexivity. Qed.

Lemma only_reads_bind {A B} (m : M A) (k : A → M B) :
  only_reads m → (∀ a, only_reads (k a)) → only_reads (m ≫= k).
Proof.
  intros [Hw Hi] Hk. split.
  - intros g. rewrite bind_run. specialize (Hw g).
    destruct (m g) as [[a | e] g']; simpl in Hw; subst g'; [apply Hk | done].
  - intros g sessions. rewrite !bind_run, Hi.
    destruct (m g) as [[a | e] g']; simpl; [apply Hk | done].
Qed.

Lemma only_reads_ret {A} (a : A) : only_reads (mret a : M A).
Proof. done. Qed.

Lemma only_reads_raise {A} (e : exn) : only_reads (raise (A:=A) e).
Proof. done. Qed.

Lemma only_reads_lift {A} (r : result A) : only_reads (lift r).
Proof. done. Qed.

Lemma only_reads_raise_when (cond : bool) (e : exn) :
  only_reads (raise_when cond e).
Proof. by destruct cond. Qed.

Lemma only_reads_load_users : only_reads (load MOCK_USERS).
Proof. done. Qed.

Lemma only_reads_load_keys : only_reads (load VALID_API_KEYS).
Proof. done. Qed.

End ModuleData.

Create HintDb module_data discriminated.
#[export] Hint Resolve only_reads_ret only_reads_raise only_reads_lift
  only_reads_raise_when only_reads_load_users only_reads_load_keys
  : module_data.

Ltac only_reads_step :=
  lazymatch goal with
  | |- Spec.only_reads (mbind _ _) => apply only_reads_bind; [| intros ?]
  | |- Spec.only_reads (if ?b then _ else _) => destruct b
  | |- Spec.only_reads (match ?x with _ => _ end) => destruct x
  | |- _ => solve [auto with module_data]
  end.

Section Routes.
Import Py HeaderCookie Spec.
Context `{Runtime}.

Lemma only_reads_get_token authorization access_token :
  only_reads (get_token authorization access_token).
Proof. unfold get_token. repeat only_reads_step. Qed.

Lemma only_reads_get_current_user token :
  only_reads (get_current_user token).
Proof.
  assert (Ht : only_reads (get_current_user_try token)).
  { unfold get_current_user_try. repeat only_reads_step. }
  destruct Ht as [Hw Hi]. unfold get_current_user. split.
  - intros g. specialize (Hw g).
    by destruct (get_current_user_try token g).
  - intros g sessions. rewrite Hi.
    by destruct (get_current_user_try token g).
Qed.

Lemma only_reads_verify_api_key x_api_key :
  only_reads (verify_api_key x_api_key).
Proof. unfold verify_api_key. repeat only_reads_step. Qed.

Lemma only_reads_get_tenant_id x_tenant_id :
  only_reads (get_tenant_id x_tenant_id).
Proof. unfold get_tenant_id. repeat only_reads_step. Qed.

#[local] Hint Resolve only_reads_get_token only_reads_get_current_user
  only_reads_verify_api_key only_reads_get_tenant_id : module_data.

Lemma only_reads_current_user_dep authorization access_token :
  only_reads (current_user_dep authorization access_token).
Proof. unfold current_user_dep. repeat only_reads_step. Qed.

#[local] Hint Resolve only_reads_current_user_dep : module_data.

Lemma only_reads_RoleChecker allowed_roles authorization access_token :
  only_reads (RoleChecker allowed_roles authorization access_token).
Proof. unfold RoleChecker. repeat only_reads_step. Qed.

Lemma only_reads_require_admin authorization access_token :
  only_reads (require_admin authorization access_token).
Proof. apply only_reads_RoleChecker. Qed.

Lemma only_reads_require_moderator authorization access_token :
  only_reads (require_moderator authorization access_token).
Proof. apply only_reads_RoleChecker. Qed.

#[local] Hint Resolve only_reads_RoleChecker only_reads_require_admin
  only_reads_require_moderator : module_data.

(** The cached settings: the first call fills the cache, a later call
    returns what is cached and changes nothing. *)
Lemma get_settings_run (g : Globals) :
  get_settings g
  = match get_settings_cache g with
    | Some settings => (Return settings, g)
    | None => (Return Settings_init, with_cache g (Some Settings_init))
    end.
Proof. unfold get_settings. by destruct (get_settings_cache g). Qed.

(** What serving a request does to the module-level data, for a handler
    that only reads. *)
Lemma serve_only_reads {A} (m : M A) (g : Globals) :
  only_reads m →
  (let '(a, g') := m g in (answer_of a, g')).2 = g
  ∧ ∀ sessions,
      (let '(a, g') := m (with_sessions g sessions) in (answer_of a, g')).1
      = (let '(a, g') := m g in (answer_of a, g')).1.
Proof.
  intros [Hw Hi]. split.
  - specialize (Hw g). by destruct (m g).
  - intros sessions. rewrite Hi. by destruct (m g).
Qed.

Ltac head_of t :=
  lazymatch t with
  | ?f _ => head_of f
  | _ => t
  end.

(** A route whose handler only reads. *)
Ltac reading_route g m :=
  let H1 := fresh in
  let H2 := fresh in
  destruct (serve_only_reads m g) as [H1 H2];
  [ let h := head_of m in unfold h; repeat only_reads_step
  | split; [left; exact H1 | exact H2] ].

Lemma serve_effect (r : request) (g : Globals) :
  ((serve r g).2 = g
   ∨ (r = Get_config ∧ get_settings_cache g = None
      ∧ (serve r g).2 = with_cache g (Some Settings_init)))
  ∧ ∀ sessions, (serve r (with_sessions g sessions)).1 = (serve r g).1.
Proof.
  destruct r as [ua | ua referer rid | key | tenant | theme | theme
                 | theme language timezone | cart now | credentials now |
                 | auth cookie | auth cookie | key | page limit auth cookie
                 | post auth cookie | post auth cookie | auth cookie |
                 | tenant auth cookie page limit key | ].
  - reading_route g (read_user_agent ua).
  - reading_route g (read_optional_headers ua referer rid).
  - reading_route g (verify_api_key_route key).
  - reading_route g (custom_header_name tenant).
  - reading_route g (get_theme theme).
  - reading_route g (set_theme theme).
  - reading_route g (get_preferences theme language timezone).
  - reading_route g (get_cart cart now).
  - reading_route g (login credentials now).
  - reading_route g logout.
  - reading_route g (get_profile auth cookie).
  - reading_route g (admin_only auth cookie).
  - reading_route g (api_key_route key).
  - reading_route g (list_items page limit auth cookie).
  - reading_route g (delete_post post auth cookie).
  - reading_route g (approve_post post auth cookie).
  - reading_route g (query_database auth cookie).
  - unfold serve, get_config. split.
    + rewrite bind_run, get_settings_run.
      destruct (get_settings_cache g) eqn:Hc; [by left | right; done].
    + intros sessions. rewrite !bind_run, !get_settings_run. simpl.
      by destruct (get_settings_cache g).
  - reading_route g (get_tenant_data tenant auth cookie page limit key).
  - reading_route g root.
Qed.

(** C10, as the code has it: every route of the header and cookie module
    leaves [MOCK_USERS], [MOCK_SESSIONS] and [VALID_API_KEYS] as they are;
    the only module-level data a route changes is the cache of
    [get_settings], which the first request for the configuration fills;
    and the session table has no effect on what any route answers. *)
Theorem routes_write_only_the_settings_cache (r : request) (g : Globals) :
  MOCK_USERS (serve r g).2 = MOCK_USERS g
  ∧ MOCK_SESSIONS (serve r g).2 = MOCK_SESSIONS g
  ∧ VALID_API_KEYS (serve r g).2 = VALID_API_KEYS g
  ∧ ((serve r g).2 = g
     ∨ (r = Get_config ∧ get_settings_cache g = None
        ∧ (serve r g).2 = with_cache g (Some Settings_init)))
  ∧ ∀ sessions, (serve r (with_sessions g sessions)).1 = (serve r g).1.
Proof.
  destruct (serve_effect r g) as [Hstate Hsessions].
  assert (Hfields : MOCK_USERS (serve r g).2 = MOCK_USERS g
                    ∧ MOCK_SESSIONS (serve r g).2 = MOCK_SESSIONS g
                    ∧ VALID_API_KEYS (serve r g).2 = VALID_API_KEYS g).
  { destruct Hstate as [-> | (_ & _ & ->)]; done. }
  destruct Hfields as (? & ? & ?). done.
Qed.

End Routes.

Section ModuleDataExamples.
Import Py HeaderCookie Spec Samples.

(** C10 as stated fails twice.  A write: the first request for the
    configuration stores the settings in the cache of [get_settings],
    where the next request finds them.  A read: what [login] answers
    depends on [MOCK_USERS]. *)
Lemma module_data_is_written_and_read :
  ((serve Get_config initial).2 ≠ initial
   ∧ get_settings_cache (serve Get_config initial).2 = Some Settings_init
   ∧ (serve Get_config (serve Get_config initial).2).2
     = (serve Get_config initial).2)
  ∧ ((login {| lr_username := "john_doe";
               lr_password := "hashed_password_here" |} 0 initial).1
     = Return ({| access_token := "token-for-user-123";
                  token_type := "bearer"; expires_in := 1800 |},
               [set_cookie "access_token" "token-for-user-123" 1800 true true
                  "lax"])
     ∧ (login {| lr_username := "john_doe";
                 lr_password := "hashed_password_here" |} 0
          {| MOCK_USERS := []; MOCK_SESSIONS := MOCK_SESSIONS initial;
             VALID_API_KEYS := VALID_API_KEYS initial;
             get_settings_cache := None |}).1
       = Raise (HTTPException 401 (Text "Incorrect username or password"))).
Proof.
  split; [split; [| split] | split]; try reflexivity.
  intros E. apply (f_equal get_settings_cache) in E. discriminate E.
Qed.

(** A request with the token that [login] gave is answered with the
    profile of the user. *)
Example profile_after_login :
  (get_profile (Some "Bearer token-for-user-123") None initial).1
  = Return (VDict [("user",
                    User_value {| id := "user-123"; username := "john_doe";
                                  email := "john@example.com"; role := admin;
                                  is_active := true |});
                   ("message", VStr "This is your protected profile")]).
Proof. reflexivity. Qed.

End ModuleDataExamples.

(** * Further properties *)

From Stdlib Require OrderedTypeEx.

(** ** Shape of an offset page *)

Section OffsetShape.
Import Py Search Spec Terms.
Context `{Env}.

Lemma page_count_unique (total ps n m : Z) :
  1 ≤ ps → page_count total ps n → page_count total ps m → n = m.
Proof. unfold page_count, is_ceiling. case_decide; [congruence | nia]. Qed.

Lemma page_count_next (total ps n page : Z) :
  1 ≤ ps → 0 ≤ total → 1 ≤ page → page_count total ps n →
  page < n ↔ page * ps < total.
Proof. unfold page_count, is_ceiling. case_decide; intros; subst; nia. Qed.

Lemma ordered_length (spec : string) (l : list Product) :
  len (ordered spec l) = len l.
Proof. unfold ordered, len. by rewrite merge_sort_Permutation. Qed.

Lemma page_of_length (skip ps : Z) (l : list Product) :
  0 ≤ skip → 0 ≤ ps →
  len (page_of skip ps l) = Z.min ps (Z.max 0 (len l - skip)).
Proof.
  intros Hs Hp. unfold page_of, len. rewrite length_take, length_drop. lia.
Qed.

(** The three offset handlers answer an [offset_page]. *)
Lemma offset_handlers_answer (page page_size : Z) (docs : list Product) :
  1 ≤ page → 1 ≤ page_size ≤ 100 →
  (∃ r, list_products_basic page page_size (Online docs) = Return r
        ∧ offset_page ProductListItem_from_document page page_size
            "-created_at" (matching [is_active_eq true] docs) r)
  ∧ (∀ filters sort_by order,
       ∃ r, filter_products filters (PaginationParams_init page page_size)
              sort_by order (Online docs) = Return r
            ∧ offset_page ProductResponse_from_document page page_size
                ((if order is desc then "-" else "+")
                 +:+ SortField_value sort_by)
                (matching (build_conditions filters) docs) r)
  ∧ (∀ q category min_price max_price in_stock tags sort_by order,
       ∃ r, search_products q category min_price max_price in_stock tags
              sort_by order page page_size (Online docs) = Return r
            ∧ offset_page ProductResponse_from_document page page_size
                ((if bool_decide (order = "desc") then "-" else "+")
                 +:+ sort_by)
                (matching (search_conditions q category min_price max_price
                             in_stock tags) docs) r).
Proof.
  intros Hp Hs. split; [| split].
  - destruct (list_products_basic_returns page page_size docs Hp Hs)
      as (n & Hn & Hpc & ->).
    eexists. split; [reflexivity |]. exists n. done.
  - intros filters sort_by order.
    destruct (filter_products_returns filters sort_by order page page_size
                docs Hp Hs) as (n & Hn & Hpc & ->).
    eexists. split; [reflexivity |]. exists n. done.
  - intros q category min_price max_price in_stock tags sort_by order.
    destruct (search_products_returns q category min_price max_price in_stock
                tags sort_by order page page_size docs Hp Hs)
      as (n & Hn & Hpc & ->).
    eexists. split; [reflexivity |]. exists n. done.
Qed.

Lemma offset_page_navigation {T} (f : Product → T) (page ps : Z)
    (spec : string) (found : list Product) (r : PaginatedResponse T) :
  1 ≤ page → 1 ≤ ps → offset_page f page ps spec found r → navigation_ok r.
Proof.
  intros Hp Hs (n & Hn & Hpc & ->). unfold navigation_ok.
  cbn [has_next has_prev Search.page Search.page_size total total_pages].
  rewrite !Z.ltb_lt. split; [| done].
  apply page_count_next; [done | unfold len; lia | done | done].
Qed.

Lemma offset_page_length {T} (f : Product → T) (page ps : Z)
    (spec : string) (found : list Product) (r : PaginatedResponse T) :
  1 ≤ page → 1 ≤ ps → offset_page f page ps spec found r → page_length_ok r.
Proof.
  intros Hp Hs (n & Hn & Hpc & ->). unfold page_length_ok.
  cbn [items Search.page Search.page_size total].
  rewrite <- (ordered_length spec found).
  rewrite <- page_of_length by nia. unfold len. by rewrite length_fmap.
Qed.

(** X1: for a valid request the list, filter and search handlers set
    [has_next] exactly when [page * page_size < total], which is when
    [page < total_pages], and [has_prev] exactly when [page > 1]. *)
Theorem offset_flags_say_what_they_name (page page_size : Z)
    (docs : list Product) :
  1 ≤ page → 1 ≤ page_size ≤ 100 →
  (∃ r, list_products_basic page page_size (Online docs) = Return r
        ∧ Search.page r = page ∧ Search.page_size r = page_size
        ∧ navigation_ok r)
  ∧ (∀ filters sort_by order,
       ∃ r, filter_products filters (PaginationParams_init page page_size)
              sort_by order (Online docs) = Return r
            ∧ Search.page r = page ∧ Search.page_size r = page_size
            ∧ navigation_ok r)
  ∧ (∀ q category min_price max_price in_stock tags sort_by order,
       ∃ r, search_products q category min_price max_price in_stock tags
              sort_by order page page_size (Online docs) = Return r
            ∧ Search.page r = page ∧ Search.page_size r = page_size
            ∧ navigation_ok r).
Proof.
  intros Hp Hs.
  destruct (offset_handlers_answer page page_size docs Hp Hs) as (H1 & H2 & H3).
  split; [| split].
  - destruct H1 as (r & Hr & Ho). exists r. split; [done |].
    split; [by destruct Ho as (? & ? & ? & ->) |].
    split; [by destruct Ho as (? & ? & ? & ->) |].
    eapply offset_page_navigation; [| | exact Ho]; lia.
  - intros filters sort_by order.
    destruct (H2 filters sort_by order) as (r & Hr & Ho).
    exists r. split; [done |].
    split; [by destruct Ho as (? & ? & ? & ->) |].
    split; [by destruct Ho as (? & ? & ? & ->) |].
    eapply offset_page_navigation; [| | exact Ho]; lia.
  - intros q category min_price max_price in_stock tags sort_by order.
    destruct (H3 q category min_price max_price in_stock tags sort_by order)
      as (r & Hr & Ho).
    exists r. split; [done |].
    split; [by destruct Ho as (? & ? & ? & ->) |].
    split; [by destruct Ho as (? & ? & ? & ->) |].
    eapply offset_page_navigation; [| | exact Ho]; lia.
Qed.

(** X2: for a valid request the list, filter and search handlers answer
    [min(page_size, max(0, total - (page - 1) * page_size))] items: a full
    page while enough documents remain, the rest on the last page, and an
    empty page, not an error, beyond the last. *)
Theorem offset_page_has_the_remaining_items (page page_size : Z)
    (docs : list Product) :
  1 ≤ page → 1 ≤ page_size ≤ 100 →
  (∃ r, list_products_basic page page_size (Online docs) = Return r
        ∧ page_length_ok r
        ∧ (total_pages r < page → items r = []))
  ∧ (∀ filters sort_by order,
       ∃ r, filter_products filters (PaginationParams_init page page_size)
              sort_by order (Online docs) = Return r
            ∧ page_length_ok r
            ∧ (total_pages r < page → items r = []))
  ∧ (∀ q category min_price max_price in_stock tags sort_by order,
       ∃ r, search_products q category min_price max_price in_stock tags
              sort_by order page page_size (Online docs) = Return r
            ∧ page_length_ok r
            ∧ (total_pages r < page → items r = [])).
Proof.
  intros Hp Hs.
  assert (Hempty : ∀ T (f : Product → T) spec found r,
            offset_page f page page_size spec found r →
            page_length_ok r ∧ (total_pages r < page → items r = [])).
  { intros T f spec found r Ho.
    assert (Hl : page_length_ok r)
      by (eapply offset_page_length; [| | exact Ho]; lia).
    split; [done |]. intros Hlt. apply length_zero_iff_nil.
    unfold page_length_ok in Hl. destruct Ho as (n & Hn & Hpc & ->).
    cbn [items Search.page Search.page_size total total_pages] in *.
    unfold page_count, is_ceiling in Hpc. unfold len in *.
    case_decide; nia. }
  destruct (offset_handlers_answer page page_size docs Hp Hs) as (H1 & H2 & H3).
  split; [| split].
  - destruct H1 as (r & Hr & Ho). exists r. split; [done |]. by eapply Hempty.
  - intros filters sort_by order.
    destruct (H2 filters sort_by order) as (r & Hr & Ho).
    exists r. split; [done |]. by eapply Hempty.
  - intros q category min_price max_price in_stock tags sort_by order.
    destruct (H3 q category min_price max_price in_stock tags sort_by order)
      as (r & Hr & Ho).
    exists r. split; [done |]. by eapply Hempty.
Qed.

Lemma pages_join (ps : Z) (k : nat) (l : list Product) :
  1 ≤ ps →
  mjoin (pages ps (Z.of_nat k) l) = take (Z.to_nat (Z.of_nat k * ps)) l.
Proof.
  intros Hs. unfold pages. induction k as [| k IH].
  - reflexivity.
  - rewrite seqZ_S, fmap_app, join_app, IH. cbn [fmap list_fmap mjoin list_join].
    rewrite app_nil_r. unfold page_of.
    replace (1 + Z.of_nat k - 1) with (Z.of_nat k) by lia.
    rewrite take_take_drop. f_equal. nia.
Qed.

Lemma pages_cover (ps n : Z) (l : list Product) :
  1 ≤ ps → 0 ≤ n → page_count (len l) ps n → mjoin (pages ps n l) = l.
Proof.
  intros Hs Hn Hpc. rewrite <- (Z2Nat.id n) by done.
  rewrite pages_join by done. apply take_ge.
  unfold page_count, is_ceiling, len in Hpc. case_decide; nia.
Qed.

(** The order on a sort field is total and transitive. *)
Lemma String_leb_trans (a b c : string) :
  String.leb a b = true → String.leb b c = true → String.leb a c = true.
Proof.
  unfold String.leb. intros Hab Hbc.
  destruct (String.compare a b) eqn:Cab; [| | done].
  - apply OrderedTypeEx.String_as_OT.cmp_eq in Cab as ->. exact Hbc.
  - destruct (String.compare b c) eqn:Cbc; [| | done].
    + apply OrderedTypeEx.String_as_OT.cmp_eq in Cbc as <-. by rewrite Cab.
    + apply OrderedTypeEx.String_as_OT.cmp_lt in Cab, Cbc.
      pose proof (OrderedTypeEx.String_as_OT.lt_trans _ _ _ Cab Cbc) as Hac.
      apply OrderedTypeEx.String_as_OT.cmp_lt in Hac.
      unfold OrderedTypeEx.String_as_OT.cmp in Hac. by rewrite Hac.
Qed.

Lemma field_le_total (field : string) (a b : Product) :
  field_le field a b = true ∨ field_le field b a = true.
Proof.
  unfold field_le. repeat case_bool_decide.
  - rewrite !N.leb_le. lia.
  - apply String.leb_total.
  - rewrite !Qle_bool_iff.
    destruct (Qlt_le_dec (price b) (price a)) as [Hlt | Hle];
      [right; by apply Qlt_le_weak | by left].
  - rewrite !Z.leb_le. lia.
  - rewrite !Z.leb_le. lia.
  - by left.
Qed.

Lemma field_le_trans (field : string) (a b c : Product) :
  field_le field a b = true → field_le field b c = true →
  field_le field a c = true.
Proof.
  unfold field_le. repeat case_bool_decide.
  - rewrite !N.leb_le. lia.
  - apply String_leb_trans.
  - rewrite !Qle_bool_iff. apply Qle_trans.
  - rewrite !Z.leb_le. lia.
  - rewrite !Z.leb_le. lia.
  - done.
Qed.

Lemma sort_le_field (spec : string) :
  ∃ field, (∀ a b, sort_le spec a b = field_le field a b)
           ∨ (∀ a b, sort_le spec a b = field_le field b a).
Proof.
  destruct spec as [| [[] [] [] [] [] [] [] []] field];
    first [ by exists ""; left
          | by exists field; right
          | by exists field; left
          | by eexists; left ].
Qed.

Lemma sort_le_total (spec : string) (a b : Product) :
  sort_le spec a b = true ∨ sort_le spec b a = true.
Proof.
  destruct (sort_le_field spec) as [field [Hf | Hf]]; rewrite !Hf;
    apply field_le_total.
Qed.

Lemma sort_le_trans (spec : string) (a b c : Product) :
  sort_le spec a b = true → sort_le spec b c = true →
  sort_le spec a c = true.
Proof.
  destruct (sort_le_field spec) as [field [Hf | Hf]]; rewrite !Hf;
    eauto using field_le_trans.
Qed.

Lemma ordered_sorted (spec : string) (l : list Product) :
  StronglySorted (λ a b, Is_true (sort_le spec a b)) (ordered spec l).
Proof.
  unfold ordered. apply StronglySorted_merge_sort.
  - intros a b c. rewrite !Is_true_true. apply sort_le_trans.
  - intros a b. rewrite !Is_true_true. apply sort_le_total.
Qed.

(** Without ties on the sort field, the sorted selection does not depend
    on the order in which the database holds the documents. *)
Lemma ordered_arranged (spec : string) (l l' : list Product) :
  l' ≡ₚ l → no_ties spec l → ordered spec l' = ordered spec l.
Proof.
  intros Hperm Hties.
  apply (StronglySorted_unique_strong (λ a b, Is_true (sort_le spec a b)));
    [| apply ordered_sorted | apply ordered_sorted
     | unfold ordered; by rewrite !merge_sort_Permutation].
  intros a b Ha Hb Hab Hba. unfold ordered in Ha, Hb.
  rewrite merge_sort_Permutation in Ha, Hb. rewrite Hperm in Ha.
  apply Hties; try done; by apply Is_true_true.
Qed.

Lemma matching_arranged (cs : list expr) (docs docs' : list Product) :
  docs' ≡ₚ docs → matching cs docs' ≡ₚ matching cs docs.
Proof. intros Hperm. unfold matching. by rewrite Hperm. Qed.

(** X3: with a fixed [page_size], while the stored documents do not
    change and no two selected documents are equal on the sort field,
    every page of a handler reports the same [total_pages], in whatever
    order the database holds the documents at each request, and the
    pages [1] to [total_pages], one after the other, are the whole sorted
    selection: no document is skipped and none is shown twice. *)
Theorem offset_pages_cover_the_selection (page_size : Z)
    (docs : list Product) (arranged : Z → list Product) :
  1 ≤ page_size ≤ 100 →
  (∀ page, arranged page ≡ₚ docs) →
  (let found := matching [is_active_eq true] docs in
   let l := ordered "-created_at" found in
   no_ties "-created_at" found →
   ∃ n, (∀ page, 1 ≤ page →
           ∃ r, list_products_basic page page_size (Online (arranged page))
                = Return r
                ∧ total_pages r = n
                ∧ items r
                  = ProductListItem_from_document
                    <$> page_of ((page - 1) * page_size) page_size l)
        ∧ mjoin (pages page_size n l) = l)
  ∧ (∀ filters sort_by order,
       let spec := (if order is desc then "-" else "+")
                   +:+ SortField_value sort_by in
       let found := matching (build_conditions filters) docs in
       let l := ordered spec found in
       no_ties spec found →
       ∃ n, (∀ page, 1 ≤ page →
               ∃ r, filter_products filters
                      (PaginationParams_init page page_size) sort_by order
                      (Online (arranged page)) = Return r
                    ∧ total_pages r = n
                    ∧ items r
                      = ProductResponse_from_document
                        <$> page_of ((page - 1) * page_size) page_size l)
            ∧ mjoin (pages page_size n l) = l)
  ∧ (∀ q category min_price max_price in_stock tags sort_by order,
       let spec := (if bool_decide (order = "desc") then "-" else "+")
                   +:+ sort_by in
       let found := matching (search_conditions q category min_price max_price
                                in_stock tags) docs in
       let l := ordered spec found in
       no_ties spec found →
       ∃ n, (∀ page, 1 ≤ page →
               ∃ r, search_products q category min_price max_price in_stock
                      tags sort_by order page page_size
                      (Online (arranged page))
                    = Return r
                    ∧ total_pages r = n
                    ∧ items r
                      = ProductResponse_from_document
                        <$> page_of ((page - 1) * page_size) page_size l)
            ∧ mjoin (pages page_size n l) = l).
Proof.
  intros Hs Harr.
  assert (Hcount : ∀ found : list Product,
            ∃ n, 1 ≤ n ∧ page_count (len found) page_size n).
  { intros found.
    destruct (compute_total_pages_spec (len found) page_size)
      as (n & _ & Hn & Hpc); [unfold len; lia | lia |]. by exists n. }
  assert (Hcover : ∀ spec found n,
            1 ≤ n → page_count (len found) page_size n →
            mjoin (pages page_size n (ordered spec found)) = ordered spec found).
  { intros spec found n Hn Hpc. apply pages_cover; [lia | lia |].
    by rewrite ordered_length. }
  assert (Hlen : ∀ cs page,
            len (matching cs (arranged page)) = len (matching cs docs)).
  { intros cs page. unfold len.
    by rewrite (matching_arranged cs docs (arranged page) (Harr page)). }
  assert (Hsame : ∀ spec cs page,
            no_ties spec (matching cs docs) →
            ordered spec (matching cs (arranged page))
            = ordered spec (matching cs docs)).
  { intros spec cs page Hties. apply ordered_arranged; [| done].
    apply matching_arranged, Harr. }
  split; [| split].
  - intros found l Hties.
    destruct (Hcount found) as (n & Hn & Hpc).
    exists n. split; [| by apply Hcover].
    intros page Hp.
    destruct (offset_handlers_answer page page_size (arranged page) Hp Hs)
      as ((r & Hr & m & Hm & Hpm & ->) & _).
    eexists. split; [exact Hr |]. cbn [total_pages items].
    rewrite Hlen in Hpm. rewrite Hsame by done.
    split; [| done]. eapply page_count_unique; [| exact Hpm | exact Hpc]. lia.
  - intros filters sort_by order spec found l Hties.
    destruct (Hcount found) as (n & Hn & Hpc).
    exists n. split; [| by apply Hcover].
    intros page Hp.
    destruct (offset_handlers_answer page page_size (arranged page) Hp Hs)
      as (_ & H2 & _).
    destruct (H2 filters sort_by order) as (r & Hr & m & Hm & Hpm & ->).
    eexists. split; [exact Hr |]. cbn [total_pages items].
    rewrite Hlen in Hpm. rewrite Hsame by done.
    split; [| done]. eapply page_count_unique; [| exact Hpm | exact Hpc]. lia.
  - intros q category min_price max_price in_stock tags sort_by order spec
      found l Hties.
    destruct (Hcount found) as (n & Hn & Hpc).
    exists n. split; [| by apply Hcover].
    intros page Hp.
    destruct (offset_handlers_answer page page_size (arranged page) Hp Hs)
      as (_ & _ & H3).
    destruct (H3 q category min_price max_price in_stock tags sort_by order)
      as (r & Hr & m & Hm & Hpm & ->).
    eexists. split; [exact Hr |]. cbn [total_pages items].
    rewrite Hlen in Hpm. rewrite Hsame by done.
    split; [| done]. eapply page_count_unique; [| exact Hpm | exact Hpc]. lia.
Qed.

End OffsetShape.

(** ** What the listings select *)

Section Selection.
Import Py Search Spec Terms.
Context `{Env}.

Lemma bind_Return_inv {A B} (m : result A) (k : A → result B) (b : B) :
  m ≫= k = Return b → ∃ a, m = Return a ∧ k a = Return b.
Proof. destruct m as [a | e]; [eauto | done]. Qed.

Lemma try_except_Return_inv {A} (m : result A) (clauses : list clause)
    (a : A) :
  try_except m clauses = Return a → m = Return a.
Proof. by destruct m. Qed.

(** Whatever [to_list] answers was selected by the query. *)
Lemma to_list_selected (q : FindMany) (db : Database) (l : list Product) :
  to_list q db = Return l →
  ∃ docs, db = Online docs ∧ l ⊆ selected q docs.
Proof.
  destruct db as [docs | c msg]; [| done]. unfold to_list.
  destruct (skip_number q <? 0); [done |]. intros [= <-].
  exists docs. split; [done |]. intros p Hp.
  assert (Hd : p ∈ sorted_by (sort_expression q) (selected q docs)).
  { apply (subseteq_drop (Z.to_nat (skip_number q))).
    unfold limited in Hp. destruct (limit_number q =? 0); [done |].
    by apply subseteq_take in Hp. }
  unfold sorted_by in Hd. destruct (sort_expression q); [| done].
  by rewrite merge_sort_Permutation in Hd.
Qed.

Lemma matching_elem_of (cs : list expr) (docs : list Product) (p : Product) :
  p ∈ matching cs docs ↔ p ∈ docs ∧ ∀ e, e ∈ cs → matches e p = true.
Proof.
  unfold matching. rewrite list_elem_of_filter, Is_true_true, forallb_forall.
  split.
  - intros [H1 H2]. split; [done |]. intros e He. apply H1.
    by apply list_elem_of_In.
  - intros [H1 H2]. split; [| done]. intros e He. apply H2.
    by apply list_elem_of_In.
Qed.

(** A query of one expression that is, or contains, the test
    [is_active == True] selects active documents only. *)
Lemma selected_active (q : FindMany) (e : expr) (docs : list Product)
    (p : Product) :
  find_expressions q = [e] →
  e = is_active_eq true ∨ (∃ cs, e = And cs ∧ is_active_eq true ∈ cs) →
  p ∈ selected q docs → is_active p = true.
Proof.
  intros Hq He Hp. unfold selected in Hp. rewrite Hq in Hp.
  apply list_elem_of_filter in Hp as [Hm _]. simpl in Hm.
  rewrite andb_true_r in Hm. apply Is_true_true in Hm.
  destruct He as [-> | (cs & -> & Hin)].
  - simpl in Hm. by apply bool_decide_eq_true_1 in Hm.
  - simpl in Hm. rewrite forallb_forall in Hm.
    specialize (Hm (is_active_eq true)). simpl in Hm.
    eapply bool_decide_eq_true_1, Hm. by apply list_elem_of_In.
Qed.

Lemma search_conditions_active (q category : option string)
    (min_price max_price : option Q) (in_stock : option bool)
    (tags : list string) :
  is_active_eq true
  ∈ search_conditions q category min_price max_price in_stock tags.
Proof.
  unfold search_conditions. rewrite !elem_of_app. do 6 right.
  apply list_elem_of_here.
Qed.

(** The query of a cursor request holds the test [is_active == True]. *)
Lemma list_products_cursor_query_active (cursor : option string) (limit : Z)
    (category : option string) (query : FindMany) :
  list_products_cursor_query cursor limit category = Return query →
  ∃ cs, find_expressions query = [And cs] ∧ is_active_eq true ∈ cs.
Proof.
  unfold list_products_cursor_query.
  destruct (truthy cursor) as [s |].
  - destruct (ObjectId_of_str s) as [b | e]; [| done].
    intros [= <-]. eexists. split; [reflexivity |]. simpl. left.
  - intros [= <-]. eexists. split; [reflexivity |]. simpl. left.
Qed.

(** X4: the search, cursor and infinite-scroll listings never show an
    inactive product, whatever the request and the stored documents.  The
    faceted listing shows none at all: [query_filter.to_dict()] raises an
    [AttributeError], so that every request is answered 500. *)
Theorem listings_show_only_active_products :
  (∀ q category min_price max_price in_stock tags sort_by order page
     page_size db r,
     search_products q category min_price max_price in_stock tags sort_by
       order page page_size db = Return r →
     Forall (λ item, r_is_active item = true) (items r))
  ∧ (∀ cursor limit category db r,
       list_products_cursor cursor limit category db = Return r →
       Forall (λ item, r_is_active item = true) (c_items r))
  ∧ (∀ last_id limit db r,
       infinite_scroll last_id limit db = Return r →
       Forall (λ item, r_is_active item = true) (s_items r))
  ∧ (∀ q category page page_size db,
       faceted_search q category page page_size db
       = Raise (HTTPException 500 (Text "Faceted search failed"))).
Proof.
  assert (Hshown : ∀ (query : FindMany) e db products,
            find_expressions query = [e] →
            e = is_active_eq true
            ∨ (∃ cs, e = And cs ∧ is_active_eq true ∈ cs) →
            to_list query db = Return products →
            Forall (λ item, r_is_active item = true)
              (ProductResponse_from_document <$> products)).
  { intros query e db products Hq He Hl.
    apply to_list_selected in Hl as (docs & _ & Hsub).
    apply Forall_fmap, Forall_forall. intros p Hp. simpl.
    eapply selected_active; [exact Hq | exact He | by apply Hsub]. }
  split; [| split; [| split]].
  - intros q category min_price max_price in_stock tags sort_by order page
      page_size db r Hr.
    unfold search_products, search_products_try in Hr.
    apply try_except_Return_inv in Hr.
    apply bind_Return_inv in Hr as (total & _ & Hr).
    apply bind_Return_inv in Hr as (n & _ & Hr).
    apply bind_Return_inv in Hr as (products & Hl & Hr).
    unfold PaginatedResponse_init in Hr.
    destruct (_ && _) in Hr; [| done]. injection Hr as <-. cbn [items].
    pose proof (search_conditions_active q category min_price max_price
                  in_stock tags) as Hin.
    destruct (search_conditions q category min_price max_price in_stock tags)
      as [| c cs] eqn:Hcs.
    + eapply Hshown; [| | exact Hl]; [reflexivity | by left].
    + eapply Hshown; [| | exact Hl]; [reflexivity |]. right. eauto.
  - intros cursor limit category db r Hr.
    unfold list_products_cursor, list_products_cursor_try in Hr.
    apply try_except_Return_inv in Hr.
    apply bind_Return_inv in Hr as (query & Hq & Hr).
    apply bind_Return_inv in Hr as (products & Hl & Hr).
    injection Hr as <-. cbn [c_items].
    apply list_products_cursor_query_active in Hq as (cs & Hq & Hin).
    assert (Hall : Forall (λ item, r_is_active item = true)
                     (ProductResponse_from_document <$> products)).
    { eapply Hshown; [exact Hq | | exact Hl]. right. eauto. }
    destruct (limit <? len products); [| done].
    apply Forall_fmap. apply Forall_fmap in Hall.
    rewrite Forall_forall in Hall. apply Forall_forall. intros p Hp.
    apply Hall. unfold slice_to in Hp.
    destruct (0 <=? limit); by apply subseteq_take in Hp.
  - intros last_id limit db r Hr.
    unfold infinite_scroll, infinite_scroll_try in Hr.
    apply try_except_Return_inv in Hr.
    apply bind_Return_inv in Hr as (query & Hq & Hr).
    apply bind_Return_inv in Hr as (products & Hl & Hr).
    injection Hr as <-. cbn [s_items].
    destruct (truthy last_id) as [s |].
    + destruct (ObjectId_of_str s) as [oid | e]; [| done].
      injection Hq as <-.
      eapply Hshown; [| | exact Hl]; [reflexivity |]. right.
      eexists. split; [reflexivity |]. right. left.
    + injection Hq as <-.
      eapply Hshown; [| | exact Hl]; [reflexivity | by left].
  - intros q category page page_size db.
    unfold faceted_search, faceted_search_try.
    destruct (to_list _ db) as [products | e] eqn:Hl.
    + rewrite bind_Return.
      destruct db as [docs | c msg]; [| done].
      unfold count, to_dict. rewrite bind_Return, bind_Raise. reflexivity.
    + rewrite bind_Raise.
      assert (He : isinstance e (E Exception) = true).
      { destruct db as [docs | c msg].
        - unfold to_list in Hl. destruct (_ <? 0); [| done].
          by injection Hl as <-.
        - injection Hl as <-. by rewrite isinstance_Exception. }
      unfold try_except, faceted_search_except, handle. by rewrite He.
Qed.

(** The filters of [ProductFilters] other than [is_active] do not look at
    the flag. *)
Lemma build_conditions_ignore_active (filters : ProductFilters) (b : bool)
    (p : Product) :
  pf_is_active filters = None →
  forallb (λ e, matches e (with_active b p)) (build_conditions filters)
  = forallb (λ e, matches e p) (build_conditions filters).
Proof.
  intros Hnone. unfold build_conditions. rewrite Hnone.
  rewrite !forallb_app.
  destruct (truthy (pf_q filters)), (truthy (pf_category filters)),
    (pf_min_price filters), (pf_max_price filters),
    (pf_in_stock filters) as [[|] |], (pf_tags filters); reflexivity.
Qed.

Lemma matching_with_active (filters : ProductFilters) (b : bool)
    (docs : list Product) :
  pf_is_active filters = None →
  matching (build_conditions filters) (with_active b <$> docs)
  = with_active b <$> matching (build_conditions filters) docs.
Proof.
  intros Hnone. unfold matching. induction docs as [| p docs IH]; [done |].
  rewrite fmap_cons, !filter_cons, IH.
  rewrite build_conditions_ignore_active by done.
  by destruct (decide _).
Qed.

(** X5: the filter listing does not look at [is_active] unless the request
    sets that filter: with every stored product deactivated it reports the
    same total and page count, and answers as many items, all of them
    inactive. *)
Theorem filter_listing_shows_inactive_products (filters : ProductFilters)
    (sort_by : SortField) (order : SortOrder) (page page_size : Z)
    (docs : list Product) :
  1 ≤ page → 1 ≤ page_size ≤ 100 → pf_is_active filters = None →
  ∃ r r',
    filter_products filters (PaginationParams_init page page_size) sort_by
      order (Online docs) = Return r
    ∧ filter_products filters (PaginationParams_init page page_size) sort_by
        order (Online (with_active false <$> docs)) = Return r'
    ∧ total r' = total r
    ∧ total_pages r' = total_pages r
    ∧ len (items r') = len (items r)
    ∧ Forall (λ item, r_is_active item = false) (items r').
Proof.
  intros Hp Hs Hnone.
  destruct (offset_handlers_answer page page_size docs Hp Hs) as (_ & H2 & _).
  destruct (H2 filters sort_by order) as (r & Hr & Ho).
  destruct (offset_handlers_answer page page_size (with_active false <$> docs)
              Hp Hs) as (_ & H2' & _).
  destruct (H2' filters sort_by order) as (r' & Hr' & Ho').
  exists r, r'. split; [done |]. split; [done |].
  assert (Hl : page_length_ok r)
    by (eapply offset_page_length; [| | exact Ho]; lia).
  assert (Hl' : page_length_ok r')
    by (eapply offset_page_length; [| | exact Ho']; lia).
  unfold page_length_ok in Hl, Hl'.
  destruct Ho as (n & Hn & Hpc & ->). destruct Ho' as (n' & Hn' & Hpc' & ->).
  cbn [total total_pages items Search.page Search.page_size] in *.
  rewrite matching_with_active in * by done.
  assert (Hlen : len (with_active false
                      <$> matching (build_conditions filters) docs)
                 = len (matching (build_conditions filters) docs))
    by (unfold len; by rewrite length_fmap).
  rewrite Hlen in *.
  split; [done |].
  split; [eapply page_count_unique; [| exact Hpc' | exact Hpc]; lia |].
  split; [lia |].
  apply Forall_fmap, Forall_forall. intros p Hp'. simpl.
  unfold page_of in Hp'. apply subseteq_take, subseteq_drop in Hp'.
  unfold ordered in Hp'. rewrite merge_sort_Permutation in Hp'.
  by apply list_elem_of_fmap in Hp' as (p0 & -> & _).
Qed.

Lemma no_price_between (cs : list expr) (lo hi : Q) (docs : list Product) :
  price_ge lo ∈ cs → price_le hi ∈ cs → (hi < lo)%Q → matching cs docs = [].
Proof.
  intros Hlo Hhi Hlt. apply elem_of_nil_inv. intros p Hp.
  apply matching_elem_of in Hp as [_ Hm].
  pose proof (Hm _ Hlo) as H1. pose proof (Hm _ Hhi) as H2. simpl in H1, H2.
  apply Qle_bool_iff in H1, H2.
  apply (Qlt_not_le _ _ Hlt). by eapply Qle_trans.
Qed.

Lemma offset_page_of_nothing {T} (f : Product → T) (page ps : Z)
    (spec : string) (r : PaginatedResponse T) :
  1 ≤ page → 1 ≤ ps → offset_page f page ps spec [] r →
  total r = 0 ∧ total_pages r = 1 ∧ has_next r = false ∧ items r = [].
Proof.
  intros Hp Hs (n & Hn & Hpc & ->).
  cbn [total total_pages has_next items].
  assert (n = 1) as -> by (by eapply page_count_unique; [| exact Hpc |]).
  split; [done |]. split; [done |].
  split; [apply Z.ltb_ge; lia |].
  assert (Ho : ordered spec [] = []).
  { apply length_zero_iff_nil. pose proof (ordered_length spec []) as Hl.
    unfold len in Hl. apply Nat2Z.inj in Hl. exact Hl. }
  rewrite Ho. unfold page_of. by rewrite drop_nil, take_nil.
Qed.

(** X6: a price range with [min_price > max_price] is not refused: the
    filter and search listings answer an empty first page with
    [total = 0], [total_pages = 1] and no next page. *)
Theorem contradictory_price_range_is_empty (lo hi : Q) (page page_size : Z)
    (docs : list Product) :
  1 ≤ page → 1 ≤ page_size ≤ 100 → (hi < lo)%Q →
  (∀ filters sort_by order,
     pf_min_price filters = Some lo → pf_max_price filters = Some hi →
     ∃ r, filter_products filters (PaginationParams_init page page_size)
            sort_by order (Online docs) = Return r
          ∧ total r = 0 ∧ total_pages r = 1 ∧ has_next r = false
          ∧ items r = [])
  ∧ (∀ q category in_stock tags sort_by order,
       ∃ r, search_products q category (Some lo) (Some hi) in_stock tags
              sort_by order page page_size (Online docs) = Return r
            ∧ total r = 0 ∧ total_pages r = 1 ∧ has_next r = false
            ∧ items r = []).
Proof.
  intros Hp Hs Hlt.
  destruct (offset_handlers_answer page page_size docs Hp Hs) as (_ & H2 & H3).
  split.
  - intros filters sort_by order Hlo Hhi.
    destruct (H2 filters sort_by order) as (r & Hr & Ho).
    exists r. split; [done |].
    rewrite (no_price_between _ lo hi) in Ho; [| | | done].
    + eapply offset_page_of_nothing; [| | exact Ho]; lia.
    + unfold build_conditions. rewrite Hlo, !elem_of_app.
      right. right. left. left.
    + unfold build_conditions. rewrite Hhi, !elem_of_app.
      right. right. right. left. left.
  - intros q category in_stock tags sort_by order.
    destruct (H3 q category (Some lo) (Some hi) in_stock tags sort_by order)
      as (r & Hr & Ho).
    exists r. split; [done |].
    rewrite (no_price_between _ lo hi) in Ho; [| | | done].
    + eapply offset_page_of_nothing; [| | exact Ho]; lia.
    + unfold search_conditions. rewrite !elem_of_app. right. right. left. left.
    + unfold search_conditions. rewrite !elem_of_app.
      right. right. right. left. left.
Qed.

End Selection.

(** ** Following a cursor *)

Section Continuation.
Import Py Search Spec Terms.
Context `{Env}.

Lemma string_length_app (s1 s2 : string) :
  String.length (s1 +:+ s2) = (String.length s1 + String.length s2)%nat.
Proof. induction s1 as [| c s1 IH]; simpl; [done | by rewrite IH]. Qed.

Lemma to_hex_length (k : nat) (n : N) : String.length (to_hex k n) = k.
Proof.
  revert n. induction k as [| k IH]; intros n; cbn [to_hex]; [done |].
  rewrite string_length_app, IH. simpl. lia.
Qed.

Lemma hex_value_app (acc : N) (s1 s2 : string) :
  hex_value acc (s1 +:+ s2) = hex_value acc s1 ≫= λ a, hex_value a s2.
Proof.
  revert acc. induction s1 as [| c s1 IH]; intros acc; simpl; [done |].
  destruct (hex_digit c); [apply IH | done].
Qed.

Lemma hex_digit_char (d : N) : (d < 16)%N → hex_digit (hex_char d) = Some d.
Proof.
  intros Hd. rewrite <- (N2Nat.id d).
  assert (Hk : (N.to_nat d < 16)%nat) by lia.
  revert Hk. generalize (N.to_nat d). clear Hd. intros k Hk.
  do 16 (destruct k as [| k]; [reflexivity |]). lia.
Qed.

Lemma hex_value_to_hex (k : nat) (n acc : N) :
  (n < 16 ^ N.of_nat k)%N →
  hex_value acc (to_hex k n) = Some (acc * 16 ^ N.of_nat k + n)%N.
Proof.
  revert n acc. induction k as [| k IH]; intros n acc Hn.
  - simpl in *. f_equal. lia.
  - cbn [to_hex]. rewrite hex_value_app.
    rewrite Nat2N.inj_succ, N.pow_succ_r' in Hn |- *.
    rewrite IH by (apply N.Div0.div_lt_upper_bound; lia).
    cbn [mbind option_bind hex_value].
    rewrite hex_digit_char by (apply N.mod_lt; lia).
    f_equal. pose proof (N.div_mod' n 16) as Hdiv.
    set (P := (16 ^ N.of_nat k)%N) in *. lia.
Qed.

Lemma isspace_no_digit (c : ascii) :
  Bson.isspace c = true → hex_digit c = None.
Proof.
  destruct c as [[] [] [] [] [] [] [] []]; vm_compute; congruence.
Qed.

(** A string of hexadecimal digits, two for each byte, is read by
    [bytes.fromhex] as the bytes of the number it spells. *)
Lemma fromhex_hex_value (k : nat) (s : string) (acc n : N) :
  String.length s = (2 * k)%nat → hex_value acc s = Some n →
  ∃ b, fromhex s = Some b ∧ length b = k
       ∧ foldl (λ n byte, 256 * n + byte)%N acc b = n.
Proof.
  revert s acc. induction k as [| k IH]; intros s acc Hlen Hv.
  - destruct s; [| done]. simpl in Hv. injection Hv as <-. by exists [].
  - destruct s as [| c [| c' s]]; simpl in Hlen; try lia.
    cbn [hex_value] in Hv. cbn [fromhex].
    destruct (hex_digit c) as [d |] eqn:Hd; [| done].
    destruct (hex_digit c') as [d' |] eqn:Hd'; [| done].
    destruct (Bson.isspace c) eqn:Hsp;
      [apply isspace_no_digit in Hsp; congruence |].
    destruct (IH s _ ltac:(lia) Hv) as (b & -> & Hb & Hn).
    eexists. split; [reflexivity |]. split; [simpl; lia |].
    cbn [foldl]. rewrite <- Hn. f_equal. lia.
Qed.

(** Printing an id and reading it back gives the id. *)
Lemma ObjectId_of_str_str (oid : ObjectId) :
  valid_id oid →
  ∃ b, ObjectId_of_str (ObjectId_str oid) = Return b
       ∧ ObjectId_of_bytes b = Some oid.
Proof.
  intros Hv. unfold ObjectId_of_str, ObjectId_str.
  rewrite to_hex_length, Nat.eqb_refl.
  destruct (fromhex_hex_value 12 (to_hex 24 oid) 0 oid) as (b & -> & Hb & Hn).
  - by rewrite to_hex_length.
  - rewrite hex_value_to_hex by exact Hv. f_equal; lia.
  - exists b. split; [done |]. unfold ObjectId_of_bytes, number.
    by rewrite Hb, Hn.
Qed.

Lemma cursor_reads_str (oid : ObjectId) :
  valid_id oid → cursor_reads (Some (ObjectId_str oid)) (Some oid).
Proof.
  intros Hv. destruct (ObjectId_of_str_str oid Hv) as (b & Hb & Hoid).
  apply (cursor_at _ (ObjectId_str oid) b); [| done | done].
  pose proof (to_hex_length 24 oid) as Hl. unfold ObjectId_str.
  by destruct (to_hex 24 oid).
Qed.

Lemma cursor_reads_accepted (cursor : option string)
    (after : option ObjectId) :
  cursor_reads cursor after → cursor_accepted cursor.
Proof.
  intros [c Hc | c s b oid Hc Hb Hoid] s' Hs'; [congruence |].
  exists b. congruence.
Qed.

Lemma ids_inj (l : list Product) (a b : Product) :
  NoDup (_id <$> l) → a ∈ l → b ∈ l → _id a = _id b → a = b.
Proof.
  intros Hnd Ha Hb Hab. induction l as [| x l IH]; [by inversion Ha |].
  rewrite fmap_cons, NoDup_cons in Hnd. destruct Hnd as [Hx Hnd].
  apply elem_of_cons in Ha as [-> | Ha]; apply elem_of_cons in Hb as [-> | Hb].
  - done.
  - exfalso. apply Hx. rewrite Hab. by apply list_elem_of_fmap_2.
  - exfalso. apply Hx. rewrite <- Hab. by apply list_elem_of_fmap_2.
  - by apply IH.
Qed.

Lemma ids_filter (P : Product → Prop) `{!∀ p, Decision (P p)}
    (l : list Product) :
  NoDup (_id <$> l) → NoDup (_id <$> filter P l).
Proof.
  intros Hnd. eapply sublist_NoDup; [exact Hnd |].
  apply fmap_sublist, sublist_filter.
Qed.

Lemma ids_ordered (spec : string) (l : list Product) :
  NoDup (_id <$> l) → NoDup (_id <$> ordered spec l).
Proof. unfold ordered. by rewrite merge_sort_Permutation. Qed.

Lemma filter_sorted (P : Product → Prop) `{!∀ p, Decision (P p)}
    (l : list Product) :
  StronglySorted by_id l → StronglySorted by_id (filter P l).
Proof.
  induction 1 as [| x l Hl IH Hx]; [constructor |].
  rewrite filter_cons. destruct (decide (P x)); [| done].
  constructor; [done |]. apply Forall_forall. intros y Hy.
  apply list_elem_of_filter in Hy as [_ Hy].
  by apply (proj1 (Forall_forall _ _) Hx).
Qed.

Lemma filter_none (P : Product → Prop) `{!∀ p, Decision (P p)}
    (l : list Product) :
  (∀ p, p ∈ l → ¬ P p) → filter P l = [].
Proof.
  intros Hn. apply elem_of_nil_inv. intros p Hp.
  apply list_elem_of_filter in Hp as [HP Hp]. by apply (Hn p).
Qed.

Lemma filter_all (P : Product → Prop) `{!∀ p, Decision (P p)}
    (l : list Product) :
  (∀ p, p ∈ l → P p) → filter P l = l.
Proof.
  induction l as [| x l IH]; intros Ha; [done |].
  rewrite filter_cons_True by (apply Ha; left).
  f_equal. apply IH. intros p Hp. apply Ha. by right.
Qed.

(** In a list in strictly ascending order of id, the documents after the
    [k]-th are those with a greater id than the [k]-th. *)
Lemma sorted_split (l : list Product) (k : nat) (p : Product) :
  StronglySorted by_id l → NoDup (_id <$> l) → last (take k l) = Some p →
  filter (λ d, (_id p < _id d)%N) l = drop k l.
Proof.
  intros Hs Hnd Hlast.
  transitivity (filter (λ d, (_id p < _id d)%N) (take k l ++ drop k l));
    [by rewrite take_drop |].
  rewrite filter_app.
  assert (Hp : p ∈ take k l) by (by eapply last_Some_elem_of).
  rewrite filter_none, filter_all; [done | |].
  - intros d Hd.
    assert (Hle : by_id p d).
    { rewrite <- (take_drop k l) in Hs.
      by eapply StronglySorted_app_1_elem_of. }
    assert (Hne : _id p ≠ _id d).
    { intros Heq.
      assert (p = d) as ->.
      { apply (ids_inj l); [done | | | done].
        - by apply (subseteq_take k).
        - by apply (subseteq_drop k). }
      apply NoDup_fmap_1 in Hnd. rewrite <- (take_drop k l) in Hnd.
      apply NoDup_app in Hnd as (_ & Hdis & _). by apply (Hdis d). }
    unfold by_id in Hle. lia.
  - intros d Hd Hlt.
    apply last_Some in Hlast as [l' Hl'].
    pose proof (take_sorted k l Hs) as Hst. rewrite Hl' in Hst, Hd.
    apply elem_of_app in Hd as [Hd | Hd].
    + assert (Hle : by_id d p).
      { eapply StronglySorted_app_1_elem_of; [exact Hst | done | left]. }
      unfold by_id in Hle. lia.
    + apply list_elem_of_singleton in Hd as ->. lia.
Qed.

Lemma ordered_filter_id (x : ObjectId) (found : list Product) :
  NoDup (_id <$> found) →
  ordered "+_id" (filter (λ d, (x < _id d)%N) found)
  = filter (λ d, (x < _id d)%N) (ordered "+_id" found).
Proof.
  intros Hnd. apply (StronglySorted_unique_strong by_id).
  - intros a b Ha Hb Hab Hba.
    unfold ordered in Ha, Hb. rewrite merge_sort_Permutation in Ha.
    apply list_elem_of_filter in Ha as [_ Ha].
    apply list_elem_of_filter in Hb as [_ Hb].
    rewrite merge_sort_Permutation in Hb.
    apply (ids_inj found); [done | done | done |].
    unfold by_id in *. lia.
  - apply ordered_by_id.
  - apply filter_sorted, ordered_by_id.
  - unfold ordered. by rewrite !merge_sort_Permutation.
Qed.

Lemma matching_app (cs1 cs2 : list expr) (docs : list Product) :
  matching (cs1 ++ cs2) docs
  = filter (λ p, Is_true (forallb (λ e, matches e p) cs2)) (matching cs1 docs).
Proof.
  unfold matching. rewrite list_filter_filter. apply list_filter_iff.
  intros p. rewrite forallb_app, andb_True. tauto.
Qed.

Lemma matching_id_gt (cs1 cs2 : list expr) (x : ObjectId)
    (docs : list Product) :
  matching (cs1 ++ [id_gt x] ++ cs2) docs
  = filter (λ d, (x < _id d)%N) (matching (cs1 ++ cs2) docs).
Proof.
  rewrite !matching_app. rewrite list_filter_filter.
  apply list_filter_iff. intros p. rewrite forallb_app, andb_True.
  cbn [forallb matches]. rewrite andb_true_r, Is_true_true, N.ltb_lt. tauto.
Qed.

(** The documents after [p] of a selection that may itself start after an
    id: the earlier bound adds nothing. *)
Lemma matching_after (cs1 cs2 : list expr) (after : option ObjectId)
    (docs : list Product) (p : Product) :
  p ∈ matching (cs1 ++ opt_list after (λ oid, [id_gt oid]) ++ cs2) docs →
  matching (cs1 ++ [id_gt (_id p)] ++ cs2) docs
  = filter (λ d, (_id p < _id d)%N)
      (matching (cs1 ++ opt_list after (λ oid, [id_gt oid]) ++ cs2) docs).
Proof.
  intros Hp. destruct after as [a |]; cbn [opt_list] in *.
  - rewrite !matching_id_gt in *. rewrite list_filter_filter.
    apply list_filter_iff. intros d.
    apply list_elem_of_filter in Hp as [Hp _]. lia.
  - rewrite matching_id_gt. done.
Qed.

(** What the cursor handler answers, written out. *)
Lemma list_products_cursor_returns (cursor : option string) (limit : Z)
    (category : option string) (docs : list Product)
    (after : option ObjectId) :
  1 ≤ limit → cursor_reads cursor after →
  let l := ordered "+_id" (matching (cursor_conditions category after) docs) in
  let products := take (Z.to_nat limit) l in
  let more := limit <? len l in
  list_products_cursor cursor limit category (Online docs)
  = Return {| c_items := ProductResponse_from_document <$> products;
              next_cursor :=
                match last products with
                | Some p => if more then Some (ObjectId_str (_id p)) else None
                | None => None
                end;
              has_more := more;
              c_count := len products |}.
Proof.
  intros Hl Hc l products more.
  unfold list_products_cursor, list_products_cursor_try.
  destruct (list_products_cursor_query_accepted cursor limit category
              (cursor_reads_accepted _ _ Hc)) as (conditions & Hq & Hafter).
  rewrite (Hafter after Hc) in Hq. clear conditions Hafter.
  change {| find_expressions := [And (cursor_conditions category after)];
            sort_expression := Some "+_id";
            skip_number := 0; limit_number := limit + 1 |}
    with (FindMany_limit (limit + 1)
            (FindMany_sort "+_id"
               (find [And (cursor_conditions category after)]))) in Hq.
  rewrite Hq, bind_Return.
  rewrite to_list_first by lia.
  change (matching [And (cursor_conditions category after)] docs)
    with (selected (find [And (cursor_conditions category after)]) docs).
  rewrite selected_And. fold l. rewrite bind_Return.
  set (fetched := take (Z.to_nat (limit + 1)) l).
  assert (Hmore : (limit <? len fetched) = more).
  { unfold more, fetched, len. rewrite length_take.
    destruct (Z.ltb_spec limit (Z.of_nat (length l)));
      [apply Z.ltb_lt | apply Z.ltb_ge]; lia. }
  assert (Hprod : (if limit <? len fetched then slice_to fetched limit
                   else fetched) = products).
  { unfold products, fetched, slice_to.
    rewrite (proj2 (Z.leb_le 0 limit)) by lia.
    destruct (Z.ltb_spec limit (len (take (Z.to_nat (limit + 1)) l)))
      as [Hm | Hm].
    - rewrite take_take. f_equal. lia.
    - unfold len in Hm. rewrite length_take in Hm.
      rewrite !take_ge; [done | lia | lia]. }
  rewrite Hprod, Hmore. reflexivity.
Qed.

(** X7: with unique twelve-byte ids, the [next_cursor] of a cursor page
    leads to the page that follows it: the first request answers the first
    [limit] matching documents in ascending order of id, the request with
    that cursor answers the next [limit] ones, and it reports [has_more]
    exactly when documents remain after those. *)
Theorem next_cursor_continues_the_listing (cursor : option string)
    (limit : Z) (category : option string) (docs : list Product)
    (after : option ObjectId) (r : CursorPaginatedResponse ProductResponse)
    (s : string) :
  1 ≤ limit → cursor_reads cursor after →
  NoDup (_id <$> docs) → Forall (λ p, valid_id (_id p)) docs →
  list_products_cursor cursor limit category (Online docs) = Return r →
  next_cursor r = Some s →
  let l := ordered "+_id" (matching (cursor_conditions category after) docs) in
  c_items r = ProductResponse_from_document <$> take (Z.to_nat limit) l
  ∧ ∃ r', list_products_cursor (Some s) limit category (Online docs)
          = Return r'
          ∧ c_items r'
            = ProductResponse_from_document
              <$> take (Z.to_nat limit) (drop (Z.to_nat limit) l)
          ∧ (has_more r' = true ↔ 2 * limit < len l).
Proof.
  intros Hl Hc Hnd Hvalid Hr Hs l.
  rewrite (list_products_cursor_returns cursor limit category docs after Hl Hc)
    in Hr.
  injection Hr as <-. cbn [c_items next_cursor] in *. fold l in Hs |- *.
  split; [done |].
  destruct (last (take (Z.to_nat limit) l)) as [p |] eqn:Hlast; [| done].
  destruct (limit <? len l); [| done]. injection Hs as <-.
  assert (Hp : p ∈ l).
  { apply (subseteq_take (Z.to_nat limit)). by eapply last_Some_elem_of. }
  pose proof Hp as Hpm. unfold l, ordered in Hpm.
  rewrite merge_sort_Permutation in Hpm.
  assert (Hpd : p ∈ docs) by (by apply matching_elem_of in Hpm as [? _]).
  assert (Hv : valid_id (_id p))
    by (by apply (proj1 (Forall_forall _ _) Hvalid)).
  rewrite (list_products_cursor_returns (Some (ObjectId_str (_id p))) limit
             category docs (Some (_id p)) Hl (cursor_reads_str _ Hv)).
  eexists. split; [reflexivity |]. cbn [c_items has_more].
  assert (Hnext : ordered "+_id"
                    (matching (cursor_conditions category (Some (_id p))) docs)
                  = drop (Z.to_nat limit) l).
  { unfold cursor_conditions in *. cbn [opt_list].
    rewrite <- (app_nil_r [id_gt (_id p)]).
    change ([id_gt (_id p)] ++ []) with ([id_gt (_id p)] ++ @nil expr).
    rewrite (matching_after _ [] after docs p) by (by rewrite app_nil_r).
    rewrite app_nil_r. rewrite ordered_filter_id by (by apply ids_filter).
    apply sorted_split; [apply ordered_by_id | | done].
    by apply ids_ordered, ids_filter. }
  rewrite Hnext. split; [done |].
  rewrite Z.ltb_lt. unfold len. rewrite length_drop. lia.
Qed.

(** What the infinite-scroll handler answers, written out. *)
Lemma infinite_scroll_returns (last_id : option string) (limit : Z)
    (docs : list Product) (after : option ObjectId) :
  1 ≤ limit → cursor_reads last_id after →
  let l := ordered "+_id" (matching (scroll_conditions after) docs) in
  let products := take (Z.to_nat limit) l in
  infinite_scroll last_id limit (Online docs)
  = Return {| s_items := ProductResponse_from_document <$> products;
              s_last_id := (λ p, ObjectId_str (_id p)) <$> last products;
              s_has_more := bool_decide (len products = limit) |}.
Proof.
  intros Hl Hc l products.
  unfold infinite_scroll, infinite_scroll_try.
  assert (Hl' : to_list
                  (FindMany_limit limit
                     (FindMany_sort "+_id"
                        (if after is Some oid
                         then find [And [id_gt oid; is_active_eq true]]
                         else find [is_active_eq true]))) (Online docs)
                = Return products).
  { destruct after as [oid |]; rewrite to_list_first by lia.
    - change (matching [And [id_gt oid; is_active_eq true]] docs)
        with (selected (find [And [id_gt oid; is_active_eq true]]) docs).
      by rewrite selected_And.
    - done. }
  destruct Hc as [c Hc | c s b oid Hc Hb Hoid]; rewrite Hc.
  - rewrite bind_Return, Hl', bind_Return. reflexivity.
  - rewrite Hb, bind_Return. unfold Product_id_gt. rewrite Hoid.
    rewrite try_except_Return, bind_Return, Hl', bind_Return. reflexivity.
Qed.

(** X8: infinite scroll answers the first [limit] active documents after
    [last_id] in ascending order of id, with the id of the last one as
    [last_id].  [has_more] is set exactly when at least [limit] documents
    were there to answer, so also when exactly [limit] were and nothing
    remains. *)
Theorem infinite_scroll_page (last_id : option string) (limit : Z)
    (docs : list Product) (after : option ObjectId) :
  1 ≤ limit → cursor_reads last_id after →
  let l := ordered "+_id" (matching (scroll_conditions after) docs) in
  ∃ r, infinite_scroll last_id limit (Online docs) = Return r
       ∧ s_items r = ProductResponse_from_document <$> take (Z.to_nat limit) l
       ∧ s_last_id r = r_id <$> last (s_items r)
       ∧ (s_has_more r = true ↔ limit ≤ len l)
       ∧ (len l = limit → s_has_more r = true ∧ drop (Z.to_nat limit) l = []).
Proof.
  intros Hl Hc l.
  rewrite (infinite_scroll_returns last_id limit docs after Hl Hc). fold l.
  eexists. split; [reflexivity |]. cbn [s_items s_last_id s_has_more].
  split; [done |].
  split; [rewrite fmap_last; by destruct (last _) |].
  assert (Hlen : len (take (Z.to_nat limit) l) = Z.min limit (len l))
    by (unfold len; rewrite length_take; lia).
  rewrite bool_decide_eq_true, Hlen.
  split; [lia |]. intros Heq. split; [lia |].
  apply drop_ge. unfold len in Heq. lia.
Qed.

(** X9: with unique twelve-byte ids, the [last_id] of an infinite-scroll
    page leads to the page that follows it: the request with that id
    answers the next [limit] active documents. *)
Theorem last_id_continues_the_scroll (last_id : option string) (limit : Z)
    (docs : list Product) (after : option ObjectId)
    (r : InfiniteScrollResponse) (s : string) :
  1 ≤ limit → cursor_reads last_id after →
  NoDup (_id <$> docs) → Forall (λ p, valid_id (_id p)) docs →
  infinite_scroll last_id limit (Online docs) = Return r →
  s_last_id r = Some s →
  let l := ordered "+_id" (matching (scroll_conditions after) docs) in
  s_items r = ProductResponse_from_document <$> take (Z.to_nat limit) l
  ∧ ∃ r', infinite_scroll (Some s) limit (Online docs) = Return r'
          ∧ s_items r'
            = ProductResponse_from_document
              <$> take (Z.to_nat limit) (drop (Z.to_nat limit) l)
          ∧ (s_has_more r' = true ↔ 2 * limit ≤ len l).
Proof.
  intros Hl Hc Hnd Hvalid Hr Hs l.
  rewrite (infinite_scroll_returns last_id limit docs after Hl Hc) in Hr.
  injection Hr as <-. cbn [s_items s_last_id] in *. fold l in Hs |- *.
  split; [done |].
  destruct (last (take (Z.to_nat limit) l)) as [p |] eqn:Hlast; [| done].
  injection Hs as <-.
  assert (Hp : p ∈ l).
  { apply (subseteq_take (Z.to_nat limit)). by eapply last_Some_elem_of. }
  pose proof Hp as Hpm. unfold l, ordered in Hpm.
  rewrite merge_sort_Permutation in Hpm.
  assert (Hpd : p ∈ docs) by (by apply matching_elem_of in Hpm as [? _]).
  assert (Hv : valid_id (_id p))
    by (by apply (proj1 (Forall_forall _ _) Hvalid)).
  rewrite (infinite_scroll_returns (Some (ObjectId_str (_id p))) limit docs
             (Some (_id p)) Hl (cursor_reads_str _ Hv)).
  eexists. split; [reflexivity |]. cbn [s_items s_has_more].
  assert (Hnext : ordered "+_id" (matching (scroll_conditions (Some (_id p)))
                                    docs)
                  = drop (Z.to_nat limit) l).
  { unfold scroll_conditions in *. cbn [opt_list].
    change (matching ([id_gt (_id p)] ++ [is_active_eq true]) docs)
      with (matching ([] ++ [id_gt (_id p)] ++ [is_active_eq true]) docs).
    rewrite (matching_after [] _ after docs p) by exact Hpm.
    cbn [app].
    rewrite ordered_filter_id by (by apply ids_filter).
    apply sorted_split; [apply ordered_by_id | | done].
    by apply ids_ordered, ids_filter. }
  rewrite Hnext. split; [done |].
  rewrite bool_decide_eq_true. unfold len.
  rewrite length_take, length_drop. lia.
Qed.

(** X10: a cursor that has not 24 characters, or that [bytes.fromhex]
    does not read, is answered 400 by both cursor handlers before the
    database is asked, so also while the database fails; with a cursor
    that the handlers take, a failing database is answered 500 with the
    handler's own message. *)
Theorem cursor_errors (cursor : option string) (limit : Z) (db : Database) :
  (∀ s, truthy cursor = Some s →
        String.length s ≠ 24%nat ∨ fromhex s = None →
        (∀ category,
           list_products_cursor cursor limit category db
           = Raise (HTTPException 400 (Text "Invalid cursor format")))
        ∧ infinite_scroll cursor limit db
          = Raise (HTTPException 400 (Text "Invalid last_id")))
  ∧ (∀ c msg, cursor_accepted cursor → db = Failing c msg →
       (∀ category,
          list_products_cursor cursor limit category db
          = Raise (HTTPException 500 (Text "Failed to retrieve products")))
       ∧ infinite_scroll cursor limit db
         = Raise (HTTPException 500 (Text "Failed to load more items"))).
Proof.
  split.
  - intros s Hs Hbad.
    assert (He : ObjectId_of_str s = Raise (not_valid s)).
    { unfold ObjectId_of_str. destruct Hbad as [Hlen | Hhex].
      - apply Nat.eqb_neq in Hlen. by rewrite Hlen.
      - rewrite Hhex. by destruct (_ =? _)%nat. }
    split.
    + intros category. by eapply invalid_cursor_is_400.
    + unfold infinite_scroll, infinite_scroll_try.
      rewrite Hs, He. reflexivity.
  - intros c msg Hacc ->. split.
    + intros category. by eapply failing_database_is_500.
    + unfold infinite_scroll, infinite_scroll_try.
      destruct (truthy cursor) as [s |] eqn:Hc.
      * destruct (Hacc s Hc) as [b Hb]. rewrite Hb. simpl.
        by rewrite issubclass_Exception.
      * simpl. by rewrite issubclass_Exception.
Qed.

End Continuation.

Section ListingExamples.
Import Py Search Spec Terms Samples.

Lemma offset_flags_say_what_they_name_witness :
  (1 ≤ 1 ∧ 1 ≤ 2 ≤ 100)
  ∧ ∃ r, list_products_basic 1 2 (Online three_docs) = Return r
         ∧ page r = 1 ∧ page_size r = 2 ∧ navigation_ok r.
Proof.
  split; [lia |].
  apply (offset_flags_say_what_they_name 1 2 three_docs); lia.
Defined.

Lemma offset_page_has_the_remaining_items_witness :
  (1 ≤ 2 ∧ 1 ≤ 2 ≤ 100)
  ∧ ∃ r, list_products_basic 2 2 (Online three_docs) = Return r
         ∧ page_length_ok r
         ∧ (total_pages r < 2 → items r = []).
Proof.
  split; [lia |].
  apply (offset_page_has_the_remaining_items 2 2 three_docs); lia.
Defined.

Lemma three_docs_no_ties :
  no_ties "-created_at" (matching [is_active_eq true] three_docs).
Proof.
  intros a b Ha Hb Hab Hba.
  change (matching [is_active_eq true] three_docs) with three_docs in Ha, Hb.
  unfold three_docs in Ha, Hb.
  repeat (apply elem_of_cons in Ha as [-> | Ha]);
    repeat (apply elem_of_cons in Hb as [-> | Hb]);
    try done; by apply elem_of_nil in Ha || by apply elem_of_nil in Hb.
Qed.

(** The pages of three documents, which the database holds in another
    order when the second page is asked for. *)
Lemma offset_pages_cover_the_selection_witness :
  let arranged (page : Z) :=
    if page =? 2 then reverse three_docs else three_docs in
  (1 ≤ 2 ≤ 100
   ∧ (∀ page, arranged page ≡ₚ three_docs)
   ∧ no_ties "-created_at" (matching [is_active_eq true] three_docs))
  ∧ let l := ordered "-created_at" (matching [is_active_eq true] three_docs) in
    ∃ n, (∀ page, 1 ≤ page →
            ∃ r, list_products_basic page 2 (Online (arranged page)) = Return r
                 ∧ total_pages r = n
                 ∧ items r
                   = ProductListItem_from_document
                     <$> page_of ((page - 1) * 2) 2 l)
         ∧ mjoin (pages 2 n l) = l.
Proof.
  intros arranged.
  assert (Harr : ∀ page, arranged page ≡ₚ three_docs).
  { intros page. unfold arranged.
    destruct (page =? 2); [apply reverse_Permutation | done]. }
  split; [split; [lia | split; [exact Harr | exact three_docs_no_ties]] |].
  apply (proj1 (offset_pages_cover_the_selection 2 three_docs arranged
                  ltac:(lia) Harr)).
  exact three_docs_no_ties.
Defined.

Lemma listings_show_only_active_products_witness :
  ∃ r, list_products_cursor None 2 None
         (Online [doc 1 "tools" false; doc 2 "toys" true]) = Return r
       ∧ len (c_items r) = 1
       ∧ Forall (λ item, r_is_active item = true) (c_items r).
Proof.
  eexists. split; [vm_compute; reflexivity |]. split; [reflexivity |].
  apply (proj1 (proj2 listings_show_only_active_products) None 2 None
           (Online [doc 1 "tools" false; doc 2 "toys" true])).
  vm_compute. reflexivity.
Defined.

Lemma filter_listing_shows_inactive_products_witness :
  let filters :=
    {| pf_q := None; pf_category := None; pf_min_price := None;
       pf_max_price := None; pf_in_stock := None; pf_tags := [];
       pf_is_active := None |} in
  (1 ≤ 1 ∧ 1 ≤ 2 ≤ 100 ∧ pf_is_active filters = None)
  ∧ ∃ r r',
      filter_products filters (PaginationParams_init 1 2) sf_name asc
        (Online three_docs) = Return r
      ∧ filter_products filters (PaginationParams_init 1 2) sf_name asc
          (Online (with_active false <$> three_docs)) = Return r'
      ∧ total r' = total r
      ∧ total_pages r' = total_pages r
      ∧ len (items r') = len (items r)
      ∧ Forall (λ item, r_is_active item = false) (items r').
Proof.
  intros filters. split; [split; [lia | split; [lia | reflexivity]] |].
  apply (filter_listing_shows_inactive_products filters sf_name asc 1 2
           three_docs); [lia | lia | reflexivity].
Defined.

Lemma contradictory_price_range_is_empty_witness :
  (1 ≤ 1 ∧ 1 ≤ 2 ≤ 100 ∧ (1 < 5)%Q)
  ∧ ∃ r, search_products None None (Some 5%Q) (Some 1%Q) None [] "name" "asc"
           1 2 (Online three_docs) = Return r
         ∧ total r = 0 ∧ total_pages r = 1 ∧ has_next r = false
         ∧ items r = [].
Proof.
  split; [split; [lia | split; [lia | reflexivity]] |].
  apply (contradictory_price_range_is_empty 5 1 1 2 three_docs);
    [lia | lia | reflexivity].
Defined.

Lemma three_docs_ids :
  NoDup (_id <$> three_docs) ∧ Forall (λ p, valid_id (_id p)) three_docs.
Proof.
  split.
  - apply (bool_decide_unpack _). by vm_compute.
  - repeat constructor.
Qed.

Lemma next_cursor_continues_the_listing_witness :
  (1 ≤ 2 ∧ cursor_reads None None)
  ∧ ∃ r', list_products_cursor (Some (ObjectId_str 2%N)) 2 None
            (Online three_docs) = Return r'
          ∧ r_id <$> c_items r' = [ObjectId_str 3%N].
Proof.
  assert (Hc : cursor_reads None None) by (by constructor).
  split; [split; [lia | exact Hc] |].
  destruct three_docs_ids as [Hnd Hv].
  destruct (next_cursor_continues_the_listing None 2 None three_docs None
              _ (ObjectId_str 2%N) ltac:(lia) Hc Hnd Hv
              (list_products_cursor_returns None 2 None three_docs None
                 ltac:(lia) Hc) eq_refl)
    as (_ & r' & Hr' & Hitems & _).
  exists r'. split; [exact Hr' |]. rewrite Hitems. reflexivity.
Defined.

Lemma infinite_scroll_page_witness :
  (1 ≤ 3 ∧ cursor_reads None None)
  ∧ ∃ r, infinite_scroll None 3 (Online three_docs) = Return r
         ∧ len (s_items r) = 3
         ∧ s_has_more r = true.
Proof.
  assert (Hc : cursor_reads None None) by (by constructor).
  split; [split; [lia | exact Hc] |].
  destruct (infinite_scroll_page None 3 three_docs None ltac:(lia) Hc)
    as (r & Hr & Hitems & _ & _ & Hexact).
  exists r. split; [exact Hr |]. split; [by rewrite Hitems |].
  by apply Hexact.
Defined.

Lemma last_id_continues_the_scroll_witness :
  (1 ≤ 2 ∧ cursor_reads None None)
  ∧ ∃ r', infinite_scroll (Some (ObjectId_str 2%N)) 2 (Online three_docs)
          = Return r'
          ∧ r_id <$> s_items r' = [ObjectId_str 3%N]
          ∧ s_has_more r' = false.
Proof.
  assert (Hc : cursor_reads None None) by (by constructor).
  split; [split; [lia | exact Hc] |].
  destruct three_docs_ids as [Hnd Hv].
  destruct (last_id_continues_the_scroll None 2 three_docs None
              _ (ObjectId_str 2%N) ltac:(lia) Hc Hnd Hv
              (infinite_scroll_returns None 2 three_docs None ltac:(lia) Hc)
              eq_refl)
    as (_ & r' & Hr' & Hitems & Hmore).
  exists r'. split; [exact Hr' |]. split; [by rewrite Hitems |].
  destruct (s_has_more r'); [| done].
  exfalso. assert (Hlen : 2 * 2 ≤ 3) by (by apply Hmore). lia.
Defined.

(** [ObjectId] also reads 24 characters of which some are white space:
    the handlers take such a cursor, which spells fewer than twelve
    bytes. *)
Lemma cursor_with_spaces_is_taken :
  cursor_accepted (Some "507f1f77bcf86cd7994390  ")
  ∧ ∃ b, ObjectId_of_str "507f1f77bcf86cd7994390  " = Return b
         ∧ length b = 11%nat ∧ ObjectId_of_bytes b = None.
Proof.
  assert (Hread : ∃ b, ObjectId_of_str "507f1f77bcf86cd7994390  " = Return b
                       ∧ length b = 11%nat ∧ ObjectId_of_bytes b = None)
    by (eexists; by vm_compute).
  split; [| exact Hread].
  intros s [= <-]. destruct Hread as (b & Hb & _). by exists b.
Qed.

Lemma cursor_errors_witness :
  truthy (Some "next") = Some "next"
  ∧ String.length "next" ≠ 24%nat
  ∧ list_products_cursor (Some "next") 5 None
      (Failing ConnectionError "connection refused")
    = Raise (HTTPException 400 (Text "Invalid cursor format")).
Proof.
  split; [reflexivity |]. split; [by vm_compute |].
  apply (proj1 (cursor_errors (Some "next") 5
                  (Failing ConnectionError "connection refused"))
           "next" eq_refl).
  left. by vm_compute.
Defined.

End ListingExamples.

(** ** Outcomes of the handlers *)

Section Outcomes.
Import Py Spec Terms.
Context `{Search.Env}.

(** A chain whose bodies raise [HTTPException]s, or re-raise one, and
    that ends in [except Exception] lets no instance of [Exception] out
    but as an [HTTPException]. *)
Lemma handle_is_http (clauses : list clause) (e : exn) :
  Forall (λ c : clause, ∀ e', isinstance e' c.1 = true → is_http (c.2 e'))
    clauses →
  (∃ body, last clauses = Some (E Exception, body)) →
  isinstance e (E Exception) = true →
  is_http (handle clauses e).
Proof.
  induction clauses as [| [p body] rest IH]; intros Hall [b Hlast] He;
    [done |].
  apply Forall_cons in Hall as [Hhead Hrest].
  cbn [handle]. destruct (isinstance e p) eqn:Hp; [by apply Hhead |].
  destruct rest as [| c rest'].
  - injection Hlast as -> _. congruence.
  - apply IH; [done | by exists b | done].
Qed.

Ltac answered_tac :=
  let e := fresh "e" in
  let He := fresh "He" in
  intros e He; apply handle_is_http;
  [ repeat apply Forall_cons_2; try apply Forall_nil_2;
    intros ? ?; cbn [fst snd] in *;
    try match goal with
        | Hi : isinstance _ E_HTTPException = true |- _ =>
            apply isinstance_HTTPException in Hi as (? & ? & ->)
        end;
    exact I
  | eexists; reflexivity
  | exact He ].

(** X11: whatever instance of [Exception] the [try] block of a route
    handler raises, the handler ends with an [HTTPException], and with
    the value of the block when the block returns: nothing else leaves it
    but an exception that is no instance of [Exception] (a cancellation, a
    keyboard interrupt, an exit), which no clause catches. *)
Theorem every_outcome_is_a_response (ep : endpoint) :
  ep ∈ all_endpoints →
  (∀ e, isinstance e (E Exception) = true →
        is_http (handle (except_clauses ep) e))
  ∧ (∀ block : result (response ep),
       (∀ e, block = Raise e → isinstance e (E Exception) = true) →
       answered (try_except block (except_clauses ep)))
  ∧ (∀ r, (∀ e, try_block ep r = Raise e → isinstance e (E Exception) = true) →
          answered (run ep r))
  ∧ (∀ c msg (block : result (response ep)),
       block = Raise (BaseError c msg) →
       try_except block (except_clauses ep) = Raise (BaseError c msg)).
Proof.
  intros Hin.
  assert (Hhandle : ∀ e, isinstance e (E Exception) = true →
                         is_http (handle (except_clauses ep) e)).
  { revert ep Hin.
    apply (proj1 (Forall_forall
                    (λ ep, ∀ e, isinstance e (E Exception) = true →
                                is_http (handle (except_clauses ep) e))
                    all_endpoints)).
    unfold all_endpoints, TryExcept.endpoints, ErrorHandlers.endpoints,
      ErrorIntegration.endpoints, Logger.endpoints, Search.endpoints.
    cbn [app].
    repeat apply Forall_cons_2; try apply Forall_nil_2; answered_tac. }
  assert (Hblock : ∀ block : result (response ep),
            (∀ e, block = Raise e → isinstance e (E Exception) = true) →
            answered (try_except block (except_clauses ep))).
  { intros [v | e] He; [exact I |].
    rewrite try_except_Raise. apply Hhandle. by apply He. }
  split; [exact Hhandle |]. split; [exact Hblock |].
  split; [intros r; apply Hblock |].
  intros c msg block ->. by rewrite try_except_Raise, handle_BaseError.
Qed.

End Outcomes.

Section TryExceptOutcomes.
Import Py Spec Terms TryExcept.

(** X12: the upload handler returns exactly when the file has a name, can
    be read, is at most 10,000,000 bytes long, and the directory and the
    file can be written; the answer then carries the length as [size] and
    the path as [pathlib] writes it, without empty parts and dots.  A
    file of more bytes is answered 400.  Of the two steps that write, only
    the file write has handlers of its own: a [PermissionError] there is
    answered with the permissions message, while the same error from
    creating the directory is answered "Internal server error". *)
Theorem upload_file_outcomes (file : UploadFile) :
  (∀ v, upload_file file = Return v ↔
        ∃ name content,
          truthy (filename file) = Some name
          ∧ read file = Gives content
          ∧ Z.of_nat (String.length content) ≤ 10000000
          ∧ mkdir file = Gives tt ∧ write file = Gives tt
          ∧ v = VDict [("filename", VStr name);
                       ("size", VInt (Z.of_nat (String.length content)));
                       ("path", VStr (str_Path ("uploads/" +:+ name)))])
  ∧ (∀ name content,
       truthy (filename file) = Some name → read file = Gives content →
       (10000000 < Z.of_nat (String.length content) →
        upload_file file
        = Raise (HTTPException 400
                   (Text "File too large. Max size: 10000000 bytes")))
       ∧ (Z.of_nat (String.length content) ≤ 10000000 →
          (∀ msg, mkdir file = Fails PermissionError msg →
                  upload_file file
                  = Raise (HTTPException 500 (Text "Internal server error")))
          ∧ (∀ msg, mkdir file = Gives tt →
                    write file = Fails PermissionError msg →
                    upload_file file
                    = Raise (HTTPException 500
                               (Text "File save failed - insufficient permissions")))
          ∧ (∀ c msg, mkdir file = Gives tt → write file = Fails c msg →
                      issubclass c OSError = true →
                      issubclass c PermissionError = false →
                      upload_file file
                      = Raise (HTTPException 500 (Text "File save failed"))))).
Proof.
  unfold upload_file, upload_file_try. split.
  - intros v. split.
    + destruct (truthy (filename file)) as [name |]; [| done].
      destruct (read file) as [content | c msg]; [| done].
      cbn [await]. rewrite !bind_Return.
      destruct (Z.ltb_spec 10000000 (Z.of_nat (String.length content)));
        [done |].
      destruct (mkdir file) as [[] | c msg]; [| done].
      destruct (write file) as [[] | c msg].
      * intros [= <-]. by exists name, content.
      * simpl. by repeat case_match.
    + intros (name & content & -> & -> & Hlen & -> & -> & ->).
      cbn [await]. rewrite !bind_Return.
      destruct (Z.ltb_spec 10000000 (Z.of_nat (String.length content)));
        [lia | done].
  - intros name content -> ->. cbn [await]. rewrite !bind_Return.
    split.
    + intros Hbig.
      destruct (Z.ltb_spec 10000000 (Z.of_nat (String.length content)));
        [done | lia].
    + intros Hok.
      destruct (Z.ltb_spec 10000000 (Z.of_nat (String.length content)));
        [lia |].
      split; [| split].
      * by intros msg ->.
      * by intros msg -> ->.
      * intros c msg -> -> Hos Hperm. simpl. by rewrite Hperm, Hos.
Qed.

(** X13: the weather handler passes on the body the service answers and
    maps its failures: a timeout to 504, an error status 404 to 404 naming
    the city, any other error status to 502, a network error to 503, and
    anything else, such as a body that is not JSON, to 500. *)
Theorem get_weather_outcomes (city : string) :
  (∀ body, get_weather city (Json body) = Return body)
  ∧ (∀ sc msg,
       get_weather city (ErrorStatus sc msg)
       = Raise (if decide (sc = 404)
                then HTTPException 404 (Text ("Weather data not found for "
                                              +:+ city))
                else HTTPException 502 (Text "Weather service error")))
  ∧ (∀ c msg,
       issubclass c httpx_TimeoutException = true →
       get_weather city (Unreachable c msg)
       = Raise (HTTPException 504
                  (Text "Weather service is taking too long to respond")))
  ∧ (∀ c msg,
       issubclass c httpx_NetworkError = true →
       get_weather city (Unreachable c msg)
       = Raise (HTTPException 503
                  (Text "Weather service temporarily unavailable")))
  ∧ (∀ c msg,
       issubclass c httpx_TimeoutException = false →
       issubclass c httpx_HTTPStatusError = false →
       issubclass c httpx_NetworkError = false →
       get_weather city (Unreachable c msg)
       = Raise (HTTPException 500 (Text "Internal server error"))).
Proof.
  unfold get_weather, get_weather_try.
  split; [done |]. split; [| split; [| split]].
  - intros sc msg. simpl. case_decide as Hsc; [by subst |].
    f_equal. by repeat case_match.
  - intros c msg Hc. simpl. by rewrite Hc.
  - intros c msg Hc. simpl.
    assert (issubclass c httpx_TimeoutException = false) as ->
      by (by destruct c).
    assert (issubclass c httpx_HTTPStatusError = false) as ->
      by (by destruct c).
    by rewrite Hc.
  - intros c msg H1 H2 H3. simpl. rewrite H1, H2, H3. simpl.
    by rewrite issubclass_Exception.
Qed.

(** X14: the product-creation handler of the exception examples returns
    exactly for a name of 1 to 100 characters, a price of at least 0.01
    and a stock that is not negative; every other input is answered 400,
    a price between 0 and 0.01 with the message of the business rule. *)
Theorem create_product_accepts (data : ProductCreate) :
  let valid :=
    (1 ≤ String.length (c_name data) ≤ 100)%nat
    ∧ (1 # 100 <= c_price data)%Q ∧ 0 ≤ c_stock data in
  ((∃ v, create_product data = Return v) ↔ valid)
  ∧ (¬ valid → status_of (create_product data) = Some 400)
  ∧ ((1 ≤ String.length (c_name data) ≤ 100)%nat → 0 ≤ c_stock data →
     (0 < c_price data)%Q → (c_price data < 1 # 100)%Q →
     create_product data
     = Raise (HTTPException 400 (Text "Price must be at least $0.01"))).
Proof.
  intros valid. unfold create_product, create_product_try, ProductCreate_init.
  destruct (Nat.leb_spec 1 (String.length (c_name data))) as [Hn1 | Hn1];
    [| cbn; unfold valid; split; [split; [by intros [? ?] | lia] |];
       split; [done | lia]].
  destruct (Nat.leb_spec (String.length (c_name data)) 100) as [Hn2 | Hn2];
    [| cbn; unfold valid; split; [split; [by intros [? ?] | lia] |];
       split; [done | lia]].
  destruct (Z.leb_spec 0 (c_stock data)) as [Hs | Hs];
    [| rewrite andb_false_r; cbn; unfold valid;
       split; [split; [by intros [? ?] | lia] |]; split; [done | lia]].
  rewrite andb_true_r. cbn [andb].
  unfold Qlt_bool.
  destruct (Qle_bool (c_price data) 0) eqn:Hp0; cbn.
  - apply Qle_bool_iff in Hp0.
    assert (Hno : ¬ (1 # 100 <= c_price data)%Q).
    { intros Hle. assert (Hc : (1 # 100 <= 0)%Q) by (by eapply Qle_trans).
      by apply Qle_bool_iff in Hc. }
    unfold valid. split; [split; [by intros [? ?] | tauto] |].
    split; [done |]. intros _ _ Hpos. exfalso.
    by apply (Qlt_not_le _ _ Hpos).
  - destruct (Qle_bool (1 # 100) (c_price data)) eqn:Hp1; cbn.
    + apply Qle_bool_iff in Hp1. unfold valid.
      split; [split; [done | eauto] |]. split; [tauto |].
      intros _ _ _ Hlt. exfalso. by apply (Qlt_not_le _ _ Hlt).
    + assert (Hno : ¬ (1 # 100 <= c_price data)%Q).
      { intros Hle. apply Qle_bool_iff in Hle. congruence. }
      unfold valid. split; [split; [by intros [? ?] | tauto] |]. done.
Qed.

End TryExceptOutcomes.

Section OutcomeExamples.
Import Py Spec Terms Samples.

Lemma every_outcome_is_a_response_witness :
  TryExcept.get_product_by_id_ep ∈ all_endpoints
  ∧ isinstance (Error RuntimeError "boom") (E Exception) = true
  ∧ is_http (handle TryExcept.get_product_by_id_except
               (Error RuntimeError "boom"))
  ∧ answered (TryExcept.get_product_by_id "ab").
Proof.
  assert (Hin : TryExcept.get_product_by_id_ep ∈ all_endpoints)
    by apply list_elem_of_here.
  split; [exact Hin |]. split; [reflexivity |].
  destruct (every_outcome_is_a_response TryExcept.get_product_by_id_ep Hin)
    as (Hhandle & _ & Hrun & _).
  split; [exact (Hhandle (Error RuntimeError "boom") eq_refl) |].
  apply (Hrun "ab"). intros e [= <-]. reflexivity.
Defined.

Lemma upload_file_outcomes_witness :
  let file := {| TryExcept.filename := Some "a.txt";
                 TryExcept.read := Gives "hello";
                 TryExcept.mkdir := Fails PermissionError "denied";
                 TryExcept.write := Gives tt |} in
  (truthy (TryExcept.filename file) = Some "a.txt"
   ∧ TryExcept.read file = Gives "hello"
   ∧ Z.of_nat (String.length "hello") ≤ 10000000
   ∧ TryExcept.mkdir file = Fails PermissionError "denied")
  ∧ TryExcept.upload_file file
    = Raise (HTTPException 500 (Text "Internal server error")).
Proof.
  intros file. split; [repeat split; by vm_compute |].
  refine (proj1 (proj2 (proj2 (upload_file_outcomes file) "a.txt" "hello"
                          eq_refl eq_refl) _) "denied" eq_refl).
  by vm_compute.
Defined.

Lemma get_weather_outcomes_witness :
  issubclass httpx_NetworkError httpx_NetworkError = true
  ∧ TryExcept.get_weather "Paris"
      (TryExcept.Unreachable httpx_NetworkError "no route to host")
    = Raise (HTTPException 503 (Text "Weather service temporarily unavailable")).
Proof.
  split; [reflexivity |].
  exact (proj1 (proj2 (proj2 (proj2 (get_weather_outcomes "Paris"))))
           httpx_NetworkError "no route to host" eq_refl).
Defined.

Lemma create_product_accepts_witness :
  let data := {| TryExcept.c_name := "Pen"; TryExcept.c_price := 1 # 200;
                 TryExcept.c_stock := 3 |} in
  ((1 ≤ String.length "Pen" ≤ 100)%nat ∧ 0 ≤ 3
   ∧ (0 < 1 # 200)%Q ∧ (1 # 200 < 1 # 100)%Q)
  ∧ TryExcept.create_product data
    = Raise (HTTPException 400 (Text "Price must be at least $0.01")).
Proof.
  intros data.
  split; [repeat split; first [simpl; lia | by vm_compute] |].
  apply (proj2 (proj2 (create_product_accepts data)));
    first [simpl; lia | by vm_compute].
Defined.

End OutcomeExamples.

(** ** The product collection of the computed-field examples *)

From Stdlib Require Import Lqa.

Section Inventory.
Import Py ComputedField ComputedFieldRoutes Spec Terms.
Context `{StrMethods}.

Lemma set_quantity_same (p : Product) : set_quantity p (quantity p) = p.
Proof. by destruct p. Qed.

(** What validation refuses, it refuses with a [ValidationError]. *)
Lemma parse_obj_Raise (fields : Product) (now : Z) (e : exn) :
  parse_obj fields now = Raise e → ∃ msg, e = Error ValidationError msg.
Proof.
  unfold parse_obj, Product_init.
  destruct (field_bounds _ _ _ _ _ _); [| intros [= <-]; eauto].
  unfold validate_profit_margin. simpl.
  destruct (Qlt_bool _ _); simpl; [intros [= <-]; eauto | done].
Qed.

(** Validation changes no quantity. *)
Lemma parse_obj_quantity (fields product : Product) (now : Z) :
  parse_obj fields now = Return product → quantity product = quantity fields.
Proof.
  unfold parse_obj. by intros (_ & _ & ->)%Product_init_Return.
Qed.

Lemma as_validated_set_quantity (stored : Product) (q t : Z) :
  as_validated stored → 0 ≤ q →
  as_validated (set_quantity (update_timestamp t stored) q).
Proof.
  intros Hv Hq now.
  exact (as_validated_adjusted stored q t now Hv Hq).
Qed.

Lemma all_validated_not_negative (db : collection) :
  all_validated db → stock_not_negative db.
Proof. intros Hv k p Hk. eapply as_validated_quantity, Hv, Hk. Qed.

(** The adjustment of a stored product that validation leaves as it is,
    by a number that the store can hold. *)
Lemma adjust_stock_stored (db : collection) (product_id : string)
    (oid : Bson.bytes) (stored : Product) (adj : StockAdjustment)
    (now later : Z) :
  Bson.ObjectId_of_str product_id = Return oid →
  db !! oid = Some stored →
  as_validated stored →
  int64 (low_stock_threshold stored) = true →
  0 ≤ quantity stored + adjustment adj < 2 ^ 63 →
  adjust_stock product_id adj now later db
  = (Return (oid, set_quantity (update_timestamp later stored)
                    (quantity stored + adjustment adj)),
     <[oid := set_quantity (update_timestamp (stored_time now) stored)
                (quantity stored + adjustment adj)]> db).
Proof.
  intros Hid Hget Hv Ht Hfit. unfold adjust_stock.
  rewrite collection_bind_run, (Product_get_stored _ _ _ _ _ Hid Hget).
  rewrite (Hv now). simpl. rewrite !collection_bind_run. simpl.
  unfold raise_when.
  destruct (Z.ltb_spec (quantity stored + adjustment adj) 0); [lia |].
  simpl. unfold save, to_db. simpl. rewrite Ht, andb_true_r.
  unfold int64.
  destruct (Z.leb_spec (- 2 ^ 63) (quantity stored + adjustment adj)); [| lia].
  destruct (Z.ltb_spec (quantity stored + adjustment adj) (2 ^ 63)); [| lia].
  simpl.
  by rewrite (as_validated_adjusted stored _ _ later Hv) by lia.
Qed.

(** X15: two stock adjustments of one product in a row, neither of which
    makes the quantity negative or too large for the store, leave the
    collection and answer the product as the one adjustment by their sum
    does at the time of the second, whatever the reasons given; after an
    adjustment and its opposite the product is stored as it was, but for
    the time of its last update. *)
Theorem adjustments_add_up (db : collection) (product_id : string)
    (oid : Bson.bytes) (stored : Product) (a b : StockAdjustment)
    (t1 t2 t3 t4 : Z) :
  Bson.ObjectId_of_str product_id = Return oid →
  db !! oid = Some stored →
  as_validated stored →
  int64 (low_stock_threshold stored) = true →
  0 ≤ quantity stored + adjustment a < 2 ^ 63 →
  0 ≤ quantity stored + adjustment a + adjustment b < 2 ^ 63 →
  let after_a := (adjust_stock product_id a t1 t2 db).2 in
  let after_b := adjust_stock product_id b t3 t4 after_a in
  (∀ why,
     after_b
     = adjust_stock product_id
         {| adjustment := adjustment a + adjustment b; reason := why |}
         t3 t4 db)
  ∧ (adjustment b = - adjustment a →
     after_b
     = (Return (oid, update_timestamp t4 stored),
        <[oid := update_timestamp (stored_time t3) stored]> db)).
Proof.
  intros Hid Hget Hv Ht Ha Hb after_a after_b.
  unfold after_b, after_a.
  rewrite (adjust_stock_stored db product_id oid stored a t1 t2) by done.
  cbn [snd].
  rewrite (adjust_stock_stored _ product_id oid
             (set_quantity (update_timestamp (stored_time t1) stored)
                (quantity stored + adjustment a)) b t3 t4);
    [| done | apply lookup_insert_eq
     | apply as_validated_set_quantity; [done | lia] | done | simpl; lia].
  assert (Hins : ∀ x y : Product,
            <[oid := x]> (<[oid := y]> db) = <[oid := x]> db)
    by (intros x y; apply insert_insert_eq).
  rewrite Hins. cbn [quantity set_quantity update_timestamp].
  split.
  - intros why.
    rewrite (adjust_stock_stored db product_id oid stored _ t3 t4);
      [| done | done | done | done | simpl; lia].
    cbn [adjustment]. by rewrite Z.add_assoc.
  - intros Hopp.
    replace (quantity stored + adjustment a + adjustment b)
      with (quantity stored) by lia.
    reflexivity.
Qed.

(** Reading by an id that [ObjectId] reads and that no stored product
    has. *)
Lemma Product_get_missing (product_id : string) (oid : Bson.bytes) (t : Z)
    (db : collection) :
  Bson.ObjectId_of_str product_id = Return oid → db !! oid = None →
  Product_get product_id t db = (Return None, db).
Proof. intros Hid Hget. unfold Product_get. by rewrite Hid, Hget. Qed.

Lemma missing_product_is_404 (product_id : string) (oid : Bson.bytes)
    (db : collection) :
  Bson.ObjectId_of_str product_id = Return oid → db !! oid = None →
  (∀ t, get_product product_id t db
        = (Raise (HTTPException 404 (Text "Product not found")), db))
  ∧ (∀ adj t t', adjust_stock product_id adj t t' db
                 = (Raise (HTTPException 404 (Text "Product not found")), db))
  ∧ (∀ t, delete_product product_id t db
          = (Raise (HTTPException 404 (Text "Product not found")), db)).
Proof.
  intros Hid Hget. unfold get_product, adjust_stock, delete_product.
  repeat split; intros; rewrite !collection_bind_run;
    by rewrite (Product_get_missing _ _ _ _ Hid Hget).
Qed.

Lemma delete_product_run (product_id : string) (now : Z) (db : collection) :
  delete_product product_id now db
  = match Bson.ObjectId_of_str product_id with
    | Raise _ =>
        (Raise (Error ValidationError "Id must be of type PydanticObjectId"),
         db)
    | Return oid =>
        match db !! oid with
        | None => (Raise (HTTPException 404 (Text "Product not found")), db)
        | Some stored =>
            match parse_obj stored now with
            | Return _ => (Return tt, base.delete oid db)
            | Raise e => (Raise e, db)
            end
        end
    end.
Proof.
  unfold delete_product. rewrite collection_bind_run. unfold Product_get.
  destruct (Bson.ObjectId_of_str product_id) as [oid | e]; [| done].
  destruct (db !! oid) as [stored |]; [| done].
  by destruct (parse_obj stored now).
Qed.

(** X16: a product that is stored and that validation accepts is deleted,
    after which reading it, adjusting its stock and deleting it again are
    answered 404, and every other product is as it was.  Deleting a
    product that is not stored is answered 404; an id that [ObjectId]
    does not read, and a stored product that validation refuses, are
    answered with a [ValidationError]; the three change nothing. *)
Theorem deleted_product_is_gone (db : collection) (product_id : string)
    (now : Z) :
  let '(outcome, db') := delete_product product_id now db in
  (∀ oid stored product,
     Bson.ObjectId_of_str product_id = Return oid →
     db !! oid = Some stored → parse_obj stored now = Return product →
     outcome = Return tt
     ∧ (∀ t, get_product product_id t db'
             = (Raise (HTTPException 404 (Text "Product not found")), db'))
     ∧ (∀ adj t t', adjust_stock product_id adj t t' db'
                    = (Raise (HTTPException 404 (Text "Product not found")),
                       db'))
     ∧ (∀ t, delete_product product_id t db'
             = (Raise (HTTPException 404 (Text "Product not found")), db'))
     ∧ db' !! oid = None
     ∧ ∀ other, other ≠ oid → db' !! other = db !! other)
  ∧ (∀ oid, Bson.ObjectId_of_str product_id = Return oid → db !! oid = None →
            outcome = Raise (HTTPException 404 (Text "Product not found"))
            ∧ db' = db)
  ∧ (∀ e, Bson.ObjectId_of_str product_id = Raise e →
          outcome
          = Raise (Error ValidationError "Id must be of type PydanticObjectId")
          ∧ db' = db)
  ∧ (∀ oid stored e,
       Bson.ObjectId_of_str product_id = Return oid →
       db !! oid = Some stored → parse_obj stored now = Raise e →
       (∃ msg, outcome = Raise (Error ValidationError msg)) ∧ db' = db).
Proof.
  pose proof (delete_product_run product_id now db) as Hrun.
  destruct (delete_product product_id now db) as [outcome db'].
  split; [| split; [| split]].
  - intros oid stored product Hid Hget Hp.
    rewrite Hid, Hget, Hp in Hrun. injection Hrun as -> ->.
    assert (Hgone : base.delete oid db !! oid = None)
      by apply lookup_delete_eq.
    destruct (missing_product_is_404 product_id oid _ Hid Hgone)
      as (Hread & Hadjust & Hdelete).
    split; [done |]. split; [exact Hread |]. split; [exact Hadjust |].
    split; [exact Hdelete |]. split; [exact Hgone |].
    intros other Hne. by apply lookup_delete_ne.
  - intros oid Hid Hget. rewrite Hid, Hget in Hrun. by injection Hrun as -> ->.
  - intros e Hid. rewrite Hid in Hrun. by injection Hrun as -> ->.
  - intros oid stored e Hid Hget Hp. rewrite Hid, Hget, Hp in Hrun.
    injection Hrun as -> ->.
    apply parse_obj_Raise in Hp as [msg ->]. eauto.
Qed.

Lemma find_elem_of (q : query) (db : collection) (d : document) :
  d ∈ find q db ↔ db !! d.1 = Some d.2 ∧ satisfies q d.2 = true.
Proof.
  unfold find. rewrite list_elem_of_filter, Is_true_true.
  destruct d as [k p]. cbn [fst snd].
  split; intros [H1 H2]; (split; [| done || by apply elem_of_map_to_list]).
  - by apply elem_of_map_to_list.
  - done.
Qed.

Lemma filter_ext_elem_of {A} (P Q : A → Prop) `{!∀ x, Decision (P x)}
    `{!∀ x, Decision (Q x)} (l : list A) :
  (∀ x, x ∈ l → P x ↔ Q x) → filter P l = filter Q l.
Proof.
  induction l as [| x l IH]; intros Hext; [done |].
  rewrite !filter_cons.
  rewrite IH by (intros y Hy; apply Hext; by right).
  pose proof (Hext x ltac:(left)) as Hx.
  destruct (decide (P x)), (decide (Q x)); tauto || done.
Qed.

(** Reading documents that validation leaves as they are gives them with
    the times at which they are read. *)
Lemma to_list_from_validated (clock : nat → Z) (i : nat)
    (docs : list document) :
  (∀ d, d ∈ docs → as_validated d.2) →
  to_list_from clock i docs
  = Return (imap (λ j d, (d.1, update_timestamp (clock (i + j)%nat) d.2))
              docs).
Proof.
  revert i. induction docs as [| d docs IH]; intros i Hv; [done |].
  cbn [to_list_from]. rewrite (Hv d ltac:(left) (clock i)), bind_Return.
  rewrite IH by (intros d' Hd'; apply Hv; by right).
  rewrite bind_Return. cbn [imap]. rewrite Nat.add_0_r. do 2 f_equal.
  apply imap_ext. intros j d' _. simpl. do 3 f_equal. lia.
Qed.

Lemma to_list_validated (clock : nat → Z) (docs : list document) :
  (∀ d, d ∈ docs → as_validated d.2) →
  to_list clock docs = Return (read_at clock docs).
Proof. intros Hv. unfold to_list. by rewrite to_list_from_validated. Qed.

(** Reading gives as many documents as were selected, or is left by a
    [ValidationError]. *)
Lemma to_list_from_outcome (clock : nat → Z) (i : nat)
    (docs : list document) :
  match to_list_from clock i docs with
  | Return l => length l = length docs
  | Raise e => ∃ msg, e = Error ValidationError msg
  end.
Proof.
  revert i. induction docs as [| d docs IH]; intros i; [done |].
  cbn [to_list_from].
  destruct (parse_obj d.2 (clock i)) as [product | e] eqn:Hp.
  - rewrite bind_Return. specialize (IH (S i)).
    destruct (to_list_from clock (S i) docs) as [l | e]; simpl; [lia | done].
  - rewrite bind_Raise. by eapply parse_obj_Raise.
Qed.

(** A selected document that validation refuses at every time stops the
    reading. *)
Lemma to_list_from_refused (clock : nat → Z) (i : nat)
    (docs : list document) (d : document) :
  d ∈ docs → (∀ t, ∃ e, parse_obj d.2 t = Raise e) →
  ∃ msg, to_list_from clock i docs = Raise (Error ValidationError msg).
Proof.
  intros Hd Hbad. pose proof (to_list_from_outcome clock i docs) as Hout.
  destruct (to_list_from clock i docs) as [l | e] eqn:Hl;
    [| destruct Hout as [msg ->]; eauto].
  exfalso. clear Hout. revert i l Hl.
  induction docs as [| d' docs IH]; intros i l Hl; [by inversion Hd |].
  cbn [to_list_from] in Hl.
  apply elem_of_cons in Hd as [<- | Hd].
  - destruct (Hbad (clock i)) as [e He]. by rewrite He in Hl.
  - destruct (parse_obj d'.2 (clock i)); [| done].
    rewrite bind_Return in Hl.
    destruct (to_list_from clock (S i) docs) as [l' |] eqn:Hl'; [| done].
    by eapply IH.
Qed.

Lemma read_at_status (clock : nat → Z) (docs : list document) (d : document) :
  d ∈ read_at clock docs →
  ∃ d', d' ∈ docs ∧ d.1 = d'.1 ∧ stock_status d.2 = stock_status d'.2
        ∧ in_stock d.2 = in_stock d'.2.
Proof.
  unfold read_at. intros (j & d' & -> & Hj)%elem_of_lookup_imap_1.
  exists d'. split; [by eapply list_elem_of_lookup_2 |]. done.
Qed.

Lemma low_stock_query_status (p : Product) :
  0 ≤ quantity p →
  satisfies low_stock_query p = true ↔ stock_status p = "low_stock".
Proof.
  intros Hq. unfold satisfies, stock_status, low_stock_query. cbn. split.
  - intros Hs. apply andb_true_iff in Hs as [Hgt Hle].
    apply Z.ltb_lt in Hgt.
    destruct (Z.eqb_spec (quantity p) 0); [lia |]. by rewrite Hle.
  - destruct (Z.eqb_spec (quantity p) 0); [done |].
    destruct (quantity p <=? low_stock_threshold p); [| done].
    intros _. rewrite andb_true_r. apply Z.ltb_lt. lia.
Qed.

Lemma out_of_stock_query_status (p : Product) :
  satisfies out_of_stock_query p = true ↔ stock_status p = "out_of_stock".
Proof.
  unfold satisfies, stock_status, out_of_stock_query. cbn.
  rewrite andb_true_r. split.
  - by intros ->.
  - destruct (quantity p =? 0); [done |].
    by destruct (quantity p <=? low_stock_threshold p).
Qed.

(** X17: while every stored product is as validation leaves it, the
    low-stock report answers exactly the stored products whose computed
    [stock_status] is "low_stock" and the out-of-stock report exactly
    those whose status is "out_of_stock", each as it is read, with that
    status; no product is in both reports and none is listed twice.  A
    stored product that a report selects and that validation refuses
    makes the report fail with a [ValidationError]. *)
Theorem stock_reports_agree_with_status (clock : nat → Z) (db : collection) :
  (all_validated db →
   ∃ low out,
     get_low_stock_products clock db = Return (read_at clock low)
     ∧ get_out_of_stock_products clock db = Return (read_at clock out)
     ∧ (∀ d, d ∈ low
             ↔ db !! d.1 = Some d.2 ∧ stock_status d.2 = "low_stock")
     ∧ (∀ d, d ∈ out
             ↔ db !! d.1 = Some d.2 ∧ stock_status d.2 = "out_of_stock")
     ∧ (∀ d, d ∈ read_at clock low → stock_status d.2 = "low_stock")
     ∧ (∀ d, d ∈ read_at clock out → stock_status d.2 = "out_of_stock")
     ∧ (∀ d, d ∈ low → d ∉ out)
     ∧ NoDup low ∧ NoDup out)
  ∧ (∀ k p, db !! k = Some p → (∀ t, ∃ e, parse_obj p t = Raise e) →
       (satisfies low_stock_query p = true →
        ∃ msg, get_low_stock_products clock db
               = Raise (Error ValidationError msg))
       ∧ (satisfies out_of_stock_query p = true →
          ∃ msg, get_out_of_stock_products clock db
                 = Raise (Error ValidationError msg))).
Proof.
  split.
  - intros Hv. pose proof (all_validated_not_negative db Hv) as Hinv.
    exists (find low_stock_query db), (find out_of_stock_query db).
    assert (Hlow : ∀ d, d ∈ find low_stock_query db
                        ↔ db !! d.1 = Some d.2
                          ∧ stock_status d.2 = "low_stock").
    { intros d. rewrite find_elem_of. split; intros [Hd Hs];
        (split; [done |]); apply low_stock_query_status; eauto. }
    assert (Hout : ∀ d, d ∈ find out_of_stock_query db
                        ↔ db !! d.1 = Some d.2
                          ∧ stock_status d.2 = "out_of_stock").
    { intros d. rewrite find_elem_of. split; intros [Hd Hs];
        (split; [done |]); by apply out_of_stock_query_status. }
    split.
    { apply to_list_validated. intros d [Hd _]%find_elem_of. eauto. }
    split.
    { apply to_list_validated. intros d [Hd _]%find_elem_of. eauto. }
    split; [exact Hlow |]. split; [exact Hout |].
    split.
    { intros d (d' & Hd' & _ & -> & _)%read_at_status.
      by apply Hlow in Hd' as [_ ?]. }
    split.
    { intros d (d' & Hd' & _ & -> & _)%read_at_status.
      by apply Hout in Hd' as [_ ?]. }
    split.
    { intros d Hd Hd'. apply Hlow in Hd as [_ Hs].
      apply Hout in Hd' as [_ Hs']. congruence. }
    split; apply NoDup_filter, NoDup_map_to_list.
  - intros k p Hk Hbad. split; intros Hs;
      apply (to_list_from_refused clock 0 _ (k, p)); try done;
      by apply find_elem_of.
Qed.

(** X18: the listing filters on the stored [quantity] in place of the
    computed [in_stock], and the two agree: every product on a page of a
    request with [in_stock_only] has that value of [in_stock], and, while
    no stored quantity is negative, the number that the handler counts is
    the number of stored products that pass the other filters and have
    it.  The handler then passes the documents of the page where
    [ProductListResponse] wants [ProductResponse] objects: it answers an
    empty page, with that count as [total], and is left by a
    [ValidationError] when the page has a product. *)
Theorem in_stock_filter_agrees_with_computed_field (category : option string)
    (min_price max_price : option Q) (wanted : bool) (page page_size : Z)
    (clock : nat → Z) (db : collection) :
  1 ≤ page → 1 ≤ page_size →
  let query := list_products_query category min_price max_price (Some wanted) in
  let on_page :=
    take (Z.to_nat page_size)
      (drop (Z.to_nat ((page - 1) * page_size)) (find query db)) in
  let outcome :=
    list_products category min_price max_price (Some wanted) page page_size
      clock db in
  Forall (λ d : document, db !! d.1 = Some d.2 ∧ in_stock d.2 = wanted) on_page
  ∧ len on_page ≤ page_size
  ∧ (stock_not_negative db →
     len (find query db)
     = len (filter (λ d : document, in_stock d.2 = wanted)
              (find (listing_query category min_price max_price) db)))
  ∧ (on_page = [] →
     outcome = Return {| total := len (find query db); page := page;
                         page_size := page_size; products := [] |})
  ∧ (on_page ≠ [] → ∃ msg, outcome = Raise (Error ValidationError msg)).
Proof.
  intros Hp Hs query on_page outcome.
  assert (Hq : ∀ p, satisfies query p = true →
                    satisfies (listing_query category min_price max_price) p
                    = true ∧ in_stock p = wanted).
  { intros p. unfold satisfies, in_stock, query, list_products_query,
      listing_query. cbn.
    rewrite !andb_true_r. intros [Hrest Hqty]%andb_true_iff.
    split; [done |]. destruct wanted; [done |].
    apply Z.eqb_eq in Hqty. rewrite Hqty. done. }
  split; [| split; [| split; [| split]]].
  - apply Forall_forall. intros d Hd.
    apply subseteq_take, subseteq_drop in Hd.
    apply find_elem_of in Hd as [Hd Hsat]. split; [done |].
    by apply Hq.
  - unfold on_page, len. rewrite length_take. lia.
  - intros Hinv. f_equal. f_equal. unfold find.
    rewrite list_filter_filter. apply filter_ext_elem_of.
    intros [k p] Hk. apply elem_of_map_to_list in Hk.
    specialize (Hinv _ _ Hk). cbn [snd]. rewrite !Is_true_true. split.
    + intros Hsat. apply Hq in Hsat. tauto.
    + intros [Hin Hsat].
      unfold satisfies, in_stock, query, list_products_query, listing_query
        in *. cbn in *.
      rewrite !andb_true_r in *. rewrite Hsat. cbn.
      destruct wanted; [done |]. apply Z.eqb_eq.
      apply Z.ltb_ge in Hin. lia.
  - intros Hempty. unfold outcome, list_products. fold query. fold on_page.
    by rewrite Hempty.
  - intros Hsome. unfold outcome, list_products. fold query. fold on_page.
    unfold to_list.
    pose proof (to_list_from_outcome clock 0 on_page) as Hout.
    destruct (to_list_from clock 0 on_page) as [l | e].
    + rewrite bind_Return. unfold ProductListResponse_init.
      destruct l as [| d l]; [| eauto].
      destruct on_page; [done | simpl in Hout; lia].
    + rewrite bind_Raise. destruct Hout as [msg ->]. eauto.
Qed.

End Inventory.

Section Construction.
Import Py ComputedField ComputedFieldRoutes Terms.

Lemma round_half_even_between (y : Q) :
  Qfloor y ≤ round_half_even y ≤ Qfloor y + 1.
Proof.
  unfold round_half_even.
  destruct (_ ?= _)%Q; [destruct (Z.even _) | |]; lia.
Qed.

Lemma round_half_even_nonneg (y : Q) : (0 <= y)%Q → 0 ≤ round_half_even y.
Proof.
  intros Hy. pose proof (round_half_even_between y) as Hb.
  pose proof (Qfloor_resp_le 0 y Hy) as Hf.
  change (Qfloor 0) with 0 in Hf. lia.
Qed.

Lemma round_half_even_le (y : Q) (n : Z) :
  (y <= inject_Z n)%Q → round_half_even y ≤ n.
Proof.
  intros Hy. pose proof (Qfloor_resp_le _ _ Hy) as Hf.
  rewrite Qfloor_Z in Hf. unfold round_half_even.
  destruct (Z.eq_dec (Qfloor y) n) as [Heq | Hne].
  - rewrite <- Heq in Hy.
    destruct (Qcompare_spec (y - inject_Z (Qfloor y)) (1 # 2));
      [exfalso; lra | lia | exfalso; lra].
  - destruct (_ ?= _)%Q; [destruct (Z.even _) | |]; lia.
Qed.

Lemma round2_nonneg (x : Q) : (0 <= x)%Q → (0 <= round2 x)%Q.
Proof.
  intros Hx. unfold round2.
  assert (Hn : 0 ≤ round_half_even (x * 100))
    by (apply round_half_even_nonneg; lra).
  rewrite Zle_Qle in Hn. change (inject_Z 0) with 0%Q in Hn.
  apply Qle_shift_div_l; [done |]. lra.
Qed.

Lemma round2_le (x : Q) (n : Z) : (x <= inject_Z n)%Q → (round2 x <= inject_Z n)%Q.
Proof.
  intros Hx. unfold round2.
  assert (Hn : round_half_even (x * 100) ≤ n * 100).
  { apply round_half_even_le. rewrite inject_Z_mult.
    change (inject_Z 100) with 100%Q. lra. }
  rewrite Zle_Qle, inject_Z_mult in Hn. change (inject_Z 100) with 100%Q in Hn.
  apply Qle_shift_div_r; [done |]. lra.
Qed.

(** X19: a product as constructed has a cost that is not negative and a
    price that is at least the cost (after rounding to hundredths, so the
    price itself may be zero), a quantity and a threshold that are not
    negative, the time of construction as [last_updated], a profit margin
    between 0 and 100 and a total value that is not negative. *)
Theorem constructed_product_is_sound `{StrMethods} (n c : string) (pr : Q)
    (q : Z) (co : Q) (thr now : Z) (p : Product) :
  Product_init n c pr q co thr now = Return p →
  price p = round2 pr ∧ cost p = round2 co
  ∧ (0 <= cost p)%Q ∧ (cost p <= price p)%Q
  ∧ 0 ≤ quantity p ∧ 0 ≤ low_stock_threshold p
  ∧ last_updated p = now
  ∧ (0 <= profit_margin p)%Q ∧ (profit_margin p <= 100)%Q
  ∧ (0 <= total_value p)%Q.
Proof.
  intros (Hb & Hle & ->)%Product_init_Return.
  unfold field_bounds in Hb.
  repeat (apply andb_true_iff in Hb as [Hb ?]).
  repeat match goal with
         | Hx : Qlt_bool _ _ = true |- _ => apply Qlt_bool_true in Hx
         | Hx : (_ <=? _) = true |- _ => apply Z.leb_le in Hx
         end.
  cbn [price cost quantity low_stock_threshold last_updated].
  assert (Hco : (0 <= round2 co)%Q) by (apply round2_nonneg; lra).
  split; [done |]. split; [done |]. split; [done |]. split; [done |].
  split; [done |]. split; [done |]. split; [done |].
  assert (Hpm : (0 <= profit_margin
                        {| name := normalize_text n;
                           category := normalize_text c; price := round2 pr;
                           quantity := q; cost := round2 co;
                           low_stock_threshold := thr; last_updated := now |}
                 <= 100)%Q).
  { unfold profit_margin. cbn [price cost].
    destruct (Qeq_bool (round2 pr) 0) eqn:Hz; [split; lra |].
    apply Qeq_bool_neq in Hz.
    assert (Hpos : (0 < round2 pr)%Q).
    { destruct (Qle_lt_or_eq 0 (round2 pr)) as [? | Heq]; [lra | done |].
      exfalso. apply Hz. by symmetry. }
    set (t := ((round2 pr - round2 co) / round2 pr)%Q).
    assert (Ht0 : (0 <= t)%Q) by (apply Qle_shift_div_l; [done | lra]).
    assert (Ht1 : (t <= 1)%Q) by (apply Qle_shift_div_r; [done | lra]).
    split.
    - apply round2_nonneg. lra.
    - apply (round2_le _ 100). change (inject_Z 100) with 100%Q. lra. }
  split; [apply Hpm |]. split; [apply Hpm |].
  unfold total_value. cbn [cost quantity]. apply round2_nonneg.
  assert (Hq : (0 <= inject_Z q)%Q)
    by (change 0%Q with (inject_Z 0); by rewrite <- Zle_Qle).
  by apply Qmult_le_0_compat.
Qed.

(** What the driver writes of a constructed product. *)
Lemma to_db_fits (p : Product) :
  0 ≤ quantity p < 2 ^ 63 → 0 ≤ low_stock_threshold p < 2 ^ 63 →
  to_db p = Return (update_timestamp (stored_time (last_updated p)) p).
Proof.
  intros Hq Ht. unfold to_db, int64.
  destruct (Z.leb_spec (- 2 ^ 63) (quantity p)); [| lia].
  destruct (Z.ltb_spec (quantity p) (2 ^ 63)); [| lia].
  destruct (Z.leb_spec (- 2 ^ 63) (low_stock_threshold p)); [| lia].
  destruct (Z.ltb_spec (low_stock_threshold p) (2 ^ 63)); [| lia].
  reflexivity.
Qed.

Lemma to_db_overflow (p : Product) :
  2 ^ 63 ≤ quantity p ∨ 2 ^ 63 ≤ low_stock_threshold p →
  to_db p
  = Raise (Error OverflowError "MongoDB can only handle up to 8-byte ints").
Proof.
  intros Hbig. unfold to_db, int64.
  destruct (Z.ltb_spec (quantity p) (2 ^ 63));
    destruct (Z.ltb_spec (low_stock_threshold p) (2 ^ 63)); try lia;
    by rewrite ?andb_false_r, ?andb_false_l.
Qed.

(** X20: for input within the bounds of [ProductCreate], with integers
    that the store can hold and an id that is new, creating a product
    stores what was constructed under the new id, with the time cut to
    milliseconds, and leaves every stored product as it was; reading
    that id then validates what is stored once more.  The declared
    bounds do not compare the price with the cost: a price that rounds
    below the rounded cost passes them and then fails construction with
    a [ValidationError], which is no [HTTPException] and which the
    handler does not catch; an integer of more than eight bytes is
    refused by the driver with an [OverflowError]; nothing is stored in
    either case. *)
Theorem create_product_outcomes `{StrMethods} (n c : string) (pr : Q) (q : Z)
    (co : Q) (thr now : Z) (new_id : Bson.bytes) (db : collection) :
  db !! new_id = None →
  field_bounds n c pr q co thr = true →
  let '(outcome, db') := create_product n c pr q co thr now new_id db in
  ((round2 co <= round2 pr)%Q → q < 2 ^ 63 → thr < 2 ^ 63 →
   ∃ p, Product_init n c pr q co thr now = Return p
        ∧ outcome = Return (new_id, p)
        ∧ quantity p = q
        ∧ db' !! new_id = Some (update_timestamp (stored_time now) p)
        ∧ db ⊆ db'
        ∧ (∀ other, other ≠ new_id → db' !! other = db !! other)
        ∧ ∀ product_id t,
            Bson.ObjectId_of_str product_id = Return new_id →
            get_product product_id t db'
            = (product ← parse_obj (update_timestamp (stored_time now) p) t;
               mret (new_id, product), db'))
  ∧ ((round2 pr < round2 co)%Q →
     (∃ msg, outcome = Raise (Error ValidationError msg))
     ∧ ¬ answered outcome
     ∧ db' = db)
  ∧ ((round2 co <= round2 pr)%Q → 2 ^ 63 ≤ q ∨ 2 ^ 63 ≤ thr →
     (∃ msg, outcome = Raise (Error OverflowError msg))
     ∧ ¬ answered outcome
     ∧ db' = db).
Proof.
  intros Hfresh Hb. unfold create_product. rewrite collection_bind_run.
  unfold lift.
  pose proof Hb as Hb'. unfold field_bounds in Hb'.
  repeat (apply andb_true_iff in Hb' as [Hb' ?]).
  assert (Hq : 0 ≤ q) by (by apply Z.leb_le).
  assert (Ht : 0 ≤ thr) by (by apply Z.leb_le).
  destruct (Product_init n c pr q co thr now) as [p | e] eqn:Hinit.
  - apply Product_init_Return in Hinit as (_ & Hle & Hp).
    assert (Hpq : quantity p = q) by (by rewrite Hp).
    assert (Hpt : low_stock_threshold p = thr) by (by rewrite Hp).
    assert (Hpl : last_updated p = now) by (by rewrite Hp).
    unfold insert.
    destruct (to_db p) as [fields | e] eqn:Hdb.
    + split; [| split].
      * intros _ Hq' Ht'.
        rewrite to_db_fits in Hdb by lia. injection Hdb as <-.
        rewrite Hpl.
        assert (Hnew : <[new_id := update_timestamp (stored_time now) p]> db
                       !! new_id
                       = Some (update_timestamp (stored_time now) p))
          by apply lookup_insert_eq.
        exists p. split; [done |]. split; [done |]. split; [done |].
        split; [exact Hnew |].
        split; [by apply insert_subseteq |].
        split; [intros other Hne; by apply lookup_insert_ne |].
        intros product_id t Hid. unfold get_product.
        rewrite collection_bind_run.
        rewrite (Product_get_stored _ _ _ _ _ Hid Hnew).
        by destruct (parse_obj _ t).
      * intros Hlt. by apply Qlt_not_le in Hlt.
      * intros _ Hbig. rewrite to_db_overflow in Hdb by lia. done.
    + split; [| split].
      * intros _ Hq' Ht'. rewrite to_db_fits in Hdb by lia. done.
      * intros Hlt. by apply Qlt_not_le in Hlt.
      * intros _ Hbig. rewrite to_db_overflow in Hdb by lia.
        injection Hdb as <-. split; [eauto |]. split; [by intros [] | done].
  - assert (Hlt : (round2 pr < round2 co)%Q).
    { apply Qnot_le_lt. intros Hle.
      assert (Hret : Product_init n c pr q co thr now
                     = Return {| name := normalize_text n;
                                 category := normalize_text c;
                                 price := round2 pr; quantity := q;
                                 cost := round2 co; low_stock_threshold := thr;
                                 last_updated := now |})
        by (by apply Product_init_Return).
      congruence. }
    split; [| split].
    + intros Hle. by apply Qlt_not_le in Hlt.
    + intros _. unfold parse_obj in *.
      assert (He : ∃ msg, e = Error ValidationError msg).
      { unfold Product_init in Hinit. rewrite Hb in Hinit.
        unfold validate_profit_margin in Hinit. simpl in Hinit.
        destruct (Qlt_bool _ _) in Hinit; simpl in Hinit; [| done].
        injection Hinit as <-. eauto. }
      destruct He as [msg ->]. split; [eauto |]. split; [by intros [] | done].
    + intros Hle. by apply Qlt_not_le in Hlt.
Qed.

(** X21: [needs_restock] and [stock_status] differ at the threshold: a
    product that needs restocking never has the status "in_stock", but
    with a quantity that is not negative the status is "low_stock" without
    the product needing restocking exactly when the quantity is positive
    and equal to the threshold, and a product with the status "in_stock"
    is in stock and needs no restocking. *)
Theorem needs_restock_and_status (p : Product) :
  0 ≤ quantity p →
  (needs_restock p = true → stock_status p ≠ "in_stock")
  ∧ (stock_status p = "in_stock" →
     needs_restock p = false ∧ in_stock p = true)
  ∧ (stock_status p = "low_stock" ∧ needs_restock p = false
     ↔ 0 < quantity p ∧ quantity p = low_stock_threshold p)
  ∧ (stock_status p = "out_of_stock" ∧ needs_restock p = true
     ↔ quantity p = 0 ∧ 0 < low_stock_threshold p).
Proof.
  intros Hq. unfold needs_restock, stock_status, in_stock.
  destruct (Z.eqb_spec (quantity p) 0) as [Hz | Hz];
    destruct (Z.leb_spec (quantity p) (low_stock_threshold p));
    destruct (Z.ltb_spec (quantity p) (low_stock_threshold p));
    destruct (Z.ltb_spec 0 (quantity p));
    try lia;
    (split; [done |]); (split; [done |]);
    (split; split; intros [? ?]; first [done | lia | split; first [done | lia]]).
Qed.

End Construction.

Section CollectionExamples.
Import Py ComputedField ComputedFieldRoutes Spec Terms Samples Text.

Lemma adjustments_add_up_witness :
  let db : collection := {[ gadget_key := gadget 5 ]} in
  let a := {| adjustment := 2; reason := Some "delivery" |} in
  let b := {| adjustment := -2; reason := None |} in
  (Bson.ObjectId_of_str gadget_id = Return gadget_key
   ∧ db !! gadget_key = Some (gadget 5)
   ∧ as_validated (gadget 5)
   ∧ int64 (low_stock_threshold (gadget 5)) = true
   ∧ 0 ≤ 5 + 2 < 2 ^ 63 ∧ 0 ≤ 5 + 2 + -2 < 2 ^ 63)
  ∧ adjust_stock gadget_id b 30 40 (adjust_stock gadget_id a 10 20 db).2
    = (Return (gadget_key, update_timestamp 40 (gadget 5)),
       <[gadget_key := update_timestamp (stored_time 30) (gadget 5)]> db).
Proof.
  intros db a b.
  assert (Hget : db !! gadget_key = Some (gadget 5))
    by apply lookup_singleton_eq.
  assert (Hv : as_validated (gadget 5)) by (apply gadget_as_validated; lia).
  split; [repeat split; try done; try lia; exact gadget_id_reads |].
  exact (proj2 (adjustments_add_up db gadget_id gadget_key (gadget 5) a b
                  10 20 30 40 gadget_id_reads Hget Hv eq_refl
                  ltac:(simpl; lia) ltac:(simpl; lia)) eq_refl).
Defined.

Lemma deleted_product_is_gone_witness :
  let db : collection := {[ gadget_key := gadget 5 ]} in
  (Bson.ObjectId_of_str gadget_id = Return gadget_key
   ∧ db !! gadget_key = Some (gadget 5)
   ∧ parse_obj (gadget 5) 10 = Return (update_timestamp 10 (gadget 5)))
  ∧ get_product gadget_id 20 (delete_product gadget_id 10 db).2
    = (Raise (HTTPException 404 (Text "Product not found")),
       (delete_product gadget_id 10 db).2).
Proof.
  intros db.
  assert (Hget : db !! gadget_key = Some (gadget 5))
    by apply lookup_singleton_eq.
  assert (Hp : parse_obj (gadget 5) 10 = Return (update_timestamp 10 (gadget 5)))
    by (apply gadget_as_validated; lia).
  split; [split; [exact gadget_id_reads | split; [exact Hget | exact Hp]] |].
  generalize (deleted_product_is_gone db gadget_id 10).
  destruct (delete_product gadget_id 10 db) as [outcome db'].
  intros [Hd _]. cbn [snd].
  exact (proj1 (proj2 (Hd _ _ _ gadget_id_reads Hget Hp)) 20).
Defined.

Lemma gadget_all_validated (quantity : Z) :
  0 ≤ quantity → all_validated {[ gadget_key := gadget quantity ]}.
Proof.
  intros Hq k p [<- <-]%lookup_singleton_Some. by apply gadget_as_validated.
Qed.

Lemma stock_reports_agree_with_status_witness :
  let db : collection := {[ gadget_key := gadget 3 ]} in
  all_validated db
  ∧ ∃ low out : list document,
      get_low_stock_products (λ _, 10) db = Return (read_at (λ _, 10) low)
      ∧ (gadget_key, gadget 3) ∈ low
      ∧ (gadget_key, gadget 3) ∉ out.
Proof.
  intros db.
  assert (Hv : all_validated db) by (apply gadget_all_validated; lia).
  split; [exact Hv |].
  destruct (proj1 (stock_reports_agree_with_status (λ _, 10) db) Hv)
    as (low & out & Hrun & _ & Hlow & _ & _ & _ & Hdis & _).
  exists low, out. split; [exact Hrun |].
  assert (Hin : (gadget_key, gadget 3) ∈ low).
  { apply Hlow. split; [apply lookup_singleton_eq | reflexivity]. }
  split; [exact Hin | exact (Hdis _ Hin)].
Defined.

Lemma in_stock_filter_agrees_with_computed_field_witness :
  let db : collection := {[ gadget_key := gadget 3 ]} in
  (1 ≤ 1 ∧ 1 ≤ 10)
  ∧ find (list_products_query None None None (Some true)) db
    = [(gadget_key, gadget 3)]
  ∧ (∃ msg, list_products None None None (Some true) 1 10 (λ _, 10) db
            = Raise (Error ValidationError msg))
  ∧ list_products None None None (Some false) 1 10 (λ _, 10) db
    = Return {| total := 0; page := 1; page_size := 10; products := [] |}.
Proof.
  intros db. split; [lia |].
  assert (Hfind : ∀ wanted,
            find (list_products_query None None None (Some wanted)) db
            = if wanted then [(gadget_key, gadget 3)] else []).
  { intros wanted. unfold find.
    replace (map_to_list db) with [(gadget_key, gadget 3)]
      by (symmetry; apply map_to_list_singleton).
    by destruct wanted. }
  split; [exact (Hfind true) |].
  pose proof (in_stock_filter_agrees_with_computed_field None None None true
                1 10 (λ _, 10) db ltac:(lia) ltac:(lia)) as Hshown.
  pose proof (in_stock_filter_agrees_with_computed_field None None None false
                1 10 (λ _, 10) db ltac:(lia) ltac:(lia)) as Hnone.
  cbv zeta in Hshown, Hnone. rewrite !Hfind in Hshown, Hnone.
  destruct Hshown as (_ & _ & _ & _ & Hraise).
  destruct Hnone as (_ & _ & _ & Hempty & _).
  split; [by apply Hraise | by apply Hempty].
Defined.

(** A price of 0.004 with a cost of 0.003 passes the bounds and is stored
    as a price of zero. *)
Lemma constructed_product_is_sound_witness :
  ∃ p, Product_init "pen" "office" (1 # 250) 0 (1 # 300) 5 0 = Return p
       ∧ (price p == 0)%Q
       ∧ (0 <= profit_margin p)%Q ∧ (profit_margin p <= 100)%Q.
Proof.
  destruct (Product_init "pen" "office" (1 # 250) 0 (1 # 300) 5 0)
    as [p | e] eqn:Hinit; [| by vm_compute in Hinit].
  exists p. split; [reflexivity |].
  destruct (constructed_product_is_sound _ _ _ _ _ _ _ _ Hinit)
    as (Hprice & _ & _ & _ & _ & _ & _ & Hpm0 & Hpm1 & _).
  split; [rewrite Hprice; by vm_compute |]. split; [exact Hpm0 | exact Hpm1].
Defined.

Lemma create_product_outcomes_witness :
  ((∅ : collection) !! gadget_key = None
   ∧ field_bounds "pen" "office" 1 0 2 5 = true
   ∧ (round2 1 < round2 2)%Q)
  ∧ (∃ msg, (create_product "pen" "office" 1 0 2 5 0 gadget_key ∅).1
            = Raise (Error ValidationError msg))
  ∧ (create_product "pen" "office" 1 0 2 5 0 gadget_key ∅).2 = ∅.
Proof.
  assert (Hlt : (round2 1 < round2 2)%Q) by (by vm_compute).
  split; [split; [apply lookup_empty | split; [reflexivity | exact Hlt]] |].
  generalize (create_product_outcomes "pen" "office" 1 0 2 5 0 gadget_key ∅
                (lookup_empty _) eq_refl).
  destruct (create_product "pen" "office" 1 0 2 5 0 gadget_key ∅)
    as [outcome db'].
  intros (_ & Hbad & _). cbn [fst snd].
  destruct (Hbad Hlt) as (Hmsg & _ & Hdb). split; [exact Hmsg | exact Hdb].
Defined.

(** A price of 0.004 passes the bounds of [ProductCreate] and is stored
    as a price of zero, which the bounds of [Product] refuse when the
    product is read. *)
Lemma created_product_may_not_load :
  ∃ p db',
    create_product "pen" "office" (1 # 250) 0 (1 # 300) 5 0 gadget_key ∅
    = (Return (gadget_key, p), db')
    ∧ (price p == 0)%Q
    ∧ get_product gadget_id 1 db'
      = (Raise (Error ValidationError "validation error for Product"), db').
Proof.
  destruct (create_product "pen" "office" (1 # 250) 0 (1 # 300) 5 0
              gadget_key ∅) as [[[k p] | e] db'] eqn:Hrun;
    [| by vm_compute in Hrun].
  assert (Hk : k = gadget_key)
    by (by vm_compute in Hrun; injection Hrun as <- _ _).
  subst k. exists p, db'. split; [reflexivity |].
  unfold create_product in Hrun. rewrite collection_bind_run in Hrun.
  unfold lift in Hrun.
  destruct (Product_init "pen" "office" (1 # 250) 0 (1 # 300) 5 0)
    as [p0 | e] eqn:Hinit; [| by vm_compute in Hinit].
  apply Product_init_Return in Hinit as (_ & _ & ->).
  unfold insert in Hrun.
  rewrite to_db_fits in Hrun by (simpl; lia).
  injection Hrun as <- <-.
  split; [by vm_compute |].
  unfold get_product. rewrite collection_bind_run.
  rewrite (Product_get_stored gadget_id gadget_key _ 1 _ gadget_id_reads
             (lookup_insert_eq _ _ _)).
  reflexivity.
Qed.

Lemma needs_restock_and_status_witness :
  0 ≤ quantity (widget 5)
  ∧ stock_status (widget 5) = "low_stock"
  ∧ needs_restock (widget 5) = false.
Proof.
  assert (Hq : 0 ≤ quantity (widget 5)) by (simpl; lia).
  split; [exact Hq |].
  apply (proj1 (proj2 (proj2 (needs_restock_and_status (widget 5) Hq)))).
  simpl. lia.
Defined.

End CollectionExamples.

(** ** String methods *)

Section TextFacts.
Import Text.

Lemma ascii_cases (P : ascii → Prop) :
  (∀ b0 b1 b2 b3 b4 b5 b6 b7, P (Ascii b0 b1 b2 b3 b4 b5 b6 b7)) → ∀ c, P c.
Proof. intros HP c. by destruct c. Qed.

Ltac each_ascii :=
  apply ascii_cases;
  intros [] [] [] [] [] [] [] []; reflexivity.

Lemma lower_char_idem (c : ascii) : lower_char (lower_char c) = lower_char c.
Proof. revert c. each_ascii. Qed.

Lemma isspace_lower_char (c : ascii) : isspace (lower_char c) = isspace c.
Proof. revert c. each_ascii. Qed.

Lemma isupper_lower_char (c : ascii) : isupper (lower_char c) = false.
Proof. revert c. each_ascii. Qed.

Lemma lower_idem (s : string) : lower (lower s) = lower s.
Proof.
  induction s as [| c s IH]; [done |]. simpl. by rewrite lower_char_idem, IH.
Qed.

Lemma lower_length (s : string) : String.length (lower s) = String.length s.
Proof. induction s as [| c s IH]; [done |]. simpl. by rewrite IH. Qed.

Lemma lower_no_upper (s : string) :
  all (λ c, negb (isupper c)) (lower s) = true.
Proof.
  induction s as [| c s IH]; [done |]. simpl.
  by rewrite isupper_lower_char, IH.
Qed.

Lemma lower_empty (s : string) : lower s = EmptyString ↔ s = EmptyString.
Proof. by destruct s. Qed.

Lemma all_without (f drop : ascii → bool) (s : string) :
  all f s = true → all f (without drop s) = true.
Proof.
  induction s as [| c s IH]; [done |]. simpl.
  intros [Hc Hs]%andb_true_iff. destruct (drop c); [by apply IH |].
  simpl. by rewrite Hc, IH.
Qed.

Lemma without_clean (drop : ascii → bool) (s : string) :
  all (λ c, negb (drop c)) (without drop s) = true.
Proof.
  induction s as [| c s IH]; [done |]. simpl.
  destruct (drop c) eqn:Hc; [done |]. simpl. by rewrite Hc, IH.
Qed.

Lemma without_length (drop : ascii → bool) (s : string) :
  (String.length (without drop s) ≤ String.length s)%nat.
Proof.
  induction s as [| c s IH]; [done |]. simpl.
  destruct (drop c); simpl; lia.
Qed.

Lemma without_id (drop : ascii → bool) (s : string) :
  all (λ c, negb (drop c)) s = true → without drop s = s.
Proof.
  induction s as [| c s IH]; [done |]. simpl.
  intros [Hc Hs]%andb_true_iff. apply negb_true_iff in Hc.
  by rewrite Hc, IH.
Qed.

Lemma all_lstrip_of (f drop : ascii → bool) (s : string) :
  all f s = true → all f (lstrip_of drop s) = true.
Proof.
  induction s as [| c s IH]; [done |]. simpl.
  intros Hall. destruct (drop c); [| done].
  apply andb_true_iff in Hall as [_ Hs]. by apply IH.
Qed.

Lemma all_rstrip_of (f drop : ascii → bool) (s : string) :
  all f s = true → all f (rstrip_of drop s) = true.
Proof.
  induction s as [| c s IH]; [done |]. simpl.
  intros [Hc Hs]%andb_true_iff. specialize (IH Hs).
  destruct (rstrip_of drop s) as [| c' r].
  - destruct (drop c); [done |]. simpl. by rewrite Hc.
  - change (all f (String c (String c' r)))
      with (f c && all f (String c' r)). by rewrite Hc, IH.
Qed.

Lemma lstrip_of_length (drop : ascii → bool) (s : string) :
  (String.length (lstrip_of drop s) ≤ String.length s)%nat.
Proof.
  induction s as [| c s IH]; [done |]. simpl.
  destruct (drop c); simpl; lia.
Qed.

Lemma rstrip_of_length (drop : ascii → bool) (s : string) :
  (String.length (rstrip_of drop s) ≤ String.length s)%nat.
Proof.
  induction s as [| c s IH]; [done |]. simpl.
  destruct (rstrip_of drop s) as [| c' r].
  - destruct (drop c); simpl; lia.
  - simpl in *. lia.
Qed.

Lemma strip_of_length (drop : ascii → bool) (s : string) :
  (String.length (strip_of drop s) ≤ String.length s)%nat.
Proof.
  unfold strip_of. pose proof (rstrip_of_length drop (lstrip_of drop s)).
  pose proof (lstrip_of_length drop s). lia.
Qed.

Lemma first_char_lstrip_of (drop : ascii → bool) (s : string) (c : ascii) :
  first_char (lstrip_of drop s) = Some c → drop c = false.
Proof.
  induction s as [| c' s IH]; [done |]. simpl.
  destruct (drop c') eqn:Hc; [done |]. simpl. by intros [= <-].
Qed.

Lemma first_char_rstrip_of (drop : ascii → bool) (s : string) (c : ascii) :
  first_char (rstrip_of drop s) = Some c → first_char s = Some c.
Proof.
  destruct s as [| c' s]; [done |]. simpl.
  destruct (rstrip_of drop s); [destruct (drop c') |]; done.
Qed.

Lemma last_char_rstrip_of (drop : ascii → bool) (s : string) (c : ascii) :
  last_char (rstrip_of drop s) = Some c → drop c = false.
Proof.
  induction s as [| c' s IH]; [done |]. simpl.
  destruct (rstrip_of drop s) as [| c2 r].
  - destruct (drop c') eqn:Hc; [done |]. simpl. by intros [= <-].
  - exact IH.
Qed.

Lemma lstrip_of_id (drop : ascii → bool) (s : string) :
  (∀ c, first_char s = Some c → drop c = false) → lstrip_of drop s = s.
Proof.
  destruct s as [| c s]; [done |]. simpl. intros Hc.
  by rewrite (Hc c eq_refl).
Qed.

Lemma rstrip_of_id (drop : ascii → bool) (s : string) :
  (∀ c, last_char s = Some c → drop c = false) → rstrip_of drop s = s.
Proof.
  induction s as [| c s IH]; [done |]. intros Hc.
  destruct s as [| c2 s2].
  - simpl. by rewrite (Hc c eq_refl).
  - change (rstrip_of drop (String c (String c2 s2)))
      with (match rstrip_of drop (String c2 s2) with
            | EmptyString => if drop c then EmptyString else String c EmptyString
            | rest => String c rest
            end).
    rewrite IH; [done |]. intros x Hx. apply Hc. exact Hx.
Qed.

Lemma rstrip_of_empty (drop : ascii → bool) (s : string) :
  rstrip_of drop s = EmptyString ↔ all drop s = true.
Proof.
  induction s as [| c s IH]; [done |]. simpl.
  destruct (rstrip_of drop s) as [| c2 r].
  - rewrite (proj1 IH eq_refl), andb_true_r. by destruct (drop c).
  - split; [done |]. intros [_ Hs]%andb_true_iff. by apply IH in Hs.
Qed.

Lemma all_lstrip_of_same (drop : ascii → bool) (s : string) :
  all drop (lstrip_of drop s) = all drop s.
Proof.
  induction s as [| c s IH]; [done |]. simpl.
  destruct (drop c) eqn:Hc; [done |]. simpl. by rewrite Hc.
Qed.

(** Stripping leaves nothing exactly when every character is stripped. *)
Lemma strip_of_empty (drop : ascii → bool) (s : string) :
  strip_of drop s = EmptyString ↔ all drop s = true.
Proof.
  unfold strip_of. by rewrite rstrip_of_empty, all_lstrip_of_same.
Qed.

(** What is stripped neither begins nor ends with a stripped character,
    and stripping it again changes nothing. *)
Lemma strip_of_ends (drop : ascii → bool) (s : string) (c : ascii) :
  first_char (strip_of drop s) = Some c ∨ last_char (strip_of drop s) = Some c →
  drop c = false.
Proof.
  unfold strip_of. intros [Hf | Hl].
  - by eapply first_char_lstrip_of, first_char_rstrip_of.
  - by eapply last_char_rstrip_of.
Qed.

Lemma strip_of_fixed (drop : ascii → bool) (s : string) :
  (∀ c, first_char s = Some c ∨ last_char s = Some c → drop c = false) →
  strip_of drop s = s.
Proof.
  intros Hends. unfold strip_of.
  rewrite lstrip_of_id by (intros c Hc; apply Hends; by left).
  apply rstrip_of_id. intros c Hc. apply Hends. by right.
Qed.

Lemma strip_of_idem (drop : ascii → bool) (s : string) :
  strip_of drop (strip_of drop s) = strip_of drop s.
Proof. apply strip_of_fixed. intros c. apply strip_of_ends. Qed.

Lemma lstrip_lower (s : string) :
  lstrip_of isspace (lower s) = lower (lstrip_of isspace s).
Proof.
  induction s as [| c s IH]; [done |]. simpl.
  rewrite isspace_lower_char. by destruct (isspace c).
Qed.

Lemma rstrip_lower (s : string) :
  rstrip_of isspace (lower s) = lower (rstrip_of isspace s).
Proof.
  induction s as [| c s IH]; [done |]. simpl. rewrite IH.
  destruct (rstrip_of isspace s) as [| c2 r]; simpl.
  - rewrite isspace_lower_char. by destruct (isspace c).
  - done.
Qed.

Lemma strip_lower (s : string) : strip (lower s) = lower (strip s).
Proof. unfold strip, strip_of. by rewrite lstrip_lower, rstrip_lower. Qed.

End TextFacts.

(** ** Field validators of the schema examples *)

Section FieldValidators.
Import Py Schemas SchemaModels.

Lemma check_length_accepts (lo hi : nat) (v w : string) :
  check_length lo hi v = Return w ↔
  (lo ≤ String.length v ≤ hi)%nat ∧ w = v.
Proof.
  unfold check_length.
  destruct (Nat.leb_spec lo (String.length v));
    destruct (Nat.leb_spec (String.length v) hi); simpl;
    (split; [intros [= <-]; by (split; [lia |]) || done
            | intros [? ->]; done || lia]).
Qed.

Lemma empty_true (v : string) : empty v = true ↔ v = EmptyString.
Proof. by destruct v. Qed.

Lemma empty_false (v : string) : empty v = false ↔ v ≠ EmptyString.
Proof. by destruct v. Qed.

(** What a text field of [ProductCreate] accepts, and what it makes of
    it. *)
Lemma text_field_Return (lo hi : nat) (v w : string) :
  text_field lo hi v = Return w ↔
  (lo ≤ String.length v ≤ hi)%nat ∧ w = Text.strip v ∧ w ≠ EmptyString.
Proof.
  unfold text_field, validated, strip_whitespace.
  destruct (check_length lo hi v) as [v' | e] eqn:Hlen.
  - apply check_length_accepts in Hlen as [Hlen ->]. rewrite bind_Return.
    destruct (empty (Text.strip v)) eqn:He; simpl.
    + apply empty_true in He. split; [done |]. intros (_ & -> & Hne). done.
    + apply empty_false in He. split.
      * intros [= <-]. done.
      * by intros (_ & -> & _).
  - rewrite bind_Raise, try_except_Raise. split; [done |].
    intros (Hbound & _).
    assert (check_length lo hi v = Return v) by (by apply check_length_accepts).
    congruence.
Qed.

Lemma text_field_Raise (lo hi : nat) (v : string) (e : exn) :
  text_field lo hi v = Raise e → ∃ msg, e = Error ValidationError msg.
Proof.
  unfold text_field, validated, strip_whitespace, check_length.
  destruct (_ && _)%nat; simpl.
  - destruct (empty (Text.strip v)); simpl; [| done]. intros [= <-]. eauto.
  - intros [= <-]. eauto.
Qed.

Lemma text_field_blank (lo hi : nat) (v : string) :
  Text.all Text.isspace v = true →
  ∃ msg, text_field lo hi v = Raise (Error ValidationError msg).
Proof.
  intros Hblank. destruct (text_field lo hi v) as [w | e] eqn:Hf.
  - apply text_field_Return in Hf as (_ & -> & Hne).
    exfalso. apply Hne. by apply strip_of_empty.
  - apply text_field_Raise in Hf as [msg ->]. eauto.
Qed.

Lemma strip_idem (v : string) : Text.strip (Text.strip v) = Text.strip v.
Proof. apply strip_of_idem. Qed.

Lemma check_ge0_Return (v w : Z) : check_ge0 v = Return w ↔ 0 ≤ v ∧ w = v.
Proof.
  unfold check_ge0. destruct (Z.leb_spec 0 v).
  - split; [by intros [= <-] | by intros [_ ->]].
  - split; [done | lia].
Qed.

(** X22: the text fields of an accepted [ProductCreate] are the given
    texts without the white space around them and are not empty, its
    price is positive and its stock is not negative; a text of white
    space only, which has the declared minimum length, is refused.  An
    update with no field is answered 400, and the product that an
    accepted [ProductUpdate] leads to keeps what the update leaves out and
    again has texts that are stripped and not empty, a positive price and
    a stock that is not negative. *)
Theorem product_fields_are_clean :
  (∀ n d p s c m,
     ProductCreate_init n d p s c = Return m →
     name m = Text.strip n ∧ description m = Text.strip d
     ∧ category m = Text.strip c
     ∧ name m ≠ EmptyString ∧ description m ≠ EmptyString
     ∧ category m ≠ EmptyString
     ∧ (0 < price m)%Q ∧ 0 ≤ stock m)
  ∧ (∀ n d p s c,
       Text.all Text.isspace n = true ∨ Text.all Text.isspace d = true
       ∨ Text.all Text.isspace c = true →
       ∃ e, ProductCreate_init n d p s c = Raise e)
  ∧ (∀ product_id created updated,
       update_product product_id
         {| u_name := None; u_description := None; u_price := None;
            u_stock := None; u_category := None |} created updated
       = Raise (HTTPException 400
                  (Text "At least one field must be provided for update")))
  ∧ (∀ n d p s c u product_id created updated r,
       ProductUpdate_init n d p s c = Return u →
       update_product product_id u created updated = Return r →
       (Text.strip (r_name r) = r_name r ∧ r_name r ≠ EmptyString)
       ∧ (Text.strip (r_description r) = r_description r
          ∧ r_description r ≠ EmptyString)
       ∧ (Text.strip (r_category r) = r_category r
          ∧ r_category r ≠ EmptyString)
       ∧ (0 < r_price r)%Q ∧ 0 ≤ r_stock r
       ∧ (n = None → r_name r = "Gaming Laptop")
       ∧ (s = None → r_stock r = 50)
       ∧ (∀ x, s = Some x → r_stock r = x ∧ (in_stock r = true ↔ 0 < x))).
Proof.
  split; [| split; [| split]].
  - intros n d p s c m Hm. unfold ProductCreate_init in Hm.
    apply bind_Return_inv in Hm as (n' & Hn & Hm).
    apply bind_Return_inv in Hm as (d' & Hd & Hm).
    apply bind_Return_inv in Hm as (p' & Hp & Hm).
    apply bind_Return_inv in Hm as (s' & Hs & Hm).
    apply bind_Return_inv in Hm as (c' & Hc & Hm).
    injection Hm as <-. cbn [name description category price stock].
    apply text_field_Return in Hn as (_ & -> & Hn).
    apply text_field_Return in Hd as (_ & -> & Hd).
    apply text_field_Return in Hc as (_ & -> & Hc).
    apply check_gt0_Return in Hp as [Hp ->].
    apply check_ge0_Return in Hs as [Hs ->]. done.
  - intros n d p s c Hblank. unfold ProductCreate_init.
    destruct (text_field 1 200 n) as [n' | e] eqn:Hn; [| eauto].
    rewrite bind_Return.
    destruct (text_field 1 1000 d) as [d' | e] eqn:Hd; [| eauto].
    rewrite bind_Return.
    destruct (check_gt0 p) as [p' | e]; [| eauto]. rewrite bind_Return.
    destruct (check_ge0 s) as [s' | e]; [| eauto]. rewrite bind_Return.
    destruct (text_field 1 100 c) as [c' | e] eqn:Hc; [| eauto].
    exfalso. destruct Hblank as [Hb | [Hb | Hb]].
    + destruct (text_field_blank 1 200 n Hb) as [msg Hr]. congruence.
    + destruct (text_field_blank 1 1000 d Hb) as [msg Hr]. congruence.
    + destruct (text_field_blank 1 100 c Hb) as [msg Hr]. congruence.
  - done.
  - intros n d p s c u product_id created updated r Hu Hr.
    unfold ProductUpdate_init in Hu.
    apply bind_Return_inv in Hu as (n' & Hn & Hu).
    apply bind_Return_inv in Hu as (d' & Hd & Hu).
    apply bind_Return_inv in Hu as (p' & Hp & Hu).
    apply bind_Return_inv in Hu as (s' & Hs & Hu).
    apply bind_Return_inv in Hu as (c' & Hc & Hu).
    injection Hu as <-. unfold update_product in Hr.
    cbn [u_name u_description u_price u_stock u_category] in Hr.
    apply bind_Return_inv in Hr as ([] & _ & Hr). injection Hr as <-.
    cbn [r_name r_description r_category r_price r_stock].
    apply optional_Return in Hn, Hd, Hp, Hs, Hc.
    split; [| split; [| split; [| split; [| split; [| split; [| split]]]]]].
    + destruct n as [n |]; [| by subst].
      destruct Hn as (x & (_ & -> & Hne)%text_field_Return & ->).
      simpl. by rewrite strip_idem.
    + destruct d as [d |]; [| by subst].
      destruct Hd as (x & (_ & -> & Hne)%text_field_Return & ->).
      simpl. by rewrite strip_idem.
    + destruct c as [c |]; [| by subst].
      destruct Hc as (x & (_ & -> & Hne)%text_field_Return & ->).
      simpl. by rewrite strip_idem.
    + destruct p as [p |]; [| by subst].
      by destruct Hp as (x & [? ->]%check_gt0_Return & ->).
    + destruct s as [s |]; [| by subst].
      by destruct Hs as (x & [? ->]%check_ge0_Return & ->).
    + intros ->. by subst.
    + intros ->. by subst.
    + intros x ->. destruct Hs as (x' & [? ->]%check_ge0_Return & ->).
      simpl. unfold in_stock. simpl. by rewrite Z.ltb_lt.
Qed.

Lemma all_without_or (drop keep : ascii → bool) (s : string) :
  Text.all keep (Text.without drop s)
  = Text.all (λ c, drop c || keep c) s.
Proof.
  induction s as [| c s IH]; [done |]. simpl.
  destruct (drop c); simpl; by rewrite IH.
Qed.

Lemma filename_field_Return (v w : string) :
  filename_field v = Return w ↔
  (String.length v ≤ 255)%nat
  ∧ w = Text.strip_of dot_or_space (Text.without unsafe v)
  ∧ w ≠ EmptyString.
Proof.
  unfold filename_field, validated, validate_filename.
  destruct (check_length 0 255 v) as [v' | e] eqn:Hlen.
  - apply check_length_accepts in Hlen as [Hlen ->]. rewrite bind_Return.
    destruct (empty _) eqn:He; simpl.
    + apply empty_true in He. split; [done |]. by intros (_ & -> & Hne).
    + apply empty_false in He. split.
      * intros [= <-]. split; [lia | done].
      * by intros (_ & -> & _).
  - rewrite bind_Raise, try_except_Raise. split; [done |].
    intros (Hbound & _).
    assert (check_length 0 255 v = Return v)
      by (apply check_length_accepts; split; [lia | done]).
    congruence.
Qed.

(** X23: an accepted file name is not empty, holds none of the
    characters slash, backslash, colon, asterisk, question mark, double
    quote, angle brackets and bar, neither begins nor ends with a dot or
    a space, is no longer than the name given, and is accepted unchanged
    when given again.  A name is refused exactly when it is longer than
    255 characters or consists only of those characters, dots and
    spaces.  An accepted [FileUpload] has such a name, one of the five
    allowed content types and a size of 0 to 10,485,760 bytes. *)
Theorem accepted_filename_is_safe (v : string) :
  (∀ w, filename_field v = Return w →
        w ≠ EmptyString
        ∧ Text.all (λ c, negb (unsafe c)) w = true
        ∧ (∀ c, Text.first_char w = Some c ∨ Text.last_char w = Some c →
                dot_or_space c = false)
        ∧ (String.length w ≤ String.length v ≤ 255)%nat
        ∧ filename_field w = Return w)
  ∧ ((∃ w, filename_field v = Return w) ↔
     (String.length v ≤ 255)%nat
     ∧ Text.all (λ c, unsafe c || dot_or_space c) v = false)
  ∧ (∀ t s m, FileUpload_init v t s = Return m →
              filename_field v = Return (filename m)
              ∧ content_type m = t ∧ t ∈ allowed_types
              ∧ size_bytes m = s ∧ 0 ≤ s ≤ 10485760).
Proof.
  split; [| split].
  - intros w (Hlen & Hw & Hne)%filename_field_Return.
    assert (Hsafe : Text.all (λ c, negb (unsafe c)) w = true).
    { rewrite Hw. unfold Text.strip_of.
      apply all_rstrip_of, all_lstrip_of, without_clean. }
    assert (Hends : ∀ c, Text.first_char w = Some c ∨ Text.last_char w = Some c →
                         dot_or_space c = false).
    { intros c. rewrite Hw. apply strip_of_ends. }
    assert (Hshort : (String.length w ≤ String.length v)%nat).
    { rewrite Hw.
      pose proof (strip_of_length dot_or_space (Text.without unsafe v)).
      pose proof (without_length unsafe v). lia. }
    split; [done |]. split; [done |]. split; [done |]. split; [lia |].
    apply filename_field_Return. split; [lia |]. split; [| done].
    rewrite without_id by done. symmetry. by apply strip_of_fixed.
  - split.
    + intros [w (Hlen & Hw & Hne)%filename_field_Return]. split; [done |].
      rewrite <- all_without_or.
      destruct (Text.all dot_or_space (Text.without unsafe v)) eqn:Hall;
        [| done].
      apply strip_of_empty in Hall. congruence.
    + intros [Hlen Hall]. eexists. apply filename_field_Return.
      split; [done |]. split; [done |]. intros Hempty.
      apply strip_of_empty in Hempty. rewrite all_without_or in Hempty.
      congruence.
  - intros t s m Hm. unfold FileUpload_init in Hm.
    apply bind_Return_inv in Hm as (f & Hf & Hm).
    apply bind_Return_inv in Hm as (t' & Ht & Hm).
    apply bind_Return_inv in Hm as (s' & Hs & Hm).
    injection Hm as <-. cbn [filename content_type size_bytes].
    apply validated_Return in Ht. unfold validate_content_type in Ht.
    case_bool_decide as Hin; [done |]. injection Ht as <-.
    destruct (Z.leb_spec 0 s); [| done].
    destruct (Z.leb_spec s 10485760); [| done]. injection Hs as <-.
    done.
Qed.

Lemma match_username_spec (v : string) :
  match_username v = true ↔
  ∃ core, core ≠ EmptyString ∧ Text.all username_char core = true
          ∧ (v = core ∨ v = core +:+ newline).
Proof.
  split.
  - induction v as [| c rest IH]; [done |]. simpl.
    intros [Hc Hrest]%andb_true_iff.
    apply orb_true_iff in Hrest as [Hrest | Hrest];
      [apply orb_true_iff in Hrest as [Hrest | Hrest] |].
    + apply bool_decide_eq_true_1 in Hrest as ->.
      exists (String c EmptyString). simpl. rewrite Hc. by repeat split; [| left].
    + apply bool_decide_eq_true_1 in Hrest as ->.
      exists (String c EmptyString). simpl. rewrite Hc. by repeat split; [| right].
    + destruct (IH Hrest) as (core & Hne & Hall & Hv).
      exists (String c core). simpl. rewrite Hc, Hall.
      split; [done |]. split; [done |].
      destruct Hv as [-> | ->]; [by left | by right].
  - intros (core & Hne & Hall & Hv). revert v Hv.
    induction core as [| c core IH]; [done |]. intros v Hv.
    simpl in Hall. apply andb_true_iff in Hall as [Hc Hall].
    assert (Hshape : ∃ rest, v = String c rest
                             ∧ (rest = core ∨ rest = core +:+ newline)).
    { destruct Hv as [-> | ->]; eexists; (split; [reflexivity |]);
        [by left | by right]. }
    destruct Hshape as (rest & -> & Hrest). simpl. rewrite Hc. simpl.
    destruct core as [| c2 core2].
    + destruct Hrest as [-> | ->]; by vm_compute.
    + rewrite (IH ltac:(done) Hall rest Hrest). by rewrite orb_true_r.
Qed.

(** X24: a user name is accepted exactly when it has 3 to 50 characters
    and consists of one or more letters, digits, underscores and hyphens,
    followed by nothing or by one newline, which [$] lets through; the
    accepted name is the given one in lower case, newline included. *)
Theorem username_accepts (v : string) :
  ((∃ w, username_field v = Return w) ↔
   (3 ≤ String.length v ≤ 50)%nat
   ∧ ∃ core, core ≠ EmptyString ∧ Text.all username_char core = true
             ∧ (v = core ∨ v = core +:+ newline))
  ∧ (∀ w, username_field v = Return w →
          w = Text.lower v
          ∧ Text.all (λ c, negb (Text.isupper c)) w = true
          ∧ String.length w = String.length v).
Proof.
  assert (Hret : ∀ w, username_field v = Return w ↔
                      (3 ≤ String.length v ≤ 50)%nat
                      ∧ match_username v = true ∧ w = Text.lower v).
  { intros w. unfold username_field, validated, validate_username.
    destruct (check_length 3 50 v) as [v' | e] eqn:Hlen.
    - apply check_length_accepts in Hlen as [Hlen ->]. rewrite bind_Return.
      destruct (match_username v); simpl.
      + split; [by intros [= <-] | by intros (_ & _ & ->)].
      + split; [done | by intros (_ & ? & _)].
    - rewrite bind_Raise, try_except_Raise. split; [done |].
      intros (Hbound & _).
      assert (check_length 3 50 v = Return v)
        by (by apply check_length_accepts).
      congruence. }
  split.
  - rewrite <- match_username_spec. split.
    + intros [w (Hlen & Hm & _)%Hret]. done.
    + intros [Hlen Hm]. exists (Text.lower v). by apply Hret.
  - intros w (_ & _ & ->)%Hret.
    split; [done |]. split; [apply lower_no_upper | apply lower_length].
Qed.

Lemma unique_tags_elem_of (seen : gset string) (tags : list string)
    (t : string) :
  t ∈ unique_tags seen tags
  ↔ t ∈ tags ∧ (t ∉ seen) ∧ (String.length t ≤ 50)%nat.
Proof.
  revert seen. induction tags as [| tag rest IH]; intros seen.
  - simpl. split; [by intros ?%elem_of_nil | by intros [?%elem_of_nil _]].
  - cbn [unique_tags].
    destruct (bool_decide (tag ∉ seen)) eqn:Hseen;
      destruct (Nat.leb_spec (String.length tag) 50) as [Hlen | Hlen];
      cbn [andb]; rewrite ?elem_of_cons, IH;
      try apply bool_decide_eq_true_1 in Hseen;
      try apply bool_decide_eq_false_1 in Hseen.
    + split.
      * intros [-> | (Hr & Hs & Hl)]; [split; [by left | done] |].
        apply not_elem_of_union in Hs as [_ Hs]. split; [by right | done].
      * intros ([-> | Hr] & Hs & Hl); [by left |].
        destruct (decide (t = tag)) as [-> | Hne]; [by left |].
        right. split; [done |]. split; [| done].
        apply not_elem_of_union. split; [| done].
        by apply not_elem_of_singleton.
    + split.
      * intros (Hr & Hs & Hl). split; [by right | done].
      * intros ([-> | Hr] & Hs & Hl); [lia | done].
    + split.
      * intros (Hr & Hs & Hl). split; [by right | done].
      * intros ([-> | Hr] & Hs & Hl); [| done].
        exfalso. apply Hseen. done.
    + split.
      * intros (Hr & Hs & Hl). split; [by right | done].
      * intros ([-> | Hr] & Hs & Hl); [lia | done].
Qed.

Lemma unique_tags_NoDup (seen : gset string) (tags : list string) :
  NoDup (unique_tags seen tags).
Proof.
  revert seen. induction tags as [| tag rest IH]; intros seen;
    [constructor |].
  cbn [unique_tags]. destruct (_ && _); [| apply IH].
  constructor; [| apply IH].
  rewrite unique_tags_elem_of. intros (_ & Hs & _).
  apply Hs, elem_of_union. left. by apply elem_of_singleton.
Qed.

Lemma unique_tags_length (seen : gset string) (tags : list string) :
  (length (unique_tags seen tags) ≤ length tags)%nat.
Proof.
  revert seen. induction tags as [| tag rest IH]; intros seen; [done |].
  cbn [unique_tags]. destruct (_ && _); simpl.
  - specialize (IH ({[tag]} ∪ seen)). lia.
  - specialize (IH seen). lia.
Qed.

Lemma unique_tags_id (seen : gset string) (tags : list string) :
  NoDup tags →
  (∀ t, t ∈ tags → (t ∉ seen) ∧ (String.length t ≤ 50)%nat) →
  unique_tags seen tags = tags.
Proof.
  intros Hnd. revert seen.
  induction Hnd as [| tag rest Hnotin Hnd IH]; intros seen Hall; [done |].
  cbn [unique_tags].
  destruct (Hall tag ltac:(left)) as [Hs Hl].
  rewrite bool_decide_eq_true_2 by done.
  rewrite (proj2 (Nat.leb_le _ _)) by done. cbn [andb]. f_equal.
  apply IH. intros t Ht. destruct (Hall t ltac:(by right)) as [Hs' Hl'].
  split; [| done]. intros [Heq%elem_of_singleton | ?]%elem_of_union; [| done].
  by subst.
Qed.

Lemma cleaned_elem_of (v : list string) (t : string) :
  t ∈ cleaned v ↔
  ∃ raw, raw ∈ v ∧ Text.strip raw ≠ EmptyString
         ∧ t = Text.lower (Text.strip raw).
Proof.
  unfold cleaned. rewrite list_elem_of_fmap. split.
  - intros (raw & -> & [Hne Hraw]%list_elem_of_filter). eauto.
  - intros (raw & Hraw & Hne & ->). exists raw. split; [done |].
    by apply list_elem_of_filter.
Qed.

Lemma cleaned_clean (v : list string) (t : string) :
  t ∈ cleaned v →
  t ≠ EmptyString ∧ Text.strip t = t ∧ Text.lower t = t.
Proof.
  intros (raw & _ & Hne & ->)%cleaned_elem_of. split; [| split].
  - by rewrite lower_empty.
  - by rewrite strip_lower, strip_idem.
  - apply lower_idem.
Qed.

Lemma cleaned_id (v : list string) :
  Forall (λ t, t ≠ EmptyString ∧ Text.strip t = t ∧ Text.lower t = t) v →
  cleaned v = v.
Proof.
  unfold cleaned. induction 1 as [| t v (Hne & Hs & Hl) _ IH]; [done |].
  rewrite filter_cons_True by (by rewrite Hs).
  rewrite fmap_cons, IH. by rewrite Hs, Hl.
Qed.

(** X25: the tags that [validate_tags] gives are pairwise different, are
    exactly the cleaned tags of at most 50 characters, are each not
    empty, stripped and in lower case, are no more than the tags given,
    and validating them again gives them back; the bound of 10 applies to
    the tags as given, before they are cleaned. *)
Theorem validated_tags_are_clean (v : list string) :
  let tags := validate_tags v in
  NoDup tags
  ∧ (∀ t, t ∈ tags ↔ t ∈ cleaned v ∧ (String.length t ≤ 50)%nat)
  ∧ Forall (λ t, t ≠ EmptyString ∧ Text.strip t = t ∧ Text.lower t = t
                 ∧ (String.length t ≤ 50)%nat) tags
  ∧ (length tags ≤ length v)%nat
  ∧ validate_tags tags = tags
  ∧ ((∃ r, tags_field v = Return r) ↔ (length v ≤ 10)%nat).
Proof.
  intros tags. unfold tags, validate_tags.
  assert (Hin : ∀ t, t ∈ unique_tags ∅ (cleaned v)
                     ↔ t ∈ cleaned v ∧ (String.length t ≤ 50)%nat).
  { intros t. rewrite unique_tags_elem_of. split.
    - by intros (? & _ & ?).
    - intros [? ?]. split; [done |]. split; [apply not_elem_of_empty | done]. }
  assert (Hall : Forall (λ t, t ≠ EmptyString ∧ Text.strip t = t
                              ∧ Text.lower t = t
                              ∧ (String.length t ≤ 50)%nat)
                   (unique_tags ∅ (cleaned v))).
  { apply Forall_forall. intros t [Ht Hl]%Hin.
    destruct (cleaned_clean v t Ht) as (? & ? & ?). done. }
  split; [apply unique_tags_NoDup |]. split; [exact Hin |].
  split; [exact Hall |]. split; [| split].
  - pose proof (unique_tags_length ∅ (cleaned v)) as H1.
    unfold cleaned in H1 |- *. rewrite length_fmap in H1.
    pose proof (length_filter (λ tag, Text.strip tag ≠ EmptyString) v). lia.
  - rewrite cleaned_id.
    + apply unique_tags_id; [apply unique_tags_NoDup |].
      intros t Ht. split; [apply not_elem_of_empty |].
      by apply (proj1 (Forall_forall _ _) Hall) in Ht as (_ & _ & _ & ?).
    + eapply Forall_impl; [exact Hall |]. by intros t (? & ? & ? & _).
  - unfold tags_field. destruct (Nat.leb_spec (length v) 10).
    + split; [done | eauto].
    + split; [by intros [? ?] | lia].
Qed.

Lemma mapM_Return {A B} (f : A → result B) (l : list A) (k : list B) :
  mapM f l = Return k → Forall2 (λ x y, f x = Return y) l k.
Proof.
  revert k. induction l as [| x l IH]; intros k.
  - intros [= <-]. constructor.
  - cbn [mapM]. intros Hm.
    apply bind_Return_inv in Hm as (y & Hy & Hm).
    apply bind_Return_inv in Hm as (k' & Hk & Hm).
    injection Hm as <-. constructor; [done | by apply IH].
Qed.

Lemma foldl_add_ge (l : list Z) (a : Z) :
  Forall (λ q, 1 ≤ q) l → a + len l ≤ foldl Z.add a l.
Proof.
  intros Hall. revert a. unfold len.
  induction Hall as [| q l Hq _ IH]; intros a; simpl; [lia |].
  specialize (IH (a + q)). lia.
Qed.

Lemma foldl_Qplus_ge (l : list Q) (a : Q) :
  Forall (λ x, (0 < x)%Q) l →
  (a <= foldl Qplus a l)%Q ∧ (l ≠ [] → (a < foldl Qplus a l)%Q).
Proof.
  intros Hall. revert a.
  induction Hall as [| x l Hx _ IH]; intros a; simpl.
  - split; [lra | done].
  - destruct (IH (a + x)%Q) as [Hle _]. split; [lra |]. intros _. lra.
Qed.

(** X26: an order that is accepted has at least one item, each with a
    quantity of at least 1 and a positive unit price; its [item_count] is
    at least the number of its items, its [total_amount] is positive, and
    the [total_price] of an item is at least its unit price. *)
Theorem order_totals (id user_id : string)
    (items : list (string * string * Z * Q)) (status : OrderStatus)
    (created_at : Z) (order : OrderResponse) :
  OrderResponse_init id user_id items status created_at = Return order →
  1 ≤ len (o_items order) ≤ item_count order
  ∧ len (o_items order) = len items
  ∧ (0 < total_amount order)%Q
  ∧ Forall (λ item, 1 ≤ quantity item ∧ (0 < unit_price item)%Q
                    ∧ (unit_price item <= total_price item)%Q)
      (o_items order).
Proof.
  unfold OrderResponse_init. intros Ho.
  apply bind_Return_inv in Ho as (its & Hits & Ho).
  apply bind_Return_inv in Ho as ([] & Hlen & Ho). injection Ho as <-.
  cbn [o_items]. unfold item_count, total_amount. cbn [o_items].
  destruct (Nat.leb_spec 1 (length its)) as [Hne | ?]; [| done].
  apply mapM_Return in Hits.
  assert (Hvalid : Forall (λ item, 1 ≤ quantity item
                                   ∧ (0 < unit_price item)%Q) its).
  { clear Hne Hlen. induction Hits as [| [[[pid pname] q] u] item l k Hi _ IH];
      constructor; [| done].
    unfold OrderItem_init in Hi.
    apply bind_Return_inv in Hi as (q' & Hq & Hi).
    apply bind_Return_inv in Hi as (u' & Hu & Hi). injection Hi as <-.
    apply check_gt0_Return in Hu as [Hu ->]. simpl.
    destruct (Z.leb_spec 1 q); [| done]. injection Hq as <-. done. }
  assert (Hprices : Forall (λ x, (0 < x)%Q) (total_price <$> its)).
  { apply Forall_fmap. eapply Forall_impl; [exact Hvalid |].
    intros item [Hq Hu]. simpl. unfold total_price.
    assert (Hq' : (1 <= inject_Z (quantity item))%Q)
      by (change 1%Q with (inject_Z 1); by rewrite <- Zle_Qle).
    nra. }
  split; [| split; [| split]].
  - pose proof (foldl_add_ge (quantity <$> its) 0) as Hsum.
    unfold len in *. rewrite length_fmap in Hsum. split; [lia |].
    apply Hsum. apply Forall_fmap. eapply Forall_impl; [exact Hvalid |].
    by intros item [? _].
  - unfold len. f_equal. symmetry. by eapply Forall2_length.
  - apply (foldl_Qplus_ge _ 0 Hprices). destruct its; [simpl in Hne; lia | done].
  - eapply Forall_impl; [exact Hvalid |]. intros item [Hq Hu].
    split; [done |]. split; [done |]. unfold total_price.
    assert (Hq' : (1 <= inject_Z (quantity item))%Q)
      by (change 1%Q with (inject_Z 1); by rewrite <- Zle_Qle).
    nra.
Qed.

End FieldValidators.

Section FieldValidatorExamples.
Import Py Schemas SchemaModels.

Lemma product_fields_are_clean_witness :
  ∃ m, ProductCreate_init "  Pen " "Writes." 2 0 "Office" = Return m
       ∧ name m = "Pen" ∧ name m ≠ EmptyString.
Proof.
  destruct (ProductCreate_init "  Pen " "Writes." 2 0 "Office")
    as [m | e] eqn:Hm; [| by vm_compute in Hm].
  exists m. split; [reflexivity |].
  destruct (proj1 product_fields_are_clean _ _ _ _ _ _ Hm)
    as (Hname & _ & _ & Hne & _).
  split; [by rewrite Hname | exact Hne].
Defined.

(** A name that tries to leave the upload directory comes out as a plain
    file name. *)
Lemma accepted_filename_is_safe_witness :
  ∃ w, filename_field "../../etc/passwd " = Return w
       ∧ w = "etcpasswd"
       ∧ Text.all (λ c, negb (unsafe c)) w = true
       ∧ filename_field w = Return w.
Proof.
  destruct (filename_field "../../etc/passwd ") as [w | e] eqn:Hw;
    [| by vm_compute in Hw].
  exists w. split; [reflexivity |].
  destruct (proj1 (accepted_filename_is_safe "../../etc/passwd ") w Hw)
    as (_ & Hsafe & _ & _ & Hfix).
  split; [by vm_compute in Hw; injection Hw as <- |].
  split; [exact Hsafe | exact Hfix].
Defined.

(** A user name with a newline at its end is accepted, newline
    included. *)
Lemma username_accepts_witness :
  ∃ w, username_field ("Bob_1" +:+ newline) = Return w
       ∧ w = "bob_1" +:+ newline.
Proof.
  destruct (username_accepts ("Bob_1" +:+ newline)) as [Hiff Hlower].
  destruct (proj2 Hiff) as [w Hw].
  { split; [simpl; lia |]. exists "Bob_1".
    split; [done |]. split; [reflexivity | by right]. }
  exists w. split; [exact Hw |].
  destruct (Hlower w Hw) as (-> & _). reflexivity.
Defined.

Lemma validated_tags_are_clean_witness :
  validate_tags [" Python"; "python "; "  "; "FastAPI"] = ["python"; "fastapi"]
  ∧ NoDup (validate_tags [" Python"; "python "; "  "; "FastAPI"])
  ∧ validate_tags (validate_tags [" Python"; "python "; "  "; "FastAPI"])
    = validate_tags [" Python"; "python "; "  "; "FastAPI"].
Proof.
  split; [reflexivity |].
  destruct (validated_tags_are_clean [" Python"; "python "; "  "; "FastAPI"])
    as (Hnd & _ & _ & _ & Hidem & _).
  split; [exact Hnd | exact Hidem].
Defined.

Lemma order_totals_witness :
  ∃ order,
    OrderResponse_init "order-1" "user-1"
      [("p1", "Pen", 2, 3%Q); ("p2", "Ink", 1, 5%Q)] pending 0 = Return order
    ∧ 1 ≤ len (o_items order) ≤ item_count order
    ∧ (0 < total_amount order)%Q.
Proof.
  destruct (OrderResponse_init "order-1" "user-1"
              [("p1", "Pen", 2, 3%Q); ("p2", "Ink", 1, 5%Q)] pending 0)
    as [order | e] eqn:Ho; [| by vm_compute in Ho].
  exists order. split; [reflexivity |].
  destruct (order_totals _ _ _ _ _ _ Ho) as (Hcount & _ & Htotal & _).
  split; [exact Hcount | exact Htotal].
Defined.

End FieldValidatorExamples.

(** ** Who the protected routes answer *)

Section Accounts.
Import Py HeaderCookie Spec Terms.
Context `{Runtime}.

Lemma M_bind_Return {A B} (m : M A) (k : A → M B) (g g' : Globals) (b : B) :
  (m ≫= k) g = (Return b, g') →
  ∃ a g1, m g = (Return a, g1) ∧ k a g1 = (Return b, g').
Proof.
  rewrite bind_run. destruct (m g) as [[a | e] g1]; [eauto | done].
Qed.

Lemma M_bind_Raise {A B} (m : M A) (k : A → M B) (g g' : Globals) (e : exn) :
  m g = (Raise e, g') → (m ≫= k) g = (Raise e, g').
Proof. intros Hm. by rewrite bind_run, Hm. Qed.

Lemma raise_when_Return (cond : bool) (e : exn) (g g' : Globals) (u : unit) :
  raise_when cond e g = (Return u, g') → cond = false ∧ g' = g.
Proof. destruct cond; [done |]. by intros [= _ <-]. Qed.

Lemma dict_get_elem_of {V} (key : string) (d : list (string * V)) (v : V) :
  dict_get key d = Some v → (key, v) ∈ d.
Proof.
  induction d as [| [k v'] d IH]; [done |]. simpl.
  case_bool_decide as Hk.
  - intros [= <-]. subst k. left.
  - intros Hd. right. by apply IH.
Qed.

Lemma NoDup_fmap_inj_on {A B} (f : A → B) (l : list A) (x y : A) :
  NoDup (f <$> l) → x ∈ l → y ∈ l → f x = f y → x = y.
Proof.
  intros Hnd Hx Hy Hxy. induction l as [| z l IH]; [by inversion Hx |].
  rewrite fmap_cons, NoDup_cons in Hnd. destruct Hnd as [Hz Hnd].
  apply elem_of_cons in Hx as [-> | Hx]; apply elem_of_cons in Hy as [-> | Hy].
  - done.
  - exfalso. apply Hz. rewrite Hxy. by apply list_elem_of_fmap_2.
  - exfalso. apply Hz. rewrite <- Hxy. by apply list_elem_of_fmap_2.
  - by apply IH.
Qed.

(** What the token dependency gives: the token of the header when there
    is a header, of the cookie otherwise. *)
Lemma get_token_Return (authorization access_token : option string)
    (g g' : Globals) (token : string) :
  get_token authorization access_token g = (Return token, g') →
  g' = g ∧ token ≠ EmptyString
  ∧ ((∃ a, truthy authorization = Some a
           ∧ String.prefix "Bearer " a = true
           ∧ token = replace a "Bearer " "")
     ∨ (truthy authorization = None ∧ truthy access_token = Some token)).
Proof.
  unfold get_token. intros Hg.
  apply M_bind_Return in Hg as (t & g1 & Ht & Hg).
  assert (Hne : ∀ s, truthy (Some s) = Some token → token ≠ EmptyString)
    by (intros [| ? ?] ?; simplify_eq/=; done).
  destruct (truthy authorization) as [a |].
  - apply M_bind_Return in Ht as ([] & g2 & Hw & Ht).
    apply raise_when_Return in Hw as [Hp ->]. apply negb_false_iff in Hp.
    injection Ht as <- <-.
    destruct (truthy (Some (replace a "Bearer " ""))) as [t |] eqn:Htok;
      [| done].
    injection Hg as -> ->.
    split; [done |]. split; [by eapply Hne |]. left. exists a.
    split; [done |]. split; [done |].
    destruct (replace a "Bearer " ""); simplify_eq/=; done.
  - injection Ht as <- <-.
    destruct (truthy (truthy access_token)) as [t |] eqn:Htok; [| done].
    injection Hg as -> ->. split; [done |].
    destruct access_token as [[| c s] |]; simplify_eq/=.
    split; [done |]. by right.
Qed.

(** Whoever the user dependency answers is a stored, active user, named
    by the payload of the token. *)
Lemma get_current_user_Return (token : string) (g g' : Globals) (u : User) :
  get_current_user token g = (Return u, g') →
  g' = g
  ∧ ∃ d payload,
      active_user g d ∧ u = User_of d
      ∧ is_email (ud_email d) = true
      ∧ jwt_decode token SECRET_KEY [ALGORITHM] = Gives payload
      ∧ user_id payload = Some (ud_id d).
Proof.
  unfold get_current_user.
  destruct (get_current_user_try token g) as [r g1] eqn:Htry.
  intros [= Hr <-].
  destruct r as [u' | e]; [| by repeat case_match].
  injection Hr as ->.
  unfold get_current_user_try in Htry.
  apply M_bind_Return in Htry as (payload & g2 & Hp & Htry).
  unfold lift in Hp. injection Hp as Hp <-.
  destruct (jwt_decode token SECRET_KEY [ALGORITHM]) as [p |] eqn:Hdec;
    [| done].
  injection Hp as ->.
  apply M_bind_Return in Htry as (uid & g2 & Huid & Htry).
  destruct (truthy (user_id payload)) as [uid' |] eqn:Hu; [| done].
  injection Huid as -> <-.
  apply M_bind_Return in Htry as (users & g2 & Hload & Htry).
  injection Hload as <- <-.
  apply M_bind_Return in Htry as (d & g2 & Hfind & Htry).
  destruct (list_find (λ item, ud_id item.2 = uid) (MOCK_USERS g))
    as [[i [k d']] |] eqn:Hlf; [| done].
  injection Hfind as -> <-.
  apply M_bind_Return in Htry as ([] & g2 & Hact & Htry).
  apply raise_when_Return in Hact as [Hact ->]. apply negb_false_iff in Hact.
  unfold lift, User_init in Htry.
  destruct (is_email (ud_email d)) eqn:Hmail; [| done].
  injection Htry as <- <-.
  apply list_find_Some in Hlf as (Hi & Hid & _). simpl in Hid.
  split; [done |]. exists d, payload.
  split; [split; [exists k; by eapply list_elem_of_lookup_2 | done] |].
  split; [done |]. split; [done |]. split; [done |].
  destruct (user_id payload) as [[| c s] |]; simpl in Hu; congruence.
Qed.

Lemma current_user_dep_Return (authorization access_token : option string)
    (g g' : Globals) (u : User) :
  current_user_dep authorization access_token g = (Return u, g') →
  g' = g ∧ ∃ d, active_user g d ∧ u = User_of d.
Proof.
  unfold current_user_dep. intros Hd.
  apply M_bind_Return in Hd as (token & g1 & Ht & Hu).
  apply get_token_Return in Ht as (-> & _).
  apply get_current_user_Return in Hu as (-> & d & p & Hd & -> & _).
  split; [done |]. by exists d.
Qed.

Lemma RoleChecker_Return (allowed : list UserRole)
    (authorization access_token : option string) (g g' : Globals) (u : User) :
  RoleChecker allowed authorization access_token g = (Return u, g') →
  g' = g ∧ ∃ d, active_user g d ∧ u = User_of d ∧ ud_role d ∈ allowed.
Proof.
  unfold RoleChecker. intros Hr.
  apply M_bind_Return in Hr as (u' & g1 & Hu & Hr).
  apply current_user_dep_Return in Hu as (-> & d & Hd & ->).
  apply M_bind_Return in Hr as ([] & g2 & Hw & Hr).
  apply raise_when_Return in Hw as [Hrole ->]. injection Hr as <- <-.
  apply bool_decide_eq_false_1 in Hrole.
  split; [done |]. exists d. split; [done |]. split; [done |].
  by apply dec_stable.
Qed.

(** X27: whoever a protected route answers is an active user of
    [MOCK_USERS]: the profile route answers that user's data, the admin
    route and the deletion of a post answer only a user whose role is
    admin, and the approval of a post only an admin or a moderator; none
    of them changes the module data. *)
Theorem protected_routes_answer_active_users (g : Globals)
    (authorization access_token : option string) :
  (∀ u g', current_user_dep authorization access_token g = (Return u, g') →
           g' = g ∧ ∃ d, active_user g d ∧ u = User_of d)
  ∧ (∀ v g', get_profile authorization access_token g = (Return v, g') →
       g' = g
       ∧ ∃ d, active_user g d
              ∧ v = VDict [("user", User_value (User_of d));
                           ("message", VStr "This is your protected profile")])
  ∧ (∀ v g', admin_only authorization access_token g = (Return v, g') →
       g' = g
       ∧ ∃ d, active_user g d ∧ ud_role d = admin
              ∧ v = VDict [("message", VStr "Welcome, admin!");
                           ("admin", VStr (ud_username d))])
  ∧ (∀ post_id v g',
       delete_post post_id authorization access_token g = (Return v, g') →
       g' = g
       ∧ ∃ d, active_user g d ∧ ud_role d = admin
              ∧ v = VDict [("message", VStr ("Post " +:+ post_id +:+ " deleted"));
                           ("deleted_by", VStr (ud_username d))])
  ∧ (∀ post_id v g',
       approve_post post_id authorization access_token g = (Return v, g') →
       g' = g
       ∧ ∃ d, active_user g d ∧ (ud_role d = admin ∨ ud_role d = moderator)
              ∧ v = VDict [("message",
                            VStr ("Post " +:+ post_id +:+ " approved"));
                           ("approved_by", VStr (ud_username d));
                           ("role", VStr (UserRole_value (ud_role d)))]).
Proof.
  split; [| split; [| split; [| split]]].
  - intros u g'. apply current_user_dep_Return.
  - intros v g' Hv. unfold get_profile in Hv.
    apply M_bind_Return in Hv as (u & g1 & Hu & Hv).
    apply current_user_dep_Return in Hu as (-> & d & Hd & ->).
    injection Hv as <- <-. split; [done |]. by exists d.
  - intros v g' Hv. unfold admin_only in Hv.
    apply M_bind_Return in Hv as (u & g1 & Hu & Hv).
    apply current_user_dep_Return in Hu as (-> & d & Hd & ->).
    apply M_bind_Return in Hv as ([] & g2 & Hw & Hv).
    apply raise_when_Return in Hw as [Hrole ->]. injection Hv as <- <-.
    apply bool_decide_eq_false_1, dec_stable in Hrole.
    split; [done |]. by exists d.
  - intros post_id v g' Hv. unfold delete_post in Hv.
    apply M_bind_Return in Hv as (u & g1 & Hu & Hv).
    apply RoleChecker_Return in Hu as (-> & d & Hd & -> & Hrole).
    injection Hv as <- <-. apply list_elem_of_singleton in Hrole.
    split; [done |]. by exists d.
  - intros post_id v g' Hv. unfold approve_post in Hv.
    apply M_bind_Return in Hv as (u & g1 & Hu & Hv).
    apply RoleChecker_Return in Hu as (-> & d & Hd & -> & Hrole).
    injection Hv as <- <-.
    apply elem_of_cons in Hrole as [Hrole | Hrole%list_elem_of_singleton].
    + split; [done |]. exists d. split; [done |]. split; [by left | done].
    + split; [done |]. exists d. split; [done |]. split; [by right | done].
Qed.

End Accounts.

Section Credentials.
Import Py HeaderCookie Spec Terms.
Context `{Runtime}.

Lemma mret_run {A} (a : A) (g : Globals) : (mret a : M A) g = (Return a, g).
Proof. reflexivity. Qed.

Lemma load_run {A} (name : Globals → A) (g : Globals) :
  load name g = (Return (name g), g).
Proof. reflexivity. Qed.

Lemma current_user_dep_Raise (authorization access_token : option string)
    (g : Globals) (e : exn) :
  get_token authorization access_token g = (Raise e, g) →
  current_user_dep authorization access_token g = (Raise e, g).
Proof. intros Ht. unfold current_user_dep. by apply M_bind_Raise. Qed.

(** A request whose token dependency fails is answered with that failure
    by every route that depends on the current user. *)
Lemma serve_without_token (r : request) (g : Globals)
    (authorization access_token : option string) (e : exn) :
  credentials_of r = Some (authorization, access_token) →
  get_token authorization access_token g = (Raise e, g) →
  serve r g = (Failure e, g).
Proof.
  intros Hr Ht. apply current_user_dep_Raise in Ht.
  destruct r; simplify_eq/=.
  - unfold get_profile. by rewrite (M_bind_Raise _ _ _ _ _ Ht).
  - unfold admin_only. by rewrite (M_bind_Raise _ _ _ _ _ Ht).
  - unfold list_items. by rewrite (M_bind_Raise _ _ _ _ _ Ht).
  - unfold delete_post, require_admin, RoleChecker.
    by rewrite (M_bind_Raise _ _ _ _ _ (M_bind_Raise _ _ _ _ _ Ht)).
  - unfold approve_post, require_moderator, RoleChecker.
    by rewrite (M_bind_Raise _ _ _ _ _ (M_bind_Raise _ _ _ _ _ Ht)).
  - unfold query_database. by rewrite (M_bind_Raise _ _ _ _ _ Ht).
Qed.

(** X28: a request for a route that depends on the current user is
    answered 401 "Not authenticated" when it carries neither an
    [Authorization] header nor an [access_token] cookie (or empty ones),
    and 401 with the message about the header format when it carries a
    header that does not begin with "Bearer ", whatever its cookie: the
    header is looked at first and a good cookie does not make up for a bad
    header.  The module data is left as it is. *)
Theorem requests_without_token_are_401 (r : request) (g : Globals)
    (authorization access_token : option string) :
  credentials_of r = Some (authorization, access_token) →
  (truthy authorization = None → truthy access_token = None →
   serve r g = (Failure not_authenticated, g))
  ∧ (∀ a, truthy authorization = Some a →
          String.prefix "Bearer " a = false →
          serve r g = (Failure bad_authorization, g)).
Proof.
  intros Hr. split.
  - intros Ha Hc. apply (serve_without_token r g _ _ _ Hr).
    unfold get_token. rewrite Ha. rewrite bind_run. cbn. by rewrite Hc.
  - intros a Ha Hp. apply (serve_without_token r g _ _ _ Hr).
    unfold get_token. rewrite Ha. rewrite !bind_run. by rewrite Hp.
Qed.

(** X29: the cookie that [login] sets authenticates the next request as
    the user who logged in.  When the ids of [MOCK_USERS] are pairwise
    different, its active users have a valid e-mail address and an id
    that is not empty, and a token decodes to a payload with the user id
    it was made for, a successful login leaves the module data as it is,
    sets one [access_token] cookie that holds the token it answers, and
    the profile route answers a request with that cookie by the data of
    the user whose name and password were given. *)
Theorem login_cookie_authenticates (g g' : Globals) (credentials : LoginRequest)
    (now : Z) (answer : TokenResponse) (cookies : list cookie) :
  login credentials now g = (Return (answer, cookies), g') →
  NoDup ((λ item : string * UserData, ud_id item.2) <$> MOCK_USERS g) →
  (∀ d, active_user g d →
        is_email (ud_email d) = true ∧ ud_id d ≠ EmptyString) →
  (∀ uid, ∃ payload,
     jwt_decode (create_access_token uid now) SECRET_KEY [ALGORITHM]
     = Gives payload
     ∧ user_id payload = Some uid) →
  access_token answer ≠ EmptyString →
  ∃ d, dict_get (lr_username credentials) (MOCK_USERS g) = Some d
       ∧ ud_password d = lr_password credentials
       ∧ active_user g d
       ∧ g' = g
       ∧ cookies = [set_cookie "access_token" (access_token answer) 1800
                      true true "lax"]
       ∧ get_profile None (Some (access_token answer)) g
         = (Return (VDict [("user", User_value (User_of d));
                           ("message", VStr "This is your protected profile")]),
            g).
Proof.
  intros Hlogin Hnd Hstored Hcodec Htoken. unfold login in Hlogin.
  apply M_bind_Return in Hlogin as (users & g1 & Hload & Hlogin).
  injection Hload as <- <-.
  apply M_bind_Return in Hlogin as (d & g1 & Hd & Hlogin).
  destruct (dict_get (lr_username credentials) (MOCK_USERS g)) as [d' |] eqn:Hget;
    [| done].
  case_bool_decide as Hpw; [done |]. injection Hd as -> <-.
  apply M_bind_Return in Hlogin as ([] & g2 & Hact & Hlogin).
  apply raise_when_Return in Hact as [Hact ->]. apply negb_false_iff in Hact.
  injection Hlogin as <- <-. cbn [access_token] in *.
  assert (Hin : (lr_username credentials, d) ∈ MOCK_USERS g)
    by (by apply dict_get_elem_of).
  assert (Hactive : active_user g d) by (split; [by eexists | done]).
  destruct (Hstored d Hactive) as [Hmail Hid].
  destruct (Hcodec (ud_id d)) as (payload & Hdec & Huid).
  exists d. split; [done |]. split; [done |]. split; [done |].
  split; [done |]. split; [done |].
  set (token := create_access_token (ud_id d) now) in *.
  assert (Htok : get_token None (Some token) g = (Return token, g)).
  { unfold get_token. cbn. by destruct token. }
  assert (Hfind : ∃ i k, list_find (λ item : string * UserData,
                                      ud_id item.2 = ud_id d) (MOCK_USERS g)
                         = Some (i, (k, d))).
  { destruct (list_find_elem_of
                (λ item : string * UserData, ud_id item.2 = ud_id d)
                (MOCK_USERS g) _ Hin eq_refl) as [[i [k d']] Hlf].
    exists i, k. rewrite Hlf. do 3 f_equal.
    apply list_find_Some in Hlf as (Hi & Hsame & _).
    apply list_elem_of_lookup_2 in Hi. simpl in Hsame.
    assert (Heq : (k, d') = (lr_username credentials, d))
      by (by eapply (NoDup_fmap_inj_on _ _ _ _ Hnd)).
    by injection Heq. }
  destruct Hfind as (i & k & Hfind).
  assert (Htry : get_current_user_try token g = (Return (User_of d), g)).
  { unfold get_current_user_try.
    rewrite bind_run. unfold lift at 1. rewrite Hdec. cbn [await].
    rewrite bind_run, Huid.
    assert (truthy (Some (ud_id d)) = Some (ud_id d)) as ->
      by (by destruct (ud_id d)).
    rewrite mret_run, bind_run, load_run, bind_run, Hfind, mret_run.
    rewrite bind_run, Hact. cbn [negb raise_when]. rewrite mret_run.
    unfold lift, User_init. by rewrite Hmail. }
  assert (Huser : get_current_user token g = (Return (User_of d), g)).
  { unfold get_current_user. by rewrite Htry. }
  unfold get_profile, current_user_dep.
  rewrite !bind_run, Htok, Huser. reflexivity.
Qed.

Lemma serve_Get_config (g : Globals) :
  cache_ok g → (serve Get_config g).1 = Answer Settings_init.
Proof.
  intros Hc. unfold serve, get_config. rewrite bind_run, get_settings_run.
  by destruct Hc as [-> | ->].
Qed.

Lemma serve_cache_ok (r : request) (g : Globals) :
  cache_ok g →
  cache_ok (serve r g).2
  ∧ MOCK_USERS (serve r g).2 = MOCK_USERS g
  ∧ MOCK_SESSIONS (serve r g).2 = MOCK_SESSIONS g
  ∧ VALID_API_KEYS (serve r g).2 = VALID_API_KEYS g
  ∧ (get_settings_cache g = Some Settings_init ∨ r = Get_config →
     get_settings_cache (serve r g).2 = Some Settings_init).
Proof.
  intros Hc. destruct (serve_effect r g) as [[Heq | (Hr & Hnone & Heq)] _].
  - rewrite Heq. split; [done |]. split; [done |]. split; [done |].
    split; [done |]. intros [Hsome | ->]; [done |].
    destruct Hc as [Hnone | Hsome]; [| done].
    exfalso. unfold serve, get_config in Heq.
    rewrite bind_run, get_settings_run, Hnone in Heq. simpl in Heq.
    apply (f_equal get_settings_cache) in Heq. simpl in Heq. congruence.
  - rewrite Heq. split; [by right |]. done.
Qed.

(** X30: over any sequence of requests the module data changes in one way
    only: starting with a cache of [get_settings] that is empty or holds
    the settings, the cache stays so, holds the settings once the
    configuration was asked for, and the configuration route answers the
    same settings before and after; [MOCK_USERS], [MOCK_SESSIONS] and
    [VALID_API_KEYS] end as they began. *)
Theorem settings_cache_over_requests (rs : list request) (g : Globals) :
  cache_ok g →
  let after := serve_all rs g in
  cache_ok after
  ∧ (Get_config ∈ rs → get_settings_cache after = Some Settings_init)
  ∧ (serve Get_config g).1 = Answer Settings_init
  ∧ (serve Get_config after).1 = Answer Settings_init
  ∧ MOCK_USERS after = MOCK_USERS g
  ∧ MOCK_SESSIONS after = MOCK_SESSIONS g
  ∧ VALID_API_KEYS after = VALID_API_KEYS g.
Proof.
  intros Hc after. unfold after. clear after.
  assert (Hstep : ∀ rs g,
            cache_ok g →
            cache_ok (serve_all rs g)
            ∧ (get_settings_cache g = Some Settings_init ∨ Get_config ∈ rs →
               get_settings_cache (serve_all rs g) = Some Settings_init)
            ∧ MOCK_USERS (serve_all rs g) = MOCK_USERS g
            ∧ MOCK_SESSIONS (serve_all rs g) = MOCK_SESSIONS g
            ∧ VALID_API_KEYS (serve_all rs g) = VALID_API_KEYS g).
  { clear rs g Hc. induction rs as [| r rs IH]; intros g Hc.
    - split; [done |]. split; [| done].
      intros [? | Hin]; [done | by apply elem_of_nil in Hin].
    - destruct (serve_cache_ok r g Hc) as (Hc' & Hu & Hs & Hk & Hsome).
      destruct (IH _ Hc') as (Hc2 & Hsome2 & Hu2 & Hs2 & Hk2).
      change (serve_all (r :: rs) g) with (serve_all rs (serve r g).2).
      split; [done |]. split; [| by rewrite Hu2, Hs2, Hk2].
      intros [Hg | Hin]; apply Hsome2.
      + left. apply Hsome. by left.
      + apply elem_of_cons in Hin as [<- | Hin]; [| by right].
        left. apply Hsome. by right. }
  destruct (Hstep rs g Hc) as (Hc' & Hsome & Hu & Hs & Hk).
  split; [done |]. split; [intros Hin; apply Hsome; by right |].
  split; [by apply serve_Get_config |].
  split; [by apply serve_Get_config |]. done.
Qed.

End Credentials.

Section AccountExamples.
Import Py HeaderCookie Spec Terms Samples.

Lemma protected_routes_answer_active_users_witness :
  ∃ d, active_user initial d ∧ ud_role d = admin
       ∧ (admin_only (Some "Bearer token-for-user-123") None initial).1
         = Return (VDict [("message", VStr "Welcome, admin!");
                          ("admin", VStr (ud_username d))]).
Proof.
  destruct (admin_only (Some "Bearer token-for-user-123") None initial)
    as [[v | e] g'] eqn:Hrun; [| by vm_compute in Hrun].
  destruct (proj1 (proj2 (proj2 (protected_routes_answer_active_users
                                   initial _ _))) v g' Hrun)
    as (_ & d & Hd & Hrole & ->).
  by exists d.
Defined.

(** A good cookie does not make up for a header of the wrong form. *)
Lemma requests_without_token_are_401_witness :
  (credentials_of (Get_profile (Some "Token abc") (Some "token-for-user-123"))
   = Some (Some "Token abc", Some "token-for-user-123")
   ∧ String.prefix "Bearer " "Token abc" = false)
  ∧ serve (Get_profile (Some "Token abc") (Some "token-for-user-123")) initial
    = (Failure bad_authorization, initial).
Proof.
  split; [split; reflexivity |].
  exact (proj2 (requests_without_token_are_401
                  (Get_profile (Some "Token abc") (Some "token-for-user-123"))
                  initial _ _ eq_refl) "Token abc" eq_refl eq_refl).
Defined.

Lemma substring_all (s : string) :
  String.substring 0 (String.length s) s = s.
Proof. induction s as [| c s IH]; [done |]. simpl. by rewrite IH. Qed.

Lemma sample_token_names_its_user (uid : string) (now : Z) :
  ∃ payload,
    jwt_decode (create_access_token uid now) SECRET_KEY [ALGORITHM]
    = Gives payload
    ∧ user_id payload = Some uid.
Proof.
  unfold create_access_token. simpl. unfold decode_token. simpl.
  change (EmptyString +:+ uid) with uid.
  rewrite Nat.sub_0_r, substring_all.
  assert (String.prefix EmptyString uid = true) as -> by (by destruct uid).
  eauto.
Qed.

Lemma initial_users_are_well_formed (d : UserData) :
  active_user initial d →
  is_email (ud_email d) = true ∧ ud_id d ≠ EmptyString.
Proof.
  intros [[k Hin] _]. unfold initial in Hin. cbn [MOCK_USERS] in Hin.
  apply elem_of_cons in Hin as [[= _ ->] | Hin]; [done |].
  apply list_elem_of_singleton in Hin as [= _ ->]. done.
Qed.

Lemma login_cookie_authenticates_witness :
  let credentials := {| lr_username := "john_doe";
                        lr_password := "hashed_password_here" |} in
  ∃ answer cookies d,
    login credentials 0 initial = (Return (answer, cookies), initial)
    ∧ dict_get "john_doe" (MOCK_USERS initial) = Some d
    ∧ get_profile None (Some (access_token answer)) initial
      = (Return (VDict [("user", User_value (User_of d));
                        ("message", VStr "This is your protected profile")]),
         initial).
Proof.
  intros credentials.
  destruct (login credentials 0 initial) as [[[answer cookies] | e] g']
    eqn:Hlogin; [| by vm_compute in Hlogin].
  assert (Htoken : access_token answer ≠ EmptyString).
  { pose proof Hlogin as Hl. vm_compute in Hl. by injection Hl as <- _ _. }
  assert (Hnd : NoDup ((λ item : string * UserData, ud_id item.2)
                       <$> MOCK_USERS initial))
    by (apply (bool_decide_unpack _); by vm_compute).
  destruct (login_cookie_authenticates initial g' credentials 0 answer cookies
              Hlogin Hnd initial_users_are_well_formed
              (λ uid, sample_token_names_its_user uid 0) Htoken)
    as (d & Hd & _ & _ & -> & _ & Hprofile).
  exists answer, cookies, d. done.
Defined.

Lemma settings_cache_over_requests_witness :
  cache_ok initial
  ∧ get_settings_cache
      (serve_all [Root; Get_config; Get_theme "dark"] initial)
    = Some Settings_init
  ∧ MOCK_USERS (serve_all [Root; Get_config; Get_theme "dark"] initial)
    = MOCK_USERS initial.
Proof.
  assert (Hc : cache_ok initial) by (by left).
  split; [exact Hc |].
  destruct (settings_cache_over_requests
              [Root; Get_config; Get_theme "dark"] initial Hc)
    as (_ & Hsome & _ & _ & Hu & _).
  split; [| exact Hu]. apply Hsome. right. left.
Defined.

End AccountExamples.
